(** * Data Factory schedule trigger: the resource functions and the schedule codec

    A shallow embedding of
    [internal/services/datafactory/data_factory_trigger_schedule_resource.go]:
    the schedule codec ([expandDataFactorySchedule],
    [flattenDataFactorySchedule]) and the three resource functions
    (create-or-update, read, delete) over an abstract triggers client. *)

From Stdlib Require Import ZArith.
From stdpp Require Import gmap strings list fin_maps.

Local Open Scope Z_scope.
Local Set Warnings "-register-all".

(** ** Go values

    [interface{}] values as the resource code meets them: the nil interface,
    [bool], [int], [int32], [string], [[]interface{}] and
    [map[string]interface{}].
    A type assertion [v.(T)] on a value of another dynamic type (the nil
    interface included) panics. *)

Inductive any : Type :=
| VNil
| VBool (b : bool)
| VInt (n : Z)
| VInt32 (n : Z)
| VString (s : string)
| VList (l : list any)
| VMap (m : gmap string any).

(** Outcome of a Go computation that may panic. *)
Inductive go (A : Type) : Type :=
| Done (a : A)
| Panic.
Arguments Done {A} a.
Arguments Panic {A}.

#[export] Instance go_ret : MRet go := fun _ a => Done a.
#[export] Instance go_bind : MBind go := fun _ _ f c =>
  match c with
  | Done a => f a
  | Panic => Panic
  end.

(** [for _, v := range l { out = append(out, f v) }] where [f] may panic. *)
Fixpoint range_append {A B : Type} (f : A → go B) (l : list A) : go (list B) :=
  match l with
  | [] => Done []
  | v :: l' => b ← f v; bs ← range_append f l'; Done (b :: bs)
  end.

(** The type assertions of the source. *)
Definition as_int (v : any) : go Z :=
  match v with VInt n => Done n | _ => Panic end.
Definition as_string (v : any) : go string :=
  match v with VString s => Done s | _ => Panic end.
Definition as_list (v : any) : go (list any) :=
  match v with VList l => Done l | _ => Panic end.
Definition as_map (v : any) : go (gmap string any) :=
  match v with VMap m => Done m | _ => Panic end.

(** [m[key]] on a Go map: a missing key reads as the nil interface. *)
Definition index (m : gmap string any) (key : string) : any :=
  default VNil (m !! key).

(** The conversion [int32(n)] of a 64-bit [int]: the low 32 bits, signed. *)
Definition int32 (n : Z) : Z := (n + 2 ^ 31) `mod` 2 ^ 32 - 2 ^ 31.

Definition in_int32 (n : Z) : Prop := - 2 ^ 31 ≤ n < 2 ^ 31.

Module utils.

(** Modelled from the spec: [utils.ExpandInt32Slice] is not under src/. The
    spec has integer sequences copied verbatim, in order; the result is a
    pointer to a [[]int32], never nil, so each [int] element is converted the
    way the source converts [week], and an element that is not an [int]
    fails its type assertion. *)
Definition ExpandInt32Slice (input : list any) : go (option (list Z)) :=
  result ← range_append (fun item => n ← as_int item; Done (int32 n)) input;
  Done (Some result).

(** Modelled from the spec: [utils.FlattenInt32Slice] is not under src/. Each
    populated remote sequence is copied back, in order; the elements are
    [int32] values boxed in [interface{}]. A nil pointer gives the empty
    sequence. *)
Definition FlattenInt32Slice (input : option (list Z)) : list any :=
  match input with
  | Some l => VInt32 <$> l
  | None => []
  end.

(** [utils.Int32]: a pointer to the given [int32]. *)
Definition Int32 (n : Z) : option Z := Some n.

End utils.

(** ** The remote recurrence schedule ([datafactory.RecurrenceSchedule])

    Every field is a pointer; [None] is the nil pointer. *)

Record RecurrenceScheduleOccurrence : Type := {
  Day : string;
  Occurrence : option Z
}.

Record RecurrenceSchedule : Type := {
  Minutes : option (list Z);
  Hours : option (list Z);
  WeekDays : option (list string);
  MonthDays : option (list Z);
  MonthlyOccurrences : option (list RecurrenceScheduleOccurrence)
}.

(** ** The codec *)

(** [if len(l) > 0 { field = &l }]. *)
Definition nonempty_ptr {A : Type} (l : list A) : option (list A) :=
  match l with
  | [] => None
  | _ :: _ => Some l
  end.

(** [if l := v.([]interface{}); len(l) > 0 { field = utils.ExpandInt32Slice(l) }]. *)
Definition expand_ints (v : any) : go (option (list Z)) :=
  l ← as_list v;
  match l with
  | [] => Done None
  | _ :: _ => utils.ExpandInt32Slice l
  end.

Definition expand_occurrence (v : any) : go RecurrenceScheduleOccurrence :=
  value ← as_map v;
  weekday ← as_string (index value "weekday");
  week ← as_int (index value "week");
  Done {| Day := weekday; Occurrence := utils.Int32 (int32 week) |}.

Definition expandDataFactorySchedule (input : list any) : go (option RecurrenceSchedule) :=
  match input with
  | [] => Done None
  | VNil :: _ => Done None
  | first :: _ =>
    value ← as_map first;
    days_of_week ← as_list (index value "days_of_week");
    weekDays ← range_append as_string days_of_week;
    monthly ← as_list (index value "monthly");
    monthlyOccurrences ← range_append expand_occurrence monthly;
    monthDays ← expand_ints (index value "days_of_month");
    minutes ← expand_ints (index value "minutes");
    hours ← expand_ints (index value "hours");
    Done (Some {| Minutes := minutes;
                  Hours := hours;
                  WeekDays := nonempty_ptr weekDays;
                  MonthDays := monthDays;
                  MonthlyOccurrences := nonempty_ptr monthlyOccurrences |})
  end.

(** [if p != nil { value[key] = f p }]. *)
Definition set_if_present {A : Type} (key : string) (f : A → any) (p : option A)
    (value : gmap string any) : gmap string any :=
  match p with
  | Some a => <[key := f a]> value
  | None => value
  end.

Definition flatten_occurrence (v : RecurrenceScheduleOccurrence) : any :=
  VMap (set_if_present "week" VInt32 (Occurrence v)
          (<["weekday" := VString (Day v)]> ∅)).

Definition flattenDataFactorySchedule (schedule : option RecurrenceSchedule) : list any :=
  match schedule with
  | None => []
  | Some schedule =>
    let value : gmap string any := ∅ in
    let value := set_if_present "minutes"
                   (fun l => VList (utils.FlattenInt32Slice (Some l))) (Minutes schedule) value in
    let value := set_if_present "hours"
                   (fun l => VList (utils.FlattenInt32Slice (Some l))) (Hours schedule) value in
    let value := set_if_present "days_of_week"
                   (fun l => VList (VString <$> l)) (WeekDays schedule) value in
    let value := set_if_present "days_of_month"
                   (fun l => VList (utils.FlattenInt32Slice (Some l))) (MonthDays schedule) value in
    let value := set_if_present "monthly"
                   (fun l => VList (flatten_occurrence <$> l)) (MonthlyOccurrences schedule) value in
    [VMap value]
  end.

(** ** Reading a schedule back through the resource schema

    The declarative form never reaches [expandDataFactorySchedule] as
    [flattenDataFactorySchedule] built it: it is stored with [d.Set] and read
    with [d.Get], and the provider SDK (an external library) shapes what is
    read by the schema of the ["schedule"] block (lines 79-151 of the source).
    A nested block in which no attribute of its schema was set does not
    exist for the reader and is read as the nil element; this is the element
    the guard [input[0] == nil] of [expandDataFactorySchedule] is there for.
    In a block that exists every attribute is present: a list attribute that
    was not set reads as the empty list, an [int] attribute holds an [int]
    (zero when it was not set) and a [string] attribute a [string]. *)

(** The five attributes of a schedule block, and the two of a ["monthly"]
    block. *)
Definition schedule_keys : list string :=
  ["days_of_month"; "days_of_week"; "hours"; "minutes"; "monthly"].
Definition monthly_keys : list string := ["weekday"; "week"].

(** Whether one of the attributes [keys] was set in the block [m]. *)
Definition block_exists (keys : list string) (m : gmap string any) : bool :=
  existsb (fun key => bool_decide (is_Some (m !! key))) keys.

Definition read_int (v : any) : any :=
  match v with
  | VInt n | VInt32 n => VInt n
  | _ => VInt 0
  end.

Definition read_string (v : any) : any :=
  match v with
  | VString s => VString s
  | _ => VString ""
  end.

Definition read_list (elem : any → any) (v : any) : any :=
  match v with
  | VList l => VList (elem <$> l)
  | _ => VList []
  end.

Definition read_monthly (v : any) : any :=
  match v with
  | VMap m =>
    if block_exists monthly_keys m
    then VMap (<["weekday" := read_string (index m "weekday")]>
              (<["week" := read_int (index m "week")]> ∅))
    else VNil
  | _ => VNil
  end.

Definition read_schedule_block (v : any) : any :=
  match v with
  | VMap m =>
    if block_exists schedule_keys m
    then VMap (<["days_of_month" := read_list read_int (index m "days_of_month")]>
              (<["days_of_week" := read_list read_string (index m "days_of_week")]>
              (<["hours" := read_list read_int (index m "hours")]>
              (<["minutes" := read_list read_int (index m "minutes")]>
              (<["monthly" := read_list read_monthly (index m "monthly")]> ∅)))))
    else VNil
  | _ => VNil
  end.

Definition schema_read_schedule (l : list any) : list any :=
  read_schedule_block <$> l.

(** One encode/decode pass, and the attribute [key] of the first block of a
    declarative schedule. *)
Definition codec_pass (x : list any) : go (list any) :=
  r ← expandDataFactorySchedule x; Done (flattenDataFactorySchedule r).

Definition block_field (x : list any) (key : string) : option any :=
  match x with
  | VMap m :: _ => m !! key
  | _ => None
  end.

Definition populated (x : list any) (key : string) : bool :=
  match block_field x key with
  | Some (VList (_ :: _)) => true
  | _ => false
  end.

(** A remote schedule in the form [expandDataFactorySchedule] produces: no
    field points to an empty slice, every integer is an [int32], every
    occurrence has its week. *)
Definition occurrence_normal (o : RecurrenceScheduleOccurrence) : Prop :=
  ∃ n, Occurrence o = Some n ∧ in_int32 n.

Definition ints_normal (p : option (list Z)) : Prop :=
  match p with
  | None => True
  | Some l => l ≠ [] ∧ Forall in_int32 l
  end.

Definition ptr_normal {A : Type} (p : option (list A)) : Prop :=
  match p with
  | None => True
  | Some l => l ≠ []
  end.

Record schedule_normal (s : RecurrenceSchedule) : Prop := {
  normal_Minutes : ints_normal (Minutes s);
  normal_Hours : ints_normal (Hours s);
  normal_WeekDays : ptr_normal (WeekDays s);
  normal_MonthDays : ints_normal (MonthDays s);
  normal_MonthlyOccurrences : ptr_normal (MonthlyOccurrences s);
  normal_occurrences :
    ∀ l, MonthlyOccurrences s = Some l → Forall occurrence_normal l
}.

(** A schedule block as the SDK hands it to [expandDataFactorySchedule]: the
    five attributes hold lists of the element type of the schema, a
    ["monthly"] block holds its weekday and its week. *)
Definition monthly_block (occ : string * Z) : any :=
  VMap (<["weekday" := VString occ.1]> (<["week" := VInt occ.2]> ∅)).

Record block_shape (m : gmap string any)
    (days_of_month : list Z) (days_of_week : list string)
    (hours minutes : list Z) (monthly : list (string * Z)) : Prop := {
  shape_days_of_month : m !! "days_of_month" = Some (VList (VInt <$> days_of_month));
  shape_days_of_week : m !! "days_of_week" = Some (VList (VString <$> days_of_week));
  shape_hours : m !! "hours" = Some (VList (VInt <$> hours));
  shape_minutes : m !! "minutes" = Some (VList (VInt <$> minutes));
  shape_monthly : m !! "monthly" = Some (VList (monthly_block <$> monthly))
}.

(** The occurrence [expandDataFactorySchedule] builds from a ["monthly"] block. *)
Definition occurrence_of (occ : string * Z) : RecurrenceScheduleOccurrence :=
  {| Day := occ.1; Occurrence := Some (int32 occ.2) |}.

(** What [flattenDataFactorySchedule] stores under a key of the block: nothing
    for a nil field, the copied list for a populated one. *)
Definition flat_ints (p : option (list Z)) : option any :=
  (fun l => VList (VInt32 <$> l)) <$> p.
Definition flat_strings (p : option (list string)) : option any :=
  (fun l => VList (VString <$> l)) <$> p.
Definition flat_monthly (p : option (list RecurrenceScheduleOccurrence)) : option any :=
  (fun l => VList (flatten_occurrence <$> l)) <$> p.

(** Sample declarative schedules. *)
Definition schedule_block_map (dom : list Z) (dow : list string) (hrs mins : list Z)
    (mon : list (string * Z)) : gmap string any :=
  <["days_of_month" := VList (VInt <$> dom)]>
  (<["days_of_week" := VList (VString <$> dow)]>
  (<["hours" := VList (VInt <$> hrs)]>
  (<["minutes" := VList (VInt <$> mins)]>
  (<["monthly" := VList (monthly_block <$> mon)]> ∅)))).

Definition schedule_block (dom : list Z) (dow : list string) (hrs mins : list Z)
    (mon : list (string * Z)) : any :=
  VMap (schedule_block_map dom dow hrs mins mon).

Definition empty_block : any := schedule_block [] [] [] [] [].
Definition monday_block : any := schedule_block [] ["Monday"] [] [] [].
Definition wide_week_block : any := schedule_block [] [] [] [] [("Monday", 2 ^ 32 + 1)].
Definition full_block : any :=
  schedule_block [1; -1] ["Monday"; "Wednesday"] [0; 24] [30] [("Friday", 2)].

(** The weekday and week the schema reads back from a decoded occurrence. *)
Definition occurrence_pair (o : RecurrenceScheduleOccurrence) : string * Z :=
  (Day o, default 0 (Occurrence o)).

(** The occurrence with the week copied as it is. *)
Definition occurrence_verbatim (occ : string * Z) : RecurrenceScheduleOccurrence :=
  {| Day := occ.1; Occurrence := Some occ.2 |}.

Definition no_schedule_fields : RecurrenceSchedule :=
  {| Minutes := None; Hours := None; WeekDays := None; MonthDays := None;
     MonthlyOccurrences := None |}.

Definition monday_schedule : RecurrenceSchedule :=
  {| Minutes := None; Hours := None; WeekDays := Some ["Monday"]; MonthDays := None;
     MonthlyOccurrences := None |}.

Definition full_schedule : RecurrenceSchedule :=
  {| Minutes := Some [30]; Hours := Some [0; 24];
     WeekDays := Some ["Monday"; "Wednesday"]; MonthDays := Some [1; -1];
     MonthlyOccurrences := Some [{| Day := "Friday"; Occurrence := Some 2 |}] |}.

(** ** Identifiers (package [parse])

    The package [parse] is not under src/: the two identifier types are
    records of their components, their parsers and formatters are parameters
    of the development. *)

Module DataFactoryId.
Record t : Type := {
  SubscriptionId : string;
  ResourceGroup : string;
  FactoryName : string
}.
End DataFactoryId.

Module TriggerId.
Record t : Type := {
  SubscriptionId : string;
  ResourceGroup : string;
  FactoryName : string;
  Name : string
}.
End TriggerId.

Definition NewDataFactoryID (subscriptionId resourceGroup factoryName : string) :
    DataFactoryId.t :=
  {| DataFactoryId.SubscriptionId := subscriptionId;
     DataFactoryId.ResourceGroup := resourceGroup;
     DataFactoryId.FactoryName := factoryName |}.

Definition NewTriggerID (subscriptionId resourceGroup factoryName name : string) :
    TriggerId.t :=
  {| TriggerId.SubscriptionId := subscriptionId;
     TriggerId.ResourceGroup := resourceGroup;
     TriggerId.FactoryName := factoryName;
     TriggerId.Name := name |}.

(** The result of a parser, a pointer and an error: the identifier, or the
    error. *)
Inductive parsed (A : Type) : Type :=
| Parsed (a : A)
| ParseError (msg : string).
Arguments Parsed {A} a.
Arguments ParseError {A} msg.

Class Parse : Type := {
  DataFactoryID : string → parsed DataFactoryId.t;
  TriggerID : string → parsed TriggerId.t;
  DataFactoryId_ID : DataFactoryId.t → string;
  TriggerId_ID : TriggerId.t → string
}.

(** ** The remote trigger (package [datafactory] of the Azure SDK) *)

(** An instant, in seconds; [time.Parse] and [Format] are parameters. *)
Definition Time : Type := Z.

Record ScheduleTriggerRecurrence : Type := {
  Frequency : string;
  Interval : option Z;
  StartTime : option Time;
  EndTime : option Time;
  Schedule : option RecurrenceSchedule
}.

Record ScheduleTriggerTypeProperties : Type := {
  Recurrence : option ScheduleTriggerRecurrence
}.

Record PipelineReference : Type := {
  ReferenceName : option string;
  ReferenceType : option string
}.

Record TriggerPipelineReference : Type := {
  PipelineReference_ : option PipelineReference;
  Parameters : gmap string any
}.

(** [ScheduleTrigger] embeds a pointer to its type properties. *)
Record ScheduleTrigger : Type := {
  Pipelines : option (list TriggerPipelineReference);
  TypeProperties : option ScheduleTriggerTypeProperties;
  Description : option string;
  RuntimeState : string;
  Annotations : option (list any)
}.

Definition TriggerRuntimeStateStarted : string := "Started".
Definition TypeBasicTriggerTypeScheduleTrigger : string := "ScheduleTrigger".

(** The triggers of the one endpoint: a schedule trigger, or one of the other
    kinds (blob events, tumbling window, ...). *)
Inductive BasicTrigger : Type :=
| IsScheduleTrigger (t : ScheduleTrigger)
| IsOtherTrigger (kind : string).

Definition AsScheduleTrigger (t : BasicTrigger) : option ScheduleTrigger * bool :=
  match t with
  | IsScheduleTrigger st => (Some st, true)
  | IsOtherTrigger _ => (None, false)
  end.

(** [Response] is the HTTP status of the response, when there was one. *)
Record TriggerResource : Type := {
  Response : option Z;
  Properties : option BasicTrigger;
  Name : option string;
  Type_ : option string;
  ID : option string
}.

(** Modelled from the spec: [utils.ResponseWasNotFound] is not under src/. A
    [get] answers with the object or with NotFound, the HTTP status 404. *)
Definition ResponseWasNotFound (resp : option Z) : bool :=
  match resp with
  | Some code => bool_decide (code = 404)
  | None => false
  end.

(** The handle of a long-running operation. *)
Definition Future : Type := string.

(** The triggers client over the states [World] of the remote system. Each
    operation returns what the Go method returns ([None] is the nil error)
    and the next state of the remote system. A wait that runs into the
    deadline of the context returns an error like any other. *)
Class TriggersClient (World : Type) : Type := {
  Get : string → string → string → World → (TriggerResource * option string) * World;
  CreateOrUpdate :
    string → string → string → TriggerResource → World → option string * World;
  Start : string → string → string → World → (Future * option string) * World;
  Stop : string → string → string → World → (Future * option string) * World;
  Delete : string → string → string → World → option string * World;
  WaitForCompletionRef : Future → World → option string * World
}.

(** The calls a resource function issues, in order. *)
Inductive call : Type :=
| CallGet (resourceGroup factoryName name : string)
| CallCreateOrUpdate (resourceGroup factoryName name : string) (trigger : TriggerResource)
| CallStart (resourceGroup factoryName name : string)
| CallStop (resourceGroup factoryName name : string)
| CallDelete (resourceGroup factoryName name : string)
| CallWait (future : Future).

Definition is_start (c : call) : bool :=
  match c with CallStart _ _ _ => true | _ => false end.
Definition is_delete (c : call) : bool :=
  match c with CallDelete _ _ _ => true | _ => false end.
Definition is_create_or_update (c : call) : bool :=
  match c with CallCreateOrUpdate _ _ _ _ => true | _ => false end.

(** ** The other collaborators *)

Class Clock : Type := {
  time_Parse : string → Time;
  time_Format : Time → string;
  time_Now : Time
}.

(** The subscription of the account, and [flattenDataFactoryAnnotations],
    which is defined in another file of the package, not under src/. *)
Class Meta : Type := {
  subscriptionId : string;
  flattenDataFactoryAnnotations : option (list any) → list string
}.

(** ** The resource data ([pluginsdk.ResourceData])

    The identifier, the new-resource mark and the attributes by name. [d.Get]
    on an attribute that is not set gives the zero value of its type; [d.Set]
    with a nil pointer clears the attribute. *)

Record ResourceData : Type := {
  Id : string;
  IsNewResource : bool;
  attributes : gmap string any
}.

Definition Get_string (d : ResourceData) (key : string) : string :=
  match attributes d !! key with Some (VString s) => s | _ => "" end.
Definition Get_int (d : ResourceData) (key : string) : Z :=
  match attributes d !! key with Some (VInt n) => n | _ => 0 end.
Definition Get_bool (d : ResourceData) (key : string) : bool :=
  match attributes d !! key with Some (VBool b) => b | _ => false end.
Definition Get_list (d : ResourceData) (key : string) : list any :=
  match attributes d !! key with Some (VList l) => l | _ => [] end.
Definition Get_map (d : ResourceData) (key : string) : gmap string any :=
  match attributes d !! key with Some (VMap m) => m | _ => ∅ end.

(** [d.GetOk]: the value, and whether it is set to something other than the
    zero value. *)
Definition GetOk_string (d : ResourceData) (key : string) : string * bool :=
  (Get_string d key, bool_decide (Get_string d key ≠ "")).
Definition GetOk_list (d : ResourceData) (key : string) : list any * bool :=
  (Get_list d key, match Get_list d key with [] => false | _ :: _ => true end).

Definition Set_attribute (key : string) (v : option any) (d : ResourceData) : ResourceData :=
  {| Id := Id d;
     IsNewResource := IsNewResource d;
     attributes := match v with
                   | Some v => <[key := v]> (attributes d)
                   | None => delete key (attributes d)
                   end |}.

Definition SetId (id : string) (d : ResourceData) : ResourceData :=
  {| Id := id; IsNewResource := IsNewResource d; attributes := attributes d |}.

(** ** Errors of the resource functions *)

Inductive error : Type :=
| IdentifierError (msg : string)
| CheckingPresence (id : TriggerId.t) (cause : string)
| ImportAsExistsError (resourceName existingId : string)
| Creating (id : TriggerId.t) (cause : string)
| Starting (id : TriggerId.t) (cause : string)
| WaitingOnStart (id : TriggerId.t) (cause : string)
| Retrieving (id : TriggerId.t) (cause : string)
| Classifying (id : TriggerId.t) (expected received : string)
| Stopping (id : TriggerId.t) (cause : string)
| WaitingToStop (id : TriggerId.t) (cause : string)
| Deleting (id : TriggerId.t) (cause : string).

(** How a resource function ends: it returns (a nil error, for the resource
    functions themselves), returns an error, or panics. *)
Inductive result (A : Type) : Type :=
| Return (a : A)
| Fail (e : error)
| Crash.
Arguments Return {A} a.
Arguments Fail {A} e.
Arguments Crash {A}.

(** ** The resource functions *)

Section resource.
Context {World : Type} {client : TriggersClient World}.
Context {parse : Parse} {clock : Clock} {meta : Meta}.

(** What a resource function works on: the resource data [d], the remote
    system behind the client, and the calls issued so far. *)
Record state : Type := {
  data : ResourceData;
  remote : World;
  calls : list call
}.

Definition M (A : Type) : Type := state → result A * state.

Definition ret {A : Type} (a : A) : M A := fun st => (Return a, st).

Definition bind {A B : Type} (c : M A) (f : A → M B) : M B := fun st =>
  match c st with
  | (Return a, st') => f a st'
  | (Fail e, st') => (Fail e, st')
  | (Crash, st') => (Crash, st')
  end.

#[export] Instance M_ret : MRet M := @ret.
#[export] Instance M_bind : MBind M := fun A B f c => bind c f.

(** [return err] with a non-nil error. *)
Definition fail {A : Type} (e : error) : M A := fun st => (Fail e, st).

Definition panic {A : Type} : M A := fun st => (Crash, st).

Definition lift_go {A : Type} (c : go A) : M A :=
  match c with
  | Done a => ret a
  | Panic => panic
  end.

(** [*p], and a field or a method of [p]: a nil [p] panics. *)
Definition deref {A : Type} (p : option A) : M A :=
  match p with
  | Some a => ret a
  | None => panic
  end.

Definition get_data : M ResourceData := fun st => (Return (data st), st).

Definition set_data (f : ResourceData → ResourceData) : M unit := fun st =>
  (Return tt, {| data := f (data st); remote := remote st; calls := calls st |}).

(** A call of the client: the remote system moves on and the call is noted. *)
Definition invoke {A : Type} (c : call) (op : World → A * World) : M A := fun st =>
  let '(a, w) := op (remote st) in
  (Return a, {| data := data st; remote := w; calls := calls st ++ [c] |}).

(** [if err != nil { return wrap(err) }]. *)
Definition check (err : option string) (wrap : string → error) : M unit :=
  match err with
  | Some cause => fail (wrap cause)
  | None => ret tt
  end.

(** Lines 234-245: the factory identifier, from [data_factory_name] first and
    then from [data_factory_id]. The pointer stays nil when both are empty;
    the error of the parser is returned as it is. *)
Definition select_data_factory_id (d : ResourceData) : parsed (option DataFactoryId.t) :=
  let dataFactoryId :=
    if bool_decide (Get_string d "data_factory_name" ≠ "")
    then Some (NewDataFactoryID subscriptionId (Get_string d "resource_group_name")
                 (Get_string d "data_factory_name"))
    else None in
  let v := Get_string d "data_factory_id" in
  if bool_decide (v ≠ "")
  then match DataFactoryID v with
       | Parsed id => Parsed (Some id)
       | ParseError msg => ParseError msg
       end
  else Parsed dataFactoryId.

Definition from_parser {A : Type} (p : parsed A) : M A :=
  match p with
  | Parsed a => ret a
  | ParseError msg => fail (IdentifierError msg)
  end.

(** Lines 261-305: the trigger sent to the remote system. *)
Definition trigger_of (d : ResourceData) (schedule : option RecurrenceSchedule) :
    TriggerResource :=
  let startTime :=
    let '(v, ok) := GetOk_string d "start_time" in
    if ok then time_Parse v else time_Parse (time_Format time_Now) in
  let endTime :=
    let '(v, ok) := GetOk_string d "end_time" in
    if ok then Some (time_Parse v) else None in
  let props :=
    {| Recurrence := Some
         {| Frequency := Get_string d "frequency";
            Interval := utils.Int32 (int32 (Get_int d "interval"));
            StartTime := Some startTime;
            EndTime := endTime;
            Schedule := schedule |} |} in
  let reference :=
    {| ReferenceName := Some (Get_string d "pipeline_name");
       ReferenceType := Some "PipelineReference" |} in
  let annotations :=
    let '(v, ok) := GetOk_list d "annotations" in
    if ok then Some v else None in
  let scheduleProps :=
    {| Pipelines := Some [ {| PipelineReference_ := Some reference;
                              Parameters := Get_map d "pipeline_parameters" |} ];
       TypeProperties := Some props;
       Description := Some (Get_string d "description");
       RuntimeState := "";
       Annotations := annotations |} in
  {| Response := None;
     Properties := Some (IsScheduleTrigger scheduleProps);
     Name := None;
     Type_ := None;
     ID := None |}.

(** Lines 362-375: the [d.Set] calls for the recurrence, one after the
    other. *)
Definition set_recurrence (recurrence : option ScheduleTriggerRecurrence)
    (d : ResourceData) : ResourceData :=
  match recurrence with
  | Some recurrence =>
    let d := match StartTime recurrence with
             | Some v => Set_attribute "start_time" (Some (VString (time_Format v))) d
             | None => d
             end in
    let d := match EndTime recurrence with
             | Some v => Set_attribute "end_time" (Some (VString (time_Format v))) d
             | None => d
             end in
    let d := Set_attribute "frequency" (Some (VString (Frequency recurrence))) d in
    let d := Set_attribute "interval" (VInt <$> Interval recurrence) d in
    match Schedule recurrence with
    | Some schedule =>
      Set_attribute "schedule"
        (Some (VList (schema_read_schedule (flattenDataFactorySchedule (Some schedule))))) d
    | None => d
    end
  | None => d
  end.

(** Lines 377-385. *)
Definition set_pipelines (pipelines : option (list TriggerPipelineReference))
    (d : ResourceData) : ResourceData :=
  match pipelines with
  | Some (first :: _) =>
    let d := match PipelineReference_ first with
             | Some reference =>
               Set_attribute "pipeline_name" (VString <$> ReferenceName reference) d
             | None => d
             end in
    Set_attribute "pipeline_parameters" (Some (VMap (Parameters first))) d
  | _ => d
  end.

(** Lines 359-393. The recurrence is a field of the embedded pointer to the
    type properties. Setting a list of strings does not fail in this model of
    the resource data, so the error return of line 389 has no counterpart. *)
Definition read_schedule_trigger (scheduleTriggerProps : option ScheduleTrigger) : M unit :=
  match scheduleTriggerProps with
  | Some props =>
    set_data (Set_attribute "activated"
      (Some (VBool (bool_decide (RuntimeState props = TriggerRuntimeStateStarted))))) ;;
    typeProperties ← deref (TypeProperties props);
    set_data (set_recurrence (Recurrence typeProperties)) ;;
    set_data (set_pipelines (Pipelines props)) ;;
    set_data (Set_attribute "annotations"
      (Some (VList (VString <$> flattenDataFactoryAnnotations (Annotations props))))) ;;
    set_data (Set_attribute "description" (VString <$> Description props))
  | None => ret tt
  end.

(** Lines 348-352: the attributes set before the kind of the trigger is
    looked at. *)
Definition set_identity (id : TriggerId.t) (resp : TriggerResource)
    (d : ResourceData) : ResourceData :=
  let dataFactoryId :=
    NewDataFactoryID (TriggerId.SubscriptionId id) (TriggerId.ResourceGroup id)
      (TriggerId.FactoryName id) in
  let d := Set_attribute "name" (VString <$> Name resp) d in
  let d := Set_attribute "resource_group_name"
             (Some (VString (TriggerId.ResourceGroup id))) d in
  let d := Set_attribute "data_factory_name"
             (Some (VString (TriggerId.FactoryName id))) d in
  Set_attribute "data_factory_id" (Some (VString (DataFactoryId_ID dataFactoryId))) d.

(** Lines 339-395: what the read does with the answer of [Get]. *)
Definition read_response (id : TriggerId.t) (resp : TriggerResource)
    (err : option string) : M unit :=
  match err with
  | Some cause =>
    if ResponseWasNotFound (Response resp)
    then set_data (SetId "")
    else fail (Retrieving id cause)
  | None =>
    set_data (set_identity id resp) ;;
    properties ← deref (Properties resp);
    let '(scheduleTriggerProps, ok) := AsScheduleTrigger properties in
    if negb ok
    then received ← deref (Type_ resp);
         fail (Classifying id TypeBasicTriggerTypeScheduleTrigger received)
    else read_schedule_trigger scheduleTriggerProps
  end.

Definition resourceDataFactoryTriggerScheduleRead : M unit :=
  d ← get_data;
  id ← from_parser (TriggerID (Id d));
  '(resp, err) ← invoke
      (CallGet (TriggerId.ResourceGroup id) (TriggerId.FactoryName id) (TriggerId.Name id))
      (Get (TriggerId.ResourceGroup id) (TriggerId.FactoryName id) (TriggerId.Name id));
  read_response id resp err.

(** Lines 248-259. *)
Definition check_not_existing (id : TriggerId.t) : M unit :=
  '(existing, err) ← invoke
      (CallGet (TriggerId.ResourceGroup id) (TriggerId.FactoryName id) (TriggerId.Name id))
      (Get (TriggerId.ResourceGroup id) (TriggerId.FactoryName id) (TriggerId.Name id));
  match err with
  | Some cause =>
    if negb (ResponseWasNotFound (Response existing))
    then fail (CheckingPresence id cause)
    else ret tt
  | None => ret tt
  end ;;
  match ID existing with
  | Some existingId =>
    if bool_decide (existingId ≠ "")
    then fail (ImportAsExistsError "azurerm_data_factory_trigger_schedule" existingId)
    else ret tt
  | None => ret tt
  end.

(** Lines 311-319. *)
Definition start_if_activated (d : ResourceData) (id : TriggerId.t) : M unit :=
  if Get_bool d "activated"
  then
    '(future, err) ← invoke
        (CallStart (TriggerId.ResourceGroup id) (TriggerId.FactoryName id) (TriggerId.Name id))
        (Start (TriggerId.ResourceGroup id) (TriggerId.FactoryName id) (TriggerId.Name id));
    check err (Starting id) ;;
    err ← invoke (CallWait future) (WaitForCompletionRef future);
    check err (WaitingOnStart id)
  else ret tt.

(** Lines 248-323: the cycle once the identifier [id] is known. *)
Definition create_or_update_trigger (d : ResourceData) (id : TriggerId.t) : M unit :=
  (if IsNewResource d then check_not_existing id else ret tt) ;;
  schedule ← lift_go (expandDataFactorySchedule (Get_list d "schedule"));
  let trigger := trigger_of d schedule in
  err ← invoke
      (CallCreateOrUpdate (TriggerId.ResourceGroup id) (TriggerId.FactoryName id)
         (TriggerId.Name id) trigger)
      (CreateOrUpdate (TriggerId.ResourceGroup id) (TriggerId.FactoryName id)
         (TriggerId.Name id) trigger);
  check err (Creating id) ;;
  start_if_activated d id ;;
  set_data (SetId (TriggerId_ID id)) ;;
  resourceDataFactoryTriggerScheduleRead.

Definition resourceDataFactoryTriggerScheduleCreateUpdate : M unit :=
  d ← get_data;
  dataFactoryId ← from_parser (select_data_factory_id d);
  factory ← deref dataFactoryId;
  let id := NewTriggerID subscriptionId (DataFactoryId.ResourceGroup factory)
              (DataFactoryId.FactoryName factory) (Get_string d "name") in
  create_or_update_trigger d id.

Definition resourceDataFactoryTriggerScheduleDelete : M unit :=
  d ← get_data;
  id ← from_parser (TriggerID (Id d));
  '(future, err) ← invoke
      (CallStop (TriggerId.ResourceGroup id) (TriggerId.FactoryName id) (TriggerId.Name id))
      (Stop (TriggerId.ResourceGroup id) (TriggerId.FactoryName id) (TriggerId.Name id));
  check err (Stopping id) ;;
  err ← invoke (CallWait future) (WaitForCompletionRef future);
  check err (WaitingToStop id) ;;
  err ← invoke
      (CallDelete (TriggerId.ResourceGroup id) (TriggerId.FactoryName id) (TriggerId.Name id))
      (Delete (TriggerId.ResourceGroup id) (TriggerId.FactoryName id) (TriggerId.Name id));
  check err (Deleting id).

End resource.

Arguments state World : clear implicits.
Arguments M World A : clear implicits.

(** The remote system is not part of the repository. What the spec says of
    it, as far as the activation of a trigger relies on it: an object created
    where [get] found none is found afterwards and is not started ("a newly
    created object defaults to Stopped"), and once a [start] has completed the
    object is found started. *)
Class RemoteLaws {World : Type} (client : TriggersClient World) : Prop := {
  created_is_not_started :
    ∀ rg fn n w existing err0 w1 trigger w2 resp err w3,
      Get rg fn n w = ((existing, err0), w1) →
      ID existing = None ∨ ID existing = Some "" →
      CreateOrUpdate rg fn n trigger w1 = (None, w2) →
      Get rg fn n w2 = ((resp, err), w3) →
      err = None
      ∧ ∀ t, Properties resp = Some (IsScheduleTrigger t) →
             RuntimeState t ≠ TriggerRuntimeStateStarted;
  started_after_start :
    ∀ rg fn n w future w1 w2 resp err w3,
      Start rg fn n w = ((future, None), w1) →
      WaitForCompletionRef future w1 = (None, w2) →
      Get rg fn n w2 = ((resp, err), w3) →
      err = None
      ∧ ∀ t, Properties resp = Some (IsScheduleTrigger t) →
             RuntimeState t = TriggerRuntimeStateStarted
}.

(** ** A sample of the collaborators

    Identifiers of the usual form, a clock that knows two instants, and a
    remote system that keeps the triggers by resource group, factory and name
    and lets a given number of waits complete before the deadline. *)

Module Sample.

(** The segments of a path between its slashes. *)
Fixpoint segments (s : string) : list string :=
  match s with
  | EmptyString => [""]
  | String c s' =>
    if Ascii.eqb c (Ascii.ascii_of_nat 47)
    then "" :: segments s'
    else match segments s' with
         | seg :: rest => String c seg :: rest
         | [] => [String c ""]
         end
  end.

Definition factory_path (id : DataFactoryId.t) : string :=
  "/subscriptions/" +:+ DataFactoryId.SubscriptionId id
  +:+ "/resourceGroups/" +:+ DataFactoryId.ResourceGroup id
  +:+ "/providers/Microsoft.DataFactory/factories/" +:+ DataFactoryId.FactoryName id.

Definition trigger_path (id : TriggerId.t) : string :=
  "/subscriptions/" +:+ TriggerId.SubscriptionId id
  +:+ "/resourceGroups/" +:+ TriggerId.ResourceGroup id
  +:+ "/providers/Microsoft.DataFactory/factories/" +:+ TriggerId.FactoryName id
  +:+ "/triggers/" +:+ TriggerId.Name id.

Definition parse_factory (s : string) : parsed DataFactoryId.t :=
  match segments s with
  | [e; k1; sub; k2; rg; k3; ns; k4; fn] =>
    if bool_decide (e = "" ∧ k1 = "subscriptions" ∧ k2 = "resourceGroups"
                    ∧ k3 = "providers" ∧ ns = "Microsoft.DataFactory"
                    ∧ k4 = "factories" ∧ sub ≠ "" ∧ rg ≠ "" ∧ fn ≠ "")
    then Parsed (NewDataFactoryID sub rg fn)
    else ParseError ("parsing " +:+ s)
  | _ => ParseError ("parsing " +:+ s)
  end.

Definition parse_trigger (s : string) : parsed TriggerId.t :=
  match segments s with
  | [e; k1; sub; k2; rg; k3; ns; k4; fn; k5; n] =>
    if bool_decide (e = "" ∧ k1 = "subscriptions" ∧ k2 = "resourceGroups"
                    ∧ k3 = "providers" ∧ ns = "Microsoft.DataFactory"
                    ∧ k4 = "factories" ∧ k5 = "triggers"
                    ∧ sub ≠ "" ∧ rg ≠ "" ∧ fn ≠ "" ∧ n ≠ "")
    then Parsed (NewTriggerID sub rg fn n)
    else ParseError ("parsing " +:+ s)
  | _ => ParseError ("parsing " +:+ s)
  end.

#[export] Instance parse : Parse := {|
  DataFactoryID := parse_factory;
  TriggerID := parse_trigger;
  DataFactoryId_ID := factory_path;
  TriggerId_ID := trigger_path
|}.

Definition new_year : string := "2021-01-01T00:00:00Z".
Definition first_of_june : string := "2021-06-01T00:00:00Z".

#[export] Instance clock : Clock := {|
  time_Parse s :=
    if bool_decide (s = new_year) then 1609459200
    else if bool_decide (s = first_of_june) then 1622505600
    else 0;
  time_Format t :=
    if bool_decide (t = 1609459200) then new_year
    else if bool_decide (t = 1622505600) then first_of_june
    else "0001-01-01T00:00:00Z";
  time_Now := 1609459200
|}.

Definition strings_of (l : list any) : list string :=
  omap (fun v => match v with VString s => Some s | _ => None end) l.

#[export] Instance meta : Meta := {|
  subscriptionId := "sub";
  flattenDataFactoryAnnotations input := strings_of (default [] input)
|}.

Record World : Type := {
  triggers : gmap (string * string * string) BasicTrigger;
  waits_left : nat
}.

Definition with_triggers (w : World) (ts : gmap (string * string * string) BasicTrigger) :
    World :=
  {| triggers := ts; waits_left := waits_left w |}.

Definition with_state (state : string) (t : ScheduleTrigger) : ScheduleTrigger :=
  {| Pipelines := Pipelines t;
     TypeProperties := TypeProperties t;
     Description := Description t;
     RuntimeState := state;
     Annotations := Annotations t |}.

Definition resource_type : string := "Microsoft.DataFactory/factories/triggers".

Definition found (rg fn n : string) (t : BasicTrigger) : TriggerResource :=
  {| Response := Some 200;
     Properties := Some t;
     Name := Some n;
     Type_ := Some resource_type;
     ID := Some (trigger_path (NewTriggerID subscriptionId rg fn n)) |}.

Definition not_found : TriggerResource :=
  {| Response := Some 404; Properties := None; Name := None; Type_ := None; ID := None |}.

Definition get (rg fn n : string) (w : World) : (TriggerResource * option string) * World :=
  match triggers w !! (rg, fn, n) with
  | Some t => ((found rg fn n t, None), w)
  | None => ((not_found, Some "trigger not found"), w)
  end.

(** A new schedule trigger is stopped; an update keeps the runtime state. *)
Definition create_or_update (rg fn n : string) (trigger : TriggerResource) (w : World) :
    option string * World :=
  match Properties trigger with
  | None => (Some "properties are required", w)
  | Some (IsOtherTrigger kind) =>
    (None, with_triggers w (<[(rg, fn, n) := IsOtherTrigger kind]> (triggers w)))
  | Some (IsScheduleTrigger t) =>
    let state :=
      match triggers w !! (rg, fn, n) with
      | Some (IsScheduleTrigger old) => RuntimeState old
      | _ => "Stopped"
      end in
    (None, with_triggers w
             (<[(rg, fn, n) := IsScheduleTrigger (with_state state t)]> (triggers w)))
  end.

Definition set_runtime_state (state : string) (rg fn n : string) (w : World) :
    (Future * option string) * World :=
  match triggers w !! (rg, fn, n) with
  | Some (IsScheduleTrigger t) =>
    ((n +:+ "/" +:+ state, None),
     with_triggers w (<[(rg, fn, n) := IsScheduleTrigger (with_state state t)]> (triggers w)))
  | Some (IsOtherTrigger kind) => ((n +:+ "/" +:+ state, None), w)
  | None => (("", Some "trigger not found"), w)
  end.

Definition remove (rg fn n : string) (w : World) : option string * World :=
  (None, with_triggers w (delete (rg, fn, n) (triggers w))).

Definition wait (future : Future) (w : World) : option string * World :=
  match waits_left w with
  | O => (Some "context deadline exceeded", w)
  | S k => (None, {| triggers := triggers w; waits_left := k |})
  end.

#[export] Instance client : TriggersClient World := {|
  Get := get;
  CreateOrUpdate := create_or_update;
  Start := set_runtime_state "Started";
  Stop := set_runtime_state "Stopped";
  Delete := remove;
  WaitForCompletionRef := wait
|}.

(** Sample resource data and remote states. *)
Definition trigger_id : string :=
  "/subscriptions/sub/resourceGroups/rg/providers/Microsoft.DataFactory/factories/df/triggers/t1".

Definition desired (activated : bool) : ResourceData :=
  {| Id := "";
     IsNewResource := true;
     attributes :=
       <["name" := VString "t1"]>
       (<["resource_group_name" := VString "rg"]>
       (<["data_factory_name" := VString "df"]>
       (<["frequency" := VString "Week"]>
       (<["interval" := VInt 2]>
       (<["schedule" := VList [monday_block]]>
       (<["activated" := VBool activated]>
       (<["pipeline_name" := VString "p1"]> ∅))))))) |}.

(** Resource data with an identifier and an end time from an earlier cycle. *)
Definition known : ResourceData :=
  {| Id := trigger_id;
     IsNewResource := false;
     attributes :=
       <["end_time" := VString first_of_june]>
       (<["schedule" := VList [monday_block]]> ∅) |}.

Definition no_triggers (waits : nat) : World :=
  {| triggers := ∅; waits_left := waits |}.

(** A stopped schedule trigger without schedule and without end time. *)
Definition plain_recurrence : ScheduleTriggerRecurrence :=
  {| Frequency := "Day"; Interval := Some 1; StartTime := Some 1609459200;
     EndTime := None; Schedule := None |}.

Definition plain_trigger : ScheduleTrigger :=
  {| Pipelines := None;
     TypeProperties := Some {| Recurrence := Some plain_recurrence |};
     Description := None;
     RuntimeState := "Stopped";
     Annotations := None |}.

(** Resource data that name the factory in both ways. *)
Definition other_factory : string :=
  "/subscriptions/sub2/resourceGroups/rg2/providers/Microsoft.DataFactory/factories/df2".

Definition both_selectors : ResourceData :=
  Set_attribute "data_factory_id" (Some (VString other_factory)) (desired true).

Definition one_trigger (t : BasicTrigger) (waits : nat) : World :=
  {| triggers := {[ ("rg", "df", "t1") := t ]}; waits_left := waits |}.

Definition start_state (d : ResourceData) (w : World) : state World :=
  {| data := d; remote := w; calls := [] |}.

End Sample.

(** ** The shape of a run *)

Section run_shapes.
Context {World : Type} {client : TriggersClient World}.
Context {parse : Parse} {clock : Clock} {meta : Meta}.

(** The runs of the delete function, case by case. *)
Inductive delete_outcome (st : state World) :
    result unit → state World → list call → Prop :=
| delete_no_identifier msg :
    TriggerID (Id (data st)) = ParseError msg →
    delete_outcome st (Fail (IdentifierError msg)) st []
| delete_stop_failed id future cause w1 :
    TriggerID (Id (data st)) = Parsed id →
    Stop (TriggerId.ResourceGroup id) (TriggerId.FactoryName id) (TriggerId.Name id)
      (remote st) = ((future, Some cause), w1) →
    delete_outcome st (Fail (Stopping id cause))
      {| data := data st; remote := w1;
         calls := calls st ++ [CallStop (TriggerId.ResourceGroup id)
                                 (TriggerId.FactoryName id) (TriggerId.Name id)] |}
      [CallStop (TriggerId.ResourceGroup id) (TriggerId.FactoryName id) (TriggerId.Name id)]
| delete_wait_failed id future w1 cause w2 :
    TriggerID (Id (data st)) = Parsed id →
    Stop (TriggerId.ResourceGroup id) (TriggerId.FactoryName id) (TriggerId.Name id)
      (remote st) = ((future, None), w1) →
    WaitForCompletionRef future w1 = (Some cause, w2) →
    delete_outcome st (Fail (WaitingToStop id cause))
      {| data := data st; remote := w2;
         calls := (calls st ++ [CallStop (TriggerId.ResourceGroup id)
                                  (TriggerId.FactoryName id) (TriggerId.Name id)])
                  ++ [CallWait future] |}
      [CallStop (TriggerId.ResourceGroup id) (TriggerId.FactoryName id) (TriggerId.Name id);
       CallWait future]
| delete_issued id future w1 w2 err w3 :
    TriggerID (Id (data st)) = Parsed id →
    Stop (TriggerId.ResourceGroup id) (TriggerId.FactoryName id) (TriggerId.Name id)
      (remote st) = ((future, None), w1) →
    WaitForCompletionRef future w1 = (None, w2) →
    Delete (TriggerId.ResourceGroup id) (TriggerId.FactoryName id) (TriggerId.Name id) w2
      = (err, w3) →
    delete_outcome st
      (match err with Some cause => Fail (Deleting id cause) | None => Return tt end)
      {| data := data st; remote := w3;
         calls := ((calls st ++ [CallStop (TriggerId.ResourceGroup id)
                                   (TriggerId.FactoryName id) (TriggerId.Name id)])
                   ++ [CallWait future])
                  ++ [CallDelete (TriggerId.ResourceGroup id)
                        (TriggerId.FactoryName id) (TriggerId.Name id)] |}
      [CallStop (TriggerId.ResourceGroup id) (TriggerId.FactoryName id) (TriggerId.Name id);
       CallWait future;
       CallDelete (TriggerId.ResourceGroup id) (TriggerId.FactoryName id) (TriggerId.Name id)].

End run_shapes.

(** The attributes the read sets before the kind of the trigger is looked at,
    those of the recurrence and those of the pipeline. *)
Definition identity_keys : list string :=
  ["name"; "resource_group_name"; "data_factory_name"; "data_factory_id"].
Definition recurrence_keys : list string :=
  ["start_time"; "end_time"; "frequency"; "interval"; "schedule"].
Definition pipeline_keys : list string := ["pipeline_name"; "pipeline_parameters"].


(** ** What the encoder asks of a block

    The type assertions of [expandDataFactorySchedule], as a check of the
    block: the weekdays are a list of strings, the monthly occurrences a list
    of maps with a string weekday and an int week, the three other attributes
    lists of ints. *)

Definition is_int (v : any) : bool :=
  match v with VInt _ => true | _ => false end.
Definition is_string (v : any) : bool :=
  match v with VString _ => true | _ => false end.

Definition all_of (elem : any → bool) (v : any) : bool :=
  match v with
  | VList l => forallb elem l
  | _ => false
  end.

Definition occurrence_ok (v : any) : bool :=
  match v with
  | VMap value => is_string (index value "weekday") && is_int (index value "week")
  | _ => false
  end.

Definition block_ok (m : gmap string any) : bool :=
  all_of is_string (index m "days_of_week")
  && all_of occurrence_ok (index m "monthly")
  && all_of is_int (index m "days_of_month")
  && all_of is_int (index m "minutes")
  && all_of is_int (index m "hours").

Definition defined {A : Type} (c : go A) : bool :=
  match c with Done _ => true | Panic => false end.

(** ** What a run leaves as it was *)

Definition is_stop (c : call) : bool :=
  match c with CallStop _ _ _ => true | _ => false end.
Definition is_get (c : call) : bool :=
  match c with CallGet _ _ _ => true | _ => false end.

(** The errors of a cycle that come before its read. *)
Definition before_read (e : error) : bool :=
  match e with
  | CheckingPresence _ _ | ImportAsExistsError _ _ | Creating _ _
  | Starting _ _ | WaitingOnStart _ _ => true
  | _ => false
  end.

(** The errors of the read. *)
Definition of_read (e : error) : bool :=
  match e with
  | IdentifierError _ | Retrieving _ _ | Classifying _ _ _ => true
  | _ => false
  end.

Section frames.
Context {World : Type}.

(** Every run of [c] relates the state before to the state after by [R]. *)
Definition keeps {A : Type} (R : state World → state World → Prop) (c : M World A) : Prop :=
  ∀ st r st', c st = (r, st') → R st st'.

(** Every error [c] returns satisfies [P]. *)
Definition fails_with {A : Type} (P : error → Prop) (c : M World A) : Prop :=
  ∀ st e st', c st = (Fail e, st') → P e.

(** No call, and the remote system as it was. *)
Definition quiet (st st' : state World) : Prop :=
  calls st' = calls st ∧ remote st' = remote st.

Definition same_data (st st' : state World) : Prop :=
  data st' = data st.

(** The calls issued all satisfy [P]. *)
Definition emitting (P : call → Prop) (st st' : state World) : Prop :=
  ∃ new, calls st' = calls st ++ new ∧ Forall P new.

(** The identifier is as it was, or cleared. *)
Definition same_or_no_id (st st' : state World) : Prop :=
  Id (data st') = Id (data st) ∨ Id (data st') = "".

End frames.

Section cycle_parts.
Context {World : Type} {client : TriggersClient World}.
Context {parse : Parse} {clock : Clock} {meta : Meta}.

(** Lines 248-319: the cycle once the identifier is known, up to the point
    where the identifier is recorded in the resource data. *)
Definition cycle_before_read (d : ResourceData) (id : TriggerId.t) : M World unit :=
  (if IsNewResource d then check_not_existing id else ret tt) ;;
  schedule ← lift_go (expandDataFactorySchedule (Get_list d "schedule"));
  err ← invoke
      (CallCreateOrUpdate (TriggerId.ResourceGroup id) (TriggerId.FactoryName id)
         (TriggerId.Name id) (trigger_of d schedule))
      (CreateOrUpdate (TriggerId.ResourceGroup id) (TriggerId.FactoryName id)
         (TriggerId.Name id) (trigger_of d schedule));
  check err (Creating id) ;;
  start_if_activated d id.

End cycle_parts.

(** A remote trigger whose fields of the schedule are there but empty, and an
    occurrence without week. *)
Definition loose_schedule : RecurrenceSchedule :=
  {| Minutes := Some []; Hours := None; WeekDays := Some ["Monday"]; MonthDays := None;
     MonthlyOccurrences := Some [{| Day := "Friday"; Occurrence := None |}] |}.

(** The answers of [Get] the read cannot take: no properties, a trigger of
    another kind without type string, a schedule trigger without type
    properties. *)
Definition read_panics_on (resp : TriggerResource) : bool :=
  match Properties resp with
  | None => true
  | Some (IsOtherTrigger _) => bool_decide (Type_ resp = None)
  | Some (IsScheduleTrigger t) => bool_decide (TypeProperties t = None)
  end.

(** A function on resource data that sets attributes to values of its own and
    leaves the rest: [overwritten k] is the value it gives [k], if any. *)
Definition overwrites (f : ResourceData → ResourceData) : Prop :=
  ∃ overwritten : string → option (option any),
    ∀ d, Id (f d) = Id d
         ∧ IsNewResource (f d) = IsNewResource d
         ∧ ∀ k, attributes (f d) !! k =
                match overwritten k with
                | Some v => v
                | None => attributes d !! k
                end.

(** More sample data: a schedule trigger without type properties, and the
    resource data of an update. *)
Definition bare_trigger : ScheduleTrigger :=
  {| Pipelines := None; TypeProperties := None; Description := None;
     RuntimeState := "Stopped"; Annotations := None |}.

Definition desired_update : ResourceData :=
  {| Id := Sample.trigger_id;
     IsNewResource := false;
     attributes := attributes (Sample.desired false) |}.

(** ** The validation of a schedule block (lines 79-151)

    Modelled from the spec: the package [validation] is not under src/. The
    spec has [days_of_month] accept 1..31 and -31..-1, [hours] 0..24,
    [minutes] 0..60, the week of a monthly occurrence 1..5 and -5..-1, the
    weekdays at most seven names of days. [IntBetween] accepts the ints of a
    range, bounds included, [Any] what one of its validators accepts. The
    week is optional: when it is not set it is not validated and reads as 0. *)

Definition IntBetween (min max : Z) (v : any) : bool :=
  match v with
  | VInt n => bool_decide (min ≤ n ≤ max)
  | _ => false
  end.

Definition Any (validators : list (any → bool)) (v : any) : bool :=
  existsb (fun validate => validate v) validators.

Definition day_names : list string :=
  ["Monday"; "Tuesday"; "Wednesday"; "Thursday"; "Friday"; "Saturday"; "Sunday"].

Definition IsDayOfTheWeek (v : any) : bool :=
  match v with
  | VString s => bool_decide (s ∈ day_names)
  | _ => false
  end.

Definition days_of_month_valid : any → bool :=
  Any [IntBetween 1 31; IntBetween (-31) (-1)].
Definition hours_valid : any → bool := IntBetween 0 24.
Definition minutes_valid : any → bool := IntBetween 0 60.
Definition week_valid : any → bool :=
  Any [IntBetween 1 5; IntBetween (-5) (-1)].

(** The weekday is required; the week is validated, or not set. *)
Definition monthly_valid (v : any) : bool :=
  match v with
  | VMap value =>
    IsDayOfTheWeek (index value "weekday")
    && (week_valid (index value "week") || IntBetween 0 0 (index value "week"))
  | _ => false
  end.

Definition at_most (n : nat) (v : any) : bool :=
  match v with
  | VList l => bool_decide (length l ≤ n)%nat
  | _ => false
  end.

Definition schedule_block_valid (m : gmap string any) : bool :=
  all_of days_of_month_valid (index m "days_of_month")
  && all_of IsDayOfTheWeek (index m "days_of_week")
  && at_most 7 (index m "days_of_week")
  && all_of hours_valid (index m "hours")
  && all_of minutes_valid (index m "minutes")
  && all_of monthly_valid (index m "monthly").

(** A monthly block of the input and the occurrence encoded from it. *)
Definition occurrence_copied (v : any) (o : RecurrenceScheduleOccurrence) : Prop :=
  ∃ value n,
    v = VMap value
    ∧ index value "weekday" = VString (Day o)
    ∧ index value "week" = VInt n
    ∧ Occurrence o = Some n.

(** The sample resource data with their identifier, the trigger a cycle
    builds from them, and a remote system in which that trigger runs. *)
Definition applied : ResourceData :=
  {| Id := Sample.trigger_id;
     IsNewResource := false;
     attributes := attributes (Sample.desired true) |}.

Definition sent_trigger : ScheduleTrigger :=
  match Properties (trigger_of (clock := Sample.clock) applied (Some monday_schedule)) with
  | Some (IsScheduleTrigger t) => t
  | _ => bare_trigger
  end.

Definition running : Sample.World :=
  Sample.one_trigger (IsScheduleTrigger (Sample.with_state "Started" sent_trigger)) 0.

(** * Properties *)

(** ** Integers *)

Lemma int32_in_range (n : Z) : in_int32 (int32 n).
Proof.
  unfold in_int32, int32.
  pose proof (Z.mod_pos_bound (n + 2 ^ 31) (2 ^ 32) ltac:(lia)). lia.
Qed.

Lemma int32_id (n : Z) : in_int32 n → int32 n = n.
Proof.
  unfold in_int32, int32. intros Hn.
  rewrite Z.mod_small by lia. lia.
Qed.

Lemma int32_idempotent (n : Z) : int32 (int32 n) = int32 n.
Proof. apply int32_id, int32_in_range. Qed.

Lemma map_int32_id (l : list Z) : Forall in_int32 l → int32 <$> l = l.
Proof.
  induction 1 as [|n l Hn _ IH]; [done|].
  cbn. by rewrite int32_id, IH.
Qed.

(** ** Loops and type assertions *)

Lemma go_bind_done {A B : Type} (c : go A) (f : A → go B) (b : B) :
  c ≫= f = Done b → ∃ a, c = Done a ∧ f a = Done b.
Proof. destruct c as [a|]; [eauto|discriminate]. Qed.

Ltac go_inv H :=
  repeat match type of H with
  | _ ≫= _ = Done _ =>
    let a := fresh "a" in let Ha := fresh "Ha" in
    apply go_bind_done in H as (a & Ha & H)
  end.

Lemma as_int_done v n : as_int v = Done n → v = VInt n.
Proof. destruct v; cbn; congruence. Qed.
Lemma as_string_done v s : as_string v = Done s → v = VString s.
Proof. destruct v; cbn; congruence. Qed.
Lemma as_list_done v l : as_list v = Done l → v = VList l.
Proof. destruct v; cbn; congruence. Qed.
Lemma as_map_done v m : as_map v = Done m → v = VMap m.
Proof. destruct v; cbn; congruence. Qed.

Lemma range_append_fmap {A B : Type} (f : A → go B) (g : B → A) (l : list B) :
  (∀ b, f (g b) = Done b) → range_append f (g <$> l) = Done l.
Proof.
  intros Hfg. induction l as [|b l IH]; [done|].
  cbn. rewrite Hfg. cbn. rewrite IH. done.
Qed.

Lemma range_append_fmap_with {A B C : Type} (f : A → go B) (g : C → A) (h : C → B)
    (l : list C) :
  (∀ c, f (g c) = Done (h c)) → range_append f (g <$> l) = Done (h <$> l).
Proof.
  intros Hfg. induction l as [|c l IH]; [done|].
  cbn. rewrite Hfg. cbn. rewrite IH. done.
Qed.

Lemma range_append_Forall {A B : Type} (f : A → go B) (P : B → Prop) l bs :
  (∀ a b, f a = Done b → P b) → range_append f l = Done bs → Forall P bs.
Proof.
  intros Hf. revert bs. induction l as [|a l IH]; intros bs H; cbn in H.
  - injection H as <-. constructor.
  - go_inv H. injection H as <-. constructor; eauto.
Qed.

Lemma range_append_length {A B : Type} (f : A → go B) l bs :
  range_append f l = Done bs → length bs = length l.
Proof.
  revert bs. induction l as [|a l IH]; intros bs H; cbn in H.
  - by injection H as <-.
  - go_inv H. injection H as <-. cbn. f_equal. eauto.
Qed.

Lemma nonempty_ptr_normal {A : Type} (l : list A) : ptr_normal (nonempty_ptr l).
Proof. by destruct l. Qed.

Lemma nonempty_ptr_id {A : Type} (l : list A) : l ≠ [] → nonempty_ptr l = Some l.
Proof. by destruct l. Qed.

(** ** Lookups in the maps the codec builds *)

Lemma index_insert_eq (m : gmap string any) k v : index (<[k := v]> m) k = v.
Proof. unfold index. by rewrite lookup_insert_eq. Qed.

Lemma index_insert_ne (m : gmap string any) k k' v :
  k ≠ k' → index (<[k := v]> m) k' = index m k'.
Proof. intros. unfold index. by rewrite lookup_insert_ne. Qed.

Lemma lookup_set_if_present_eq {A : Type} k (f : A → any) p (m : gmap string any) :
  set_if_present k f p m !! k = match p with Some a => Some (f a) | None => m !! k end.
Proof. destruct p; cbn; [apply lookup_insert_eq|done]. Qed.

Lemma lookup_set_if_present_ne {A : Type} k k' (f : A → any) p (m : gmap string any) :
  k ≠ k' → set_if_present k f p m !! k' = m !! k'.
Proof. intros. destruct p; cbn; [by apply lookup_insert_ne|done]. Qed.

Lemma flatten_block (s : RecurrenceSchedule) :
  ∃ m, flattenDataFactorySchedule (Some s) = [VMap m]
    ∧ m !! "minutes" = flat_ints (Minutes s)
    ∧ m !! "hours" = flat_ints (Hours s)
    ∧ m !! "days_of_week" = flat_strings (WeekDays s)
    ∧ m !! "days_of_month" = flat_ints (MonthDays s)
    ∧ m !! "monthly" = flat_monthly (MonthlyOccurrences s)
    ∧ ∀ k, k ∉ schedule_keys → m !! k = None.
Proof.
  eexists. split; [reflexivity|].
  repeat split.
  - do 4 (rewrite lookup_set_if_present_ne by done).
    rewrite lookup_set_if_present_eq. by destruct (Minutes s).
  - do 3 (rewrite lookup_set_if_present_ne by done).
    rewrite lookup_set_if_present_eq, lookup_set_if_present_ne by done.
    by destruct (Hours s).
  - do 2 (rewrite lookup_set_if_present_ne by done).
    rewrite lookup_set_if_present_eq.
    do 2 (rewrite lookup_set_if_present_ne by done).
    by destruct (WeekDays s).
  - rewrite lookup_set_if_present_ne by done.
    rewrite lookup_set_if_present_eq.
    do 3 (rewrite lookup_set_if_present_ne by done).
    by destruct (MonthDays s).
  - rewrite lookup_set_if_present_eq.
    do 4 (rewrite lookup_set_if_present_ne by done).
    by destruct (MonthlyOccurrences s).
  - intros k Hk. unfold schedule_keys in Hk.
    rewrite !not_elem_of_cons in Hk. destruct Hk as (?&?&?&?&?&_).
    by do 5 (rewrite lookup_set_if_present_ne by done).
Qed.

(** ** [expandDataFactorySchedule] on a block of the schema's shape *)

Lemma expand_ints_shape (l : list Z) :
  expand_ints (VList (VInt <$> l)) = Done (nonempty_ptr (int32 <$> l)).
Proof.
  destruct l as [|n l]; [done|].
  unfold expand_ints, utils.ExpandInt32Slice.
  change (as_list (VList ?l) ≫= ?f) with (f l).
  change (VInt <$> n :: l) with (VInt n :: (VInt <$> l)). cbv beta iota.
  rewrite <- (fmap_cons VInt).
  rewrite (range_append_fmap_with _ VInt int32) by done.
  done.
Qed.

Lemma expand_occurrence_shape (occ : string * Z) :
  expand_occurrence (monthly_block occ) = Done (occurrence_of occ).
Proof.
  unfold expand_occurrence, monthly_block. cbn.
  rewrite index_insert_eq. cbn.
  rewrite index_insert_ne, index_insert_eq by done. done.
Qed.

Lemma expand_block m rest dom dow hrs mins mon :
  block_shape m dom dow hrs mins mon →
  expandDataFactorySchedule (VMap m :: rest) =
    Done (Some {| Minutes := nonempty_ptr (int32 <$> mins);
                  Hours := nonempty_ptr (int32 <$> hrs);
                  WeekDays := nonempty_ptr dow;
                  MonthDays := nonempty_ptr (int32 <$> dom);
                  MonthlyOccurrences := nonempty_ptr (occurrence_of <$> mon) |}).
Proof.
  intros [Hdom Hdow Hhrs Hmins Hmon].
  unfold expandDataFactorySchedule.
  change (as_map (VMap m) ≫= ?f) with (f m). cbv beta.
  unfold index. rewrite Hdom, Hdow, Hhrs, Hmins, Hmon.
  change (default VNil (Some ?v)) with v.
  change (as_list (VList ?l) ≫= ?f) with (f l). cbv beta.
  rewrite (range_append_fmap as_string VString) by done.
  change (Done ?a ≫= ?f) with (f a). cbv beta.
  change (as_list (VList ?l) ≫= ?f) with (f l). cbv beta.
  rewrite (range_append_fmap_with _ _ _ _ expand_occurrence_shape).
  change (Done ?a ≫= ?f) with (f a). cbv beta.
  rewrite !expand_ints_shape. done.
Qed.

(** ** The form of what [expandDataFactorySchedule] returns *)

Lemma expand_ints_normal v p : expand_ints v = Done p → ints_normal p.
Proof.
  unfold expand_ints. intros H. go_inv H.
  destruct a as [|x l]; [by injection H as <-|].
  unfold utils.ExpandInt32Slice in H. go_inv H. injection H as <-.
  split.
  - apply range_append_length in Ha0. by destruct a.
  - eapply range_append_Forall; [|exact Ha0].
    cbv beta. intros v' n Hn. go_inv Hn. injection Hn as <-. apply int32_in_range.
Qed.

Lemma expand_occurrence_normal v o :
  expand_occurrence v = Done o → occurrence_normal o.
Proof.
  unfold expand_occurrence. intros H. go_inv H. injection H as <-.
  eexists. split; [reflexivity|]. apply int32_in_range.
Qed.

Lemma expand_normal x s :
  expandDataFactorySchedule x = Done (Some s) → schedule_normal s.
Proof.
  unfold expandDataFactorySchedule. intros H.
  destruct x as [|first rest]; [discriminate|].
  assert (Hfirst : (value ← as_map first;
            days_of_week ← as_list (index value "days_of_week");
            weekDays ← range_append as_string days_of_week;
            monthly ← as_list (index value "monthly");
            monthlyOccurrences ← range_append expand_occurrence monthly;
            monthDays ← expand_ints (index value "days_of_month");
            minutes ← expand_ints (index value "minutes");
            hours ← expand_ints (index value "hours");
            Done (Some {| Minutes := minutes;
                          Hours := hours;
                          WeekDays := nonempty_ptr weekDays;
                          MonthDays := monthDays;
                          MonthlyOccurrences := nonempty_ptr monthlyOccurrences |}))
          = Done (Some s)).
  { destruct first; first [discriminate | exact H]. }
  clear H. go_inv Hfirst. injection Hfirst as <-.
  split; cbn; eauto using expand_ints_normal, nonempty_ptr_normal.
  intros l Hl. destruct a3; [discriminate|]. injection Hl as <-.
  eapply range_append_Forall; [|eassumption]. apply expand_occurrence_normal.
Qed.

(** ** Reading the decoded block back and encoding it again *)

Lemma read_flatten_occurrence o :
  read_monthly (flatten_occurrence o) = monthly_block (occurrence_pair o).
Proof.
  unfold read_monthly, flatten_occurrence, monthly_block, occurrence_pair, index.
  assert (block_exists monthly_keys
            (set_if_present "week" VInt32 (Occurrence o)
               (<["weekday" := VString (Day o)]> ∅)) = true) as ->.
  { unfold block_exists, monthly_keys. cbn [existsb].
    rewrite lookup_set_if_present_ne, lookup_insert_eq by done.
    by rewrite bool_decide_eq_true_2 by eauto. }
  cbn [fst snd]. f_equal. f_equal.
  - rewrite lookup_set_if_present_ne, lookup_insert_eq by done. done.
  - rewrite lookup_set_if_present_eq, lookup_insert_ne, lookup_empty by done.
    by destruct (Occurrence o).
Qed.

(** The block of a remote schedule exists for the reader exactly when the
    schedule has a field. *)
Lemma flatten_exists (s : RecurrenceSchedule) :
  s ≠ no_schedule_fields →
  ∃ m, flattenDataFactorySchedule (Some s) = [VMap m]
    ∧ block_exists schedule_keys m = true.
Proof.
  intros Hs.
  destruct (flatten_block s) as (m & Hm & Hmins & Hhrs & Hdow & Hdom & Hmon & _).
  exists m. split; [done|].
  unfold block_exists, schedule_keys. cbn [existsb].
  rewrite Hmins, Hhrs, Hdow, Hdom, Hmon.
  destruct s as [[mins|] [hrs|] [dow|] [dom|] [mon|]]; cbn;
    rewrite ?bool_decide_eq_true_2 by eauto; rewrite ?orb_true_r; done.
Qed.

Lemma read_flatten_nothing :
  schema_read_schedule (flattenDataFactorySchedule (Some no_schedule_fields)) = [VNil].
Proof. vm_compute. reflexivity. Qed.

Lemma read_flatten_shape (s : RecurrenceSchedule) :
  s ≠ no_schedule_fields →
  ∃ m, schema_read_schedule (flattenDataFactorySchedule (Some s)) = [VMap m]
    ∧ block_shape m (default [] (MonthDays s)) (default [] (WeekDays s))
        (default [] (Hours s)) (default [] (Minutes s))
        (occurrence_pair <$> default [] (MonthlyOccurrences s)).
Proof.
  intros Hs.
  destruct (flatten_exists s Hs) as (m' & Hm' & Hexists).
  destruct (flatten_block s) as (m & Hm & Hmins & Hhrs & Hdow & Hdom & Hmon & _).
  rewrite Hm in Hm'. injection Hm' as <-.
  rewrite Hm. cbn [schema_read_schedule fmap list_fmap read_schedule_block].
  rewrite Hexists. eexists. split; [reflexivity|].
  unfold index. rewrite Hmins, Hhrs, Hdow, Hdom, Hmon.
  split.
  - rewrite lookup_insert_eq.
    destruct (MonthDays s); cbn; [|done].
    by rewrite <- list_fmap_compose.
  - rewrite lookup_insert_ne, lookup_insert_eq by done.
    destruct (WeekDays s); cbn; [|done].
    by rewrite <- list_fmap_compose.
  - do 2 (rewrite lookup_insert_ne by done). rewrite lookup_insert_eq.
    destruct (Hours s); cbn; [|done].
    by rewrite <- list_fmap_compose.
  - do 3 (rewrite lookup_insert_ne by done). rewrite lookup_insert_eq.
    destruct (Minutes s); cbn; [|done].
    by rewrite <- list_fmap_compose.
  - do 4 (rewrite lookup_insert_ne by done). rewrite lookup_insert_eq.
    destruct (MonthlyOccurrences s) as [l|]; cbn; [|done].
    rewrite <- !list_fmap_compose. do 2 f_equal.
    apply list_fmap_ext. intros _ o _. apply read_flatten_occurrence.
Qed.

Lemma ints_normal_fixed (p : option (list Z)) :
  ints_normal p → nonempty_ptr (int32 <$> default [] p) = p.
Proof.
  destruct p as [l|]; cbn; [|done]. intros [Hne Hl].
  rewrite map_int32_id by done. by apply nonempty_ptr_id.
Qed.

Lemma ptr_normal_fixed {A : Type} (p : option (list A)) :
  ptr_normal p → nonempty_ptr (default [] p) = p.
Proof. destruct p as [l|]; cbn; [|done]. apply nonempty_ptr_id. Qed.

Lemma occurrence_normal_fixed o :
  occurrence_normal o → occurrence_of (occurrence_pair o) = o.
Proof.
  destruct o as [day occ]. intros (n & Hn & Hrange). cbn in Hn. subst occ.
  unfold occurrence_of, occurrence_pair. cbn. by rewrite int32_id.
Qed.

Lemma expand_read_flatten (s : RecurrenceSchedule) :
  schedule_normal s →
  s ≠ no_schedule_fields →
  expandDataFactorySchedule (schema_read_schedule (flattenDataFactorySchedule (Some s)))
    = Done (Some s).
Proof.
  intros [Hmins Hhrs Hdow Hdom Hmon Hocc] Hs.
  destruct (read_flatten_shape s Hs) as (m & -> & Hshape).
  rewrite (expand_block _ _ _ _ _ _ _ Hshape).
  rewrite !ints_normal_fixed, ptr_normal_fixed by done.
  assert (nonempty_ptr (occurrence_of <$> (occurrence_pair <$> default [] (MonthlyOccurrences s)))
          = MonthlyOccurrences s) as ->.
  { destruct (MonthlyOccurrences s) as [l|] eqn:Hl; cbn; [|done].
    rewrite <- list_fmap_compose.
    specialize (Hocc l eq_refl). rewrite Forall_lookup in Hocc.
    rewrite (list_fmap_ext _ id l).
    - rewrite list_fmap_id. by apply nonempty_ptr_id.
    - intros i o Hi. cbn. apply occurrence_normal_fixed. eauto. }
  by destruct s.
Qed.

Lemma expand_pass_fixed x r :
  expandDataFactorySchedule x = Done r →
  r ≠ Some no_schedule_fields →
  expandDataFactorySchedule (schema_read_schedule (flattenDataFactorySchedule r)) = Done r.
Proof.
  destruct r as [s|]; [|done].
  intros H Hs. apply expand_read_flatten; [by eapply expand_normal|congruence].
Qed.

(** ** A field the decoder emits was populated in the input *)

Lemma index_list (m : gmap string any) k l : index m k = VList l → m !! k = Some (VList l).
Proof. unfold index. destruct (m !! k); cbn; [congruence|discriminate]. Qed.

Lemma expand_ints_some v l :
  expand_ints v = Done (Some l) → ∃ y ys, v = VList (y :: ys).
Proof.
  unfold expand_ints. intros H. go_inv H. apply as_list_done in Ha as ->.
  destruct a as [|y ys]; [discriminate|eauto].
Qed.

Lemma range_append_some {A B : Type} (f : A → go B) l bs bs' :
  range_append f l = Done bs → nonempty_ptr bs = Some bs' → ∃ y ys, l = y :: ys.
Proof.
  intros H Hbs. apply range_append_length in H.
  destruct l as [|y ys]; [|eauto]. by destruct bs.
Qed.

Lemma populated_intro (m : gmap string any) rest key y ys :
  index m key = VList (y :: ys) → populated (VMap m :: rest) key = true.
Proof. intros H%index_list. unfold populated, block_field. by rewrite H. Qed.

Lemma expand_present_populated x s key :
  expandDataFactorySchedule x = Done (Some s) →
  is_Some (block_field (flattenDataFactorySchedule (Some s)) key) →
  populated x key = true.
Proof.
  intros H Hkey.
  destruct (flatten_block s) as (m & Hm & Hmins & Hhrs & Hdow & Hdom & Hmon & Hother).
  rewrite Hm in Hkey. cbn in Hkey.
  unfold expandDataFactorySchedule in H.
  destruct x as [|first rest]; [discriminate|].
  destruct first as [| | | | | |m0]; try discriminate.
  change (as_map (VMap m0) ≫= ?f) with (f m0) in H. cbv beta in H.
  go_inv H. injection H as <-. cbn in *.
  apply as_list_done in Ha, Ha1.
  destruct (decide (key ∈ schedule_keys)) as [Hin|Hout];
    [|rewrite Hother in Hkey by done; by destruct Hkey].
  unfold schedule_keys in Hin. rewrite !elem_of_cons in Hin.
  destruct Hin as [->|[->|[->|[->|[->|Hnil]]]]]; [ | | | | |by apply elem_of_nil in Hnil].
  - rewrite Hdom in Hkey. destruct a3 as [l|]; [|by destruct Hkey].
    apply expand_ints_some in Ha3 as (y & ys & Hy). eauto using populated_intro.
  - rewrite Hdow in Hkey. destruct (nonempty_ptr a0) as [l|] eqn:Hl; [|by destruct Hkey].
    destruct (range_append_some _ _ _ _ Ha0 Hl) as (y & ys & ->).
    eauto using populated_intro.
  - rewrite Hhrs in Hkey. destruct a5 as [l|]; [|by destruct Hkey].
    apply expand_ints_some in Ha5 as (y & ys & Hy). eauto using populated_intro.
  - rewrite Hmins in Hkey. destruct a4 as [l|]; [|by destruct Hkey].
    apply expand_ints_some in Ha4 as (y & ys & Hy). eauto using populated_intro.
  - rewrite Hmon in Hkey. destruct (nonempty_ptr a2) as [l|] eqn:Hl; [|by destruct Hkey].
    destruct (range_append_some _ _ _ _ Ha2 Hl) as (y & ys & ->).
    eauto using populated_intro.
Qed.

(** ** A populated attribute gives the schedule a field *)

Lemma populated_inv x key :
  populated x key = true →
  ∃ m rest y ys, x = VMap m :: rest ∧ index m key = VList (y :: ys).
Proof.
  unfold populated, block_field, index.
  destruct x as [|[| | | | | |m] rest]; try discriminate.
  destruct (m !! key) as [[| | | | |[|y ys]|]|] eqn:Hkey; try discriminate.
  intros _. exists m, rest, y, ys. by rewrite Hkey.
Qed.

Lemma expand_ints_populated y ys p :
  expand_ints (VList (y :: ys)) = Done p → p ≠ None.
Proof.
  unfold expand_ints, utils.ExpandInt32Slice.
  change (as_list (VList ?l) ≫= ?f) with (f l). cbv beta iota.
  intros H. go_inv H. by injection H as <-.
Qed.

Lemma range_append_populated {A B : Type} (f : A → go B) y ys bs :
  range_append f (y :: ys) = Done bs → nonempty_ptr bs ≠ None.
Proof. intros H%range_append_length. by destruct bs. Qed.

Lemma expand_populated_field x r key :
  expandDataFactorySchedule x = Done r →
  key ∈ schedule_keys →
  populated x key = true →
  r ≠ Some no_schedule_fields.
Proof.
  intros H Hin (m & rest & y & ys & -> & Hkey)%populated_inv.
  unfold expandDataFactorySchedule in H.
  change (as_map (VMap m) ≫= ?f) with (f m) in H. cbv beta in H.
  go_inv H. injection H as <-.
  apply as_list_done in Ha, Ha1.
  intros [= Hmins Hhrs Hdow Hdom Hmon].
  unfold schedule_keys in Hin. rewrite !elem_of_cons in Hin.
  destruct Hin as [->|[->|[->|[->|[->|Hnil]]]]]; [ | | | | |by apply elem_of_nil in Hnil].
  - rewrite Hkey in Ha3. by apply expand_ints_populated in Ha3.
  - rewrite Hkey in Ha. injection Ha as <-.
    by apply range_append_populated in Ha0.
  - rewrite Hkey in Ha5. by apply expand_ints_populated in Ha5.
  - rewrite Hkey in Ha4. by apply expand_ints_populated in Ha4.
  - rewrite Hkey in Ha1. injection Ha1 as <-.
    by apply range_append_populated in Ha2.
Qed.

Lemma expand_nothing_iff x :
  expandDataFactorySchedule x = Done None ↔ x = [] ∨ ∃ rest, x = VNil :: rest.
Proof.
  split.
  - destruct x as [|first rest]; [by left|].
    destruct first as [| | | | | |m0]; [right; eauto|try discriminate..].
    unfold expandDataFactorySchedule.
    change (as_map (VMap m0) ≫= ?f) with (f m0). cbv beta.
    intros H. go_inv H. discriminate.
  - intros [->|[rest ->]]; done.
Qed.

(** ** When the encoder has a result *)

Lemma defined_bind {A B : Type} (c : go A) (f : A → go B) :
  defined (c ≫= f) = match c with Done a => defined (f a) | Panic => false end.
Proof. by destruct c. Qed.

Lemma range_append_defined {A B : Type} (f : A → go B) (ok : A → bool) l :
  (∀ v, defined (f v) = ok v) → defined (range_append f l) = forallb ok l.
Proof.
  intros Hf. induction l as [|v l IH]; [done|].
  cbn [range_append forallb]. rewrite defined_bind, <- Hf.
  destruct (f v); [|done]. cbn. rewrite defined_bind, <- IH.
  by destruct (range_append f l).
Qed.

Lemma as_string_defined v : defined (as_string v) = is_string v.
Proof. by destruct v. Qed.

Lemma as_int32_defined v :
  defined (n ← as_int v; Done (int32 n)) = is_int v.
Proof. by destruct v. Qed.

Lemma expand_occurrence_defined v : defined (expand_occurrence v) = occurrence_ok v.
Proof.
  destruct v as [| | | | | |value]; try done.
  unfold expand_occurrence, occurrence_ok. cbn.
  destruct (index value "weekday"); try done. cbn.
  by destruct (index value "week").
Qed.

Lemma expand_ints_defined v : defined (expand_ints v) = all_of is_int v.
Proof.
  destruct v as [| | | | |l|]; try done.
  unfold expand_ints. cbn. destruct l as [|v l]; [done|].
  unfold utils.ExpandInt32Slice. rewrite defined_bind.
  rewrite <- (range_append_defined _ is_int (v :: l) as_int32_defined).
  by destruct (range_append _ (v :: l)).
Qed.

Lemma expand_defined m rest :
  defined (expandDataFactorySchedule (VMap m :: rest)) = block_ok m.
Proof.
  unfold expandDataFactorySchedule, block_ok.
  change (as_map (VMap m) ≫= ?f) with (f m). cbv beta.
  rewrite defined_bind.
  destruct (index m "days_of_week") as [| | | | |dow|]; try done.
  cbn [as_list all_of]. rewrite defined_bind.
  rewrite <- (range_append_defined as_string is_string dow as_string_defined).
  destruct (range_append as_string dow) as [weekDays|]; [|done].
  cbn [defined andb]. rewrite defined_bind.
  destruct (index m "monthly") as [| | | | |mon|]; try done.
  cbn [as_list all_of]. rewrite defined_bind.
  rewrite <- (range_append_defined expand_occurrence occurrence_ok mon
                expand_occurrence_defined).
  destruct (range_append expand_occurrence mon) as [occs|]; [|done].
  cbn [defined andb]. rewrite defined_bind, <- !expand_ints_defined.
  destruct (expand_ints (index m "days_of_month")); [|done].
  cbn [defined andb]. rewrite defined_bind.
  destruct (expand_ints (index m "minutes")); [|done].
  cbn [defined andb]. rewrite defined_bind.
  by destruct (expand_ints (index m "hours")).
Qed.

(** ** Runs of the resource functions *)

Section runs.
Context {World : Type} {client : TriggersClient World}.
Context {parse : Parse} {clock : Clock} {meta : Meta}.

Lemma bind_run {A B : Type} (c : M World A) (f : A → M World B) st :
  (c ≫= f) st =
    match c st with
    | (Return a, st') => f a st'
    | (Fail e, st') => (Fail e, st')
    | (Crash, st') => (Crash, st')
    end.
Proof. reflexivity. Qed.

Lemma bind_return {A B : Type} (c : M World A) (f : A → M World B) st b st' :
  (c ≫= f) st = (Return b, st') →
  ∃ a st1, c st = (Return a, st1) ∧ f a st1 = (Return b, st').
Proof.
  rewrite bind_run. destruct (c st) as [[a| |] st1]; [eauto|discriminate..].
Qed.

Lemma check_return err wrap (st st' : state World) :
  check err wrap st = (Return tt, st') → err = None ∧ st' = st.
Proof. destruct err; cbn; [discriminate|]. by intros [= <-]. Qed.

Lemma invoke_run {A : Type} c (op : World → A * World) (st : state World) :
  invoke c op st =
    (Return (op (remote st)).1,
     {| data := data st; remote := (op (remote st)).2; calls := calls st ++ [c] |}).
Proof. unfold invoke. by destruct (op (remote st)). Qed.

Lemma set_attribute_lookup k v d k' :
  attributes (Set_attribute k v d) !! k' =
    if decide (k = k') then v else attributes d !! k'.
Proof.
  destruct v; cbn; [apply lookup_insert|].
  rewrite lookup_delete. by case_decide.
Qed.

End runs.

(** Two equations for the same call give the same result. *)
Ltac same_run :=
  repeat match goal with
  | H1 : ?c = _, H2 : ?c = _ |- _ => rewrite H1 in H2; simplify_eq
  end.

Ltac run_inv H :=
  repeat match type of H with
  | (_ ≫= _) _ = (Return _, _) =>
    let a := fresh "a" in let st := fresh "st" in let Ha := fresh "Ha" in
    apply bind_return in H as (a & st & Ha & H); cbv beta in H
  end;
  repeat match goal with u : unit |- _ => destruct u end.

(** ** Deletion *)

Section deletion.
Context {World : Type} {client : TriggersClient World}.
Context {parse : Parse} {clock : Clock} {meta : Meta}.

Lemma delete_cases st :
  ∃ new, delete_outcome st (resourceDataFactoryTriggerScheduleDelete st).1
           (resourceDataFactoryTriggerScheduleDelete st).2 new.
Proof.
  unfold resourceDataFactoryTriggerScheduleDelete.
  rewrite bind_run. cbn [get_data].
  rewrite bind_run.
  destruct (TriggerID (Id (data st))) as [id|msg] eqn:Hid; cbn [from_parser ret fail];
    [|eexists; by apply delete_no_identifier].
  rewrite bind_run, invoke_run.
  destruct (Stop _ _ _ (remote st)) as [[future err] w1] eqn:Hstop. cbn [fst snd].
  rewrite bind_run.
  destruct err as [cause|]; cbn [check fail ret];
    [eexists; by eapply delete_stop_failed|].
  rewrite bind_run, invoke_run. cbn [remote data calls].
  destruct (WaitForCompletionRef future w1) as [err w2] eqn:Hwait. cbn [fst snd].
  rewrite bind_run.
  destruct err as [cause|]; cbn [check fail ret];
    [eexists; by eapply delete_wait_failed|].
  rewrite bind_run, invoke_run. cbn [remote data calls].
  destruct (Delete _ _ _ w2) as [err w3] eqn:Hdelete. cbn [fst snd].
  eexists.
  replace (check err (Deleting id) _) with
    (match err with Some cause => Fail (Deleting id cause) | None => Return tt end,
     {| data := data st; remote := w3;
        calls := ((calls st ++ [CallStop (TriggerId.ResourceGroup id)
                                  (TriggerId.FactoryName id) (TriggerId.Name id)])
                  ++ [CallWait future])
                 ++ [CallDelete (TriggerId.ResourceGroup id)
                       (TriggerId.FactoryName id) (TriggerId.Name id)] |})
    by (by destruct err).
  by eapply delete_issued.
Qed.

Lemma delete_outcome_calls st r st' new :
  delete_outcome st r st' new → calls st' = calls st ++ new.
Proof.
  destruct 1; cbn; rewrite <- ?app_assoc; try done. by rewrite app_nil_r.
Qed.

End deletion.

(** ** Identity resolution and the existence check *)

Section creation.
Context {World : Type} {client : TriggersClient World}.
Context {parse : Parse} {clock : Clock} {meta : Meta}.

Lemma create_update_run (st : state World) :
  resourceDataFactoryTriggerScheduleCreateUpdate st =
    match select_data_factory_id (data st) with
    | ParseError msg => (Fail (IdentifierError msg), st)
    | Parsed None => (Crash, st)
    | Parsed (Some factory) =>
      create_or_update_trigger (data st)
        (NewTriggerID subscriptionId (DataFactoryId.ResourceGroup factory)
           (DataFactoryId.FactoryName factory) (Get_string (data st) "name")) st
    end.
Proof.
  unfold resourceDataFactoryTriggerScheduleCreateUpdate.
  rewrite bind_run. cbn [get_data]. rewrite bind_run.
  destruct (select_data_factory_id (data st)) as [[factory|]|msg]; reflexivity.
Qed.

Lemma check_not_existing_found id (st : state World) existing w1 existingId :
  Get (TriggerId.ResourceGroup id) (TriggerId.FactoryName id) (TriggerId.Name id)
    (remote st) = ((existing, None), w1) →
  ID existing = Some existingId →
  existingId ≠ "" →
  check_not_existing id st =
    (Fail (ImportAsExistsError "azurerm_data_factory_trigger_schedule" existingId),
     {| data := data st; remote := w1;
        calls := calls st ++ [CallGet (TriggerId.ResourceGroup id)
                                (TriggerId.FactoryName id) (TriggerId.Name id)] |}).
Proof.
  intros Hget Hid Hne. unfold check_not_existing.
  rewrite bind_run, invoke_run, Hget. cbn [fst snd].
  rewrite bind_run. cbn [ret]. rewrite Hid.
  by rewrite bool_decide_eq_true_2.
Qed.

End creation.

(** ** The read *)

Section reading.
Context {World : Type} {client : TriggersClient World}.
Context {parse : Parse} {clock : Clock} {meta : Meta}.

Lemma read_run (st : state World) id resp err w1 :
  TriggerID (Id (data st)) = Parsed id →
  Get (TriggerId.ResourceGroup id) (TriggerId.FactoryName id) (TriggerId.Name id)
    (remote st) = ((resp, err), w1) →
  resourceDataFactoryTriggerScheduleRead st =
    read_response id resp err
      {| data := data st; remote := w1;
         calls := calls st ++ [CallGet (TriggerId.ResourceGroup id)
                                 (TriggerId.FactoryName id) (TriggerId.Name id)] |}.
Proof.
  intros Hid Hget. unfold resourceDataFactoryTriggerScheduleRead.
  rewrite bind_run. cbn [get_data]. rewrite bind_run, Hid. cbn [from_parser ret].
  rewrite bind_run, invoke_run, Hget. reflexivity.
Qed.

Lemma read_response_other_kind id resp kind received (st : state World) :
  Properties resp = Some (IsOtherTrigger kind) →
  Type_ resp = Some received →
  read_response id resp None st =
    (Fail (Classifying id TypeBasicTriggerTypeScheduleTrigger received),
     {| data := set_identity id resp (data st); remote := remote st; calls := calls st |}).
Proof.
  intros Hprops Htype. unfold read_response.
  rewrite bind_run. cbn [set_data]. rewrite bind_run, Hprops. cbn [deref ret].
  cbn [AsScheduleTrigger negb]. rewrite bind_run, Htype. reflexivity.
Qed.

Lemma read_response_schedule id resp t tp (st : state World) :
  Properties resp = Some (IsScheduleTrigger t) →
  TypeProperties t = Some tp →
  read_response id resp None st =
    (Return tt,
     {| data :=
          Set_attribute "description" (VString <$> Description t)
            (Set_attribute "annotations"
               (Some (VList (VString <$> flattenDataFactoryAnnotations (Annotations t))))
               (set_pipelines (Pipelines t)
                  (set_recurrence (Recurrence tp)
                     (Set_attribute "activated"
                        (Some (VBool (bool_decide
                                        (RuntimeState t = TriggerRuntimeStateStarted))))
                        (set_identity id resp (data st))))));
        remote := remote st; calls := calls st |}).
Proof.
  intros Hprops Htp. unfold read_response.
  rewrite bind_run. cbn [set_data]. rewrite bind_run, Hprops. cbn [deref ret].
  cbn [AsScheduleTrigger negb]. unfold read_schedule_trigger.
  rewrite bind_run. cbn [set_data]. rewrite bind_run, Htp. reflexivity.
Qed.

(** A schedule trigger is never answered with a classification error. *)
Lemma read_response_schedule_classified id resp t (st : state World) :
  Properties resp = Some (IsScheduleTrigger t) →
  ∀ id' expected received,
    (read_response id resp None st).1 ≠ Fail (Classifying id' expected received).
Proof.
  intros Hprops id' expected received.
  destruct (TypeProperties t) as [tp|] eqn:Htp.
  - by erewrite read_response_schedule.
  - unfold read_response.
    rewrite bind_run. cbn [set_data]. rewrite bind_run, Hprops. cbn [deref ret].
    cbn [AsScheduleTrigger negb]. unfold read_schedule_trigger.
    rewrite bind_run. cbn [set_data]. rewrite bind_run, Htp. done.
Qed.

Lemma set_identity_lookup id resp d :
  attributes (set_identity id resp d) !! "name" = VString <$> Name resp
  ∧ attributes (set_identity id resp d) !! "resource_group_name"
    = Some (VString (TriggerId.ResourceGroup id))
  ∧ attributes (set_identity id resp d) !! "data_factory_name"
    = Some (VString (TriggerId.FactoryName id))
  ∧ attributes (set_identity id resp d) !! "data_factory_id"
    = Some (VString (DataFactoryId_ID
              (NewDataFactoryID (TriggerId.SubscriptionId id) (TriggerId.ResourceGroup id)
                 (TriggerId.FactoryName id))))
  ∧ Id (set_identity id resp d) = Id d
  ∧ ∀ k, k ∉ identity_keys →
      attributes (set_identity id resp d) !! k = attributes d !! k.
Proof.
  unfold set_identity. repeat split.
  - rewrite !set_attribute_lookup. by repeat (case_decide; [done|]).
  - rewrite !set_attribute_lookup. by repeat (case_decide; [done|]).
  - rewrite !set_attribute_lookup. by repeat (case_decide; [done|]).
  - by rewrite set_attribute_lookup.
  - intros k Hk. unfold identity_keys in Hk. rewrite !not_elem_of_cons in Hk.
    destruct Hk as (?&?&?&?&_).
    rewrite !set_attribute_lookup. by repeat (case_decide; [done|]).
Qed.

Lemma set_recurrence_lookup recurrence d :
  attributes (set_recurrence (Some recurrence) d) !! "start_time"
    = match StartTime recurrence with
      | Some v => Some (VString (time_Format v))
      | None => attributes d !! "start_time"
      end
  ∧ attributes (set_recurrence (Some recurrence) d) !! "end_time"
    = match EndTime recurrence with
      | Some v => Some (VString (time_Format v))
      | None => attributes d !! "end_time"
      end
  ∧ attributes (set_recurrence (Some recurrence) d) !! "frequency"
    = Some (VString (Frequency recurrence))
  ∧ attributes (set_recurrence (Some recurrence) d) !! "interval"
    = VInt <$> Interval recurrence
  ∧ attributes (set_recurrence (Some recurrence) d) !! "schedule"
    = match Schedule recurrence with
      | Some schedule =>
        Some (VList (schema_read_schedule (flattenDataFactorySchedule (Some schedule))))
      | None => attributes d !! "schedule"
      end.
Proof.
  unfold set_recurrence.
  destruct (StartTime recurrence), (EndTime recurrence), (Schedule recurrence);
    repeat split; rewrite !set_attribute_lookup; by repeat (case_decide; [done|]).
Qed.

Lemma set_recurrence_other recurrence d k :
  k ∉ recurrence_keys →
  attributes (set_recurrence recurrence d) !! k = attributes d !! k.
Proof.
  intros Hk. unfold recurrence_keys in Hk. rewrite !not_elem_of_cons in Hk.
  destruct Hk as (?&?&?&?&?&_).
  destruct recurrence as [recurrence|]; [|done]. unfold set_recurrence.
  destruct (StartTime recurrence), (EndTime recurrence), (Schedule recurrence);
    rewrite !set_attribute_lookup; by repeat (case_decide; [done|]).
Qed.

Lemma set_pipelines_other pipelines d k :
  k ∉ pipeline_keys →
  attributes (set_pipelines pipelines d) !! k = attributes d !! k.
Proof.
  intros Hk. unfold pipeline_keys in Hk. rewrite !not_elem_of_cons in Hk.
  destruct Hk as (?&?&_).
  destruct pipelines as [[|first rest]|]; [done| |done]. unfold set_pipelines.
  destruct (PipelineReference_ first);
    rewrite !set_attribute_lookup; by repeat (case_decide; [done|]).
Qed.

Lemma set_pipelines_lookup pipelines d :
  attributes (set_pipelines pipelines d) !! "pipeline_name"
    = match pipelines with
      | Some (first :: _) =>
        match PipelineReference_ first with
        | Some reference => VString <$> ReferenceName reference
        | None => attributes d !! "pipeline_name"
        end
      | _ => attributes d !! "pipeline_name"
      end
  ∧ attributes (set_pipelines pipelines d) !! "pipeline_parameters"
    = match pipelines with
      | Some (first :: _) => Some (VMap (Parameters first))
      | _ => attributes d !! "pipeline_parameters"
      end.
Proof.
  destruct pipelines as [[|first rest]|]; [done| |done]. unfold set_pipelines.
  destruct (PipelineReference_ first);
    split; rewrite !set_attribute_lookup; by repeat (case_decide; [done|]).
Qed.

Lemma set_recurrence_Id recurrence d : Id (set_recurrence recurrence d) = Id d.
Proof.
  destruct recurrence as [recurrence|]; [|done]. unfold set_recurrence.
  by destruct (StartTime recurrence), (EndTime recurrence), (Schedule recurrence).
Qed.

Lemma set_pipelines_Id pipelines d : Id (set_pipelines pipelines d) = Id d.
Proof.
  destruct pipelines as [[|first rest]|]; [done| |done]. unfold set_pipelines.
  by destruct (PipelineReference_ first).
Qed.

End reading.

(** ** Successful runs, step by step *)

Section successful_runs.
Context {World : Type} {client : TriggersClient World}.
Context {parse : Parse} {clock : Clock} {meta : Meta}.

Lemma check_not_existing_return id (st st1 : state World) :
  check_not_existing id st = (Return tt, st1) →
  ∃ existing err0 w1,
    Get (TriggerId.ResourceGroup id) (TriggerId.FactoryName id) (TriggerId.Name id)
      (remote st) = ((existing, err0), w1)
    ∧ (ID existing = None ∨ ID existing = Some "")
    ∧ st1 = {| data := data st; remote := w1;
               calls := calls st ++ [CallGet (TriggerId.ResourceGroup id)
                                       (TriggerId.FactoryName id) (TriggerId.Name id)] |}.
Proof.
  unfold check_not_existing. rewrite bind_run, invoke_run.
  destruct (Get _ _ _ (remote st)) as [[existing err0] w1] eqn:Hget. cbn [fst snd].
  rewrite bind_run. intros H.
  exists existing, err0, w1. split; [done|].
  destruct err0 as [cause|].
  - destruct (negb (ResponseWasNotFound (Response existing))); [discriminate|].
    cbn [ret] in H. destruct (ID existing) as [existingId|]; [|injection H as <-; split; [auto|done]].
    destruct (bool_decide (existingId ≠ "")) eqn:Hne; [discriminate|].
    apply bool_decide_eq_false in Hne. apply dec_stable in Hne. subst.
    injection H as <-. split; [auto|done].
  - cbn [ret] in H. destruct (ID existing) as [existingId|]; [|injection H as <-; split; [auto|done]].
    destruct (bool_decide (existingId ≠ "")) eqn:Hne; [discriminate|].
    apply bool_decide_eq_false in Hne. apply dec_stable in Hne. subst.
    injection H as <-. split; [auto|done].
Qed.

Lemma start_if_activated_return d id (st st1 : state World) :
  start_if_activated d id st = (Return tt, st1) →
  if Get_bool d "activated"
  then ∃ future w1 w2,
    Start (TriggerId.ResourceGroup id) (TriggerId.FactoryName id) (TriggerId.Name id)
      (remote st) = ((future, None), w1)
    ∧ WaitForCompletionRef future w1 = (None, w2)
    ∧ st1 = {| data := data st; remote := w2;
               calls := calls st ++ [CallStart (TriggerId.ResourceGroup id)
                                       (TriggerId.FactoryName id) (TriggerId.Name id);
                                     CallWait future] |}
  else st1 = st.
Proof.
  unfold start_if_activated. destruct (Get_bool d "activated"); [|by intros [= <-]].
  rewrite bind_run, invoke_run.
  destruct (Start _ _ _ (remote st)) as [[future err] w1] eqn:Hstart. cbn [fst snd].
  rewrite bind_run. destruct err as [cause|]; [discriminate|]. cbn [check ret].
  rewrite bind_run, invoke_run. cbn [remote data calls].
  destruct (WaitForCompletionRef future w1) as [err w2] eqn:Hwait. cbn [fst snd].
  destruct err as [cause|]; [discriminate|]. cbn [check ret].
  intros [= <-]. exists future, w1, w2. rewrite <- app_assoc. done.
Qed.

Lemma read_return (st st' : state World) :
  resourceDataFactoryTriggerScheduleRead st = (Return tt, st') →
  ∃ id resp err w1,
    TriggerID (Id (data st)) = Parsed id
    ∧ Get (TriggerId.ResourceGroup id) (TriggerId.FactoryName id) (TriggerId.Name id)
        (remote st) = ((resp, err), w1)
    ∧ remote st' = w1
    ∧ calls st' = calls st ++ [CallGet (TriggerId.ResourceGroup id)
                                 (TriggerId.FactoryName id) (TriggerId.Name id)]
    ∧ (err = None →
       ∃ t, Properties resp = Some (IsScheduleTrigger t)
         ∧ attributes (data st') !! "activated"
           = Some (VBool (bool_decide (RuntimeState t = TriggerRuntimeStateStarted)))).
Proof.
  intros H.
  destruct (TriggerID (Id (data st))) as [id|msg] eqn:Hid.
  2:{ unfold resourceDataFactoryTriggerScheduleRead in H.
      rewrite bind_run in H. cbn [get_data] in H. rewrite bind_run, Hid in H.
      discriminate. }
  destruct (Get (TriggerId.ResourceGroup id) (TriggerId.FactoryName id)
              (TriggerId.Name id) (remote st)) as [[resp err] w1] eqn:Hget.
  rewrite (read_run st _ _ _ _ Hid Hget) in H.
  exists id, resp, err, w1. split; [done|]. split; [done|].
  destruct err as [cause|].
  - unfold read_response in H.
    destruct (ResponseWasNotFound (Response resp)); [|discriminate].
    injection H as <-. done.
  - destruct (Properties resp) as [[t|kind]|] eqn:Hprops.
    + destruct (TypeProperties t) as [tp|] eqn:Htp.
      * erewrite read_response_schedule in H by eauto. injection H as <-.
        split; [done|]. split; [done|]. intros _. exists t. split; [done|].
        cbn [data]. rewrite !set_attribute_lookup.
        do 2 (case_decide; [done|]).
        rewrite set_pipelines_other, set_recurrence_other
          by (eapply bool_decide_eq_false; done).
        by rewrite set_attribute_lookup.
      * unfold read_response in H.
        rewrite bind_run in H. cbn [set_data] in H. rewrite bind_run, Hprops in H.
        cbn [deref ret AsScheduleTrigger negb] in H. unfold read_schedule_trigger in H.
        rewrite bind_run in H. cbn [set_data] in H. rewrite bind_run, Htp in H.
        discriminate.
    + unfold read_response in H.
      rewrite bind_run in H. cbn [set_data] in H. rewrite bind_run, Hprops in H.
      cbn [deref ret AsScheduleTrigger negb] in H. rewrite bind_run in H.
      destruct (Type_ resp); discriminate.
    + unfold read_response in H.
      rewrite bind_run in H. cbn [set_data] in H. rewrite bind_run, Hprops in H.
      discriminate.
Qed.

Lemma lift_go_return {A : Type} (c : go A) a (st st1 : state World) :
  lift_go c st = (Return a, st1) → c = Done a ∧ st1 = st.
Proof. destruct c; cbn; [|discriminate]. by intros [= <- <-]. Qed.

End successful_runs.

Section create_cycle.
Context {World : Type} {client : TriggersClient World}.
Context {parse : Parse} {clock : Clock} {meta : Meta}.

(** A successful cycle for a new resource, call by call. *)
Lemma create_cycle_return (st st' : state World) (id : TriggerId.t) :
  IsNewResource (data st) = true →
  (∀ id', TriggerID (TriggerId_ID id) = Parsed id' → id' = id) →
  create_or_update_trigger (data st) id st = (Return tt, st') →
  ∃ schedule existing err0 w1 w2 w resp err w5,
    Get (TriggerId.ResourceGroup id) (TriggerId.FactoryName id) (TriggerId.Name id)
      (remote st) = ((existing, err0), w1)
    ∧ (ID existing = None ∨ ID existing = Some "")
    ∧ CreateOrUpdate (TriggerId.ResourceGroup id) (TriggerId.FactoryName id)
        (TriggerId.Name id) (trigger_of (data st) schedule) w1 = (None, w2)
    ∧ (if Get_bool (data st) "activated"
       then ∃ future w3,
         Start (TriggerId.ResourceGroup id) (TriggerId.FactoryName id)
           (TriggerId.Name id) w2 = ((future, None), w3)
         ∧ WaitForCompletionRef future w3 = (None, w)
         ∧ calls st' = calls st ++
             [CallGet (TriggerId.ResourceGroup id) (TriggerId.FactoryName id)
                (TriggerId.Name id);
              CallCreateOrUpdate (TriggerId.ResourceGroup id) (TriggerId.FactoryName id)
                (TriggerId.Name id) (trigger_of (data st) schedule);
              CallStart (TriggerId.ResourceGroup id) (TriggerId.FactoryName id)
                (TriggerId.Name id);
              CallWait future;
              CallGet (TriggerId.ResourceGroup id) (TriggerId.FactoryName id)
                (TriggerId.Name id)]
       else w = w2
         ∧ calls st' = calls st ++
             [CallGet (TriggerId.ResourceGroup id) (TriggerId.FactoryName id)
                (TriggerId.Name id);
              CallCreateOrUpdate (TriggerId.ResourceGroup id) (TriggerId.FactoryName id)
                (TriggerId.Name id) (trigger_of (data st) schedule);
              CallGet (TriggerId.ResourceGroup id) (TriggerId.FactoryName id)
                (TriggerId.Name id)])
    ∧ Get (TriggerId.ResourceGroup id) (TriggerId.FactoryName id) (TriggerId.Name id) w
      = ((resp, err), w5)
    ∧ remote st' = w5
    ∧ (err = None →
       ∃ t, Properties resp = Some (IsScheduleTrigger t)
         ∧ attributes (data st') !! "activated"
           = Some (VBool (bool_decide (RuntimeState t = TriggerRuntimeStateStarted)))).
Proof.
  intros Hnew Hround Hrun.
  unfold create_or_update_trigger in Hrun. rewrite Hnew in Hrun.
  run_inv Hrun.
  apply check_not_existing_return in Ha as (existing & err0 & w1 & Hget & Hnone & ->).
  apply lift_go_return in Ha0 as [Hschedule ->].
  rewrite invoke_run in Ha1. cbn [remote data calls] in Ha1. injection Ha1 as <- <-.
  apply check_return in Ha2 as [Hcreate ->].
  destruct (CreateOrUpdate _ _ _ _ w1) as [err1 w2] eqn:Hcou.
  cbn [fst snd] in *. subst err1.
  apply start_if_activated_return in Ha3. cbn [remote data calls] in Ha3.
  injection Ha4 as <-.
  apply read_return in Hrun
    as (id' & resp & err & w5 & Hid' & Hread & Hremote & Hcalls & Hact).
  cbn [data SetId Id remote calls] in Hid', Hread, Hcalls.
  apply Hround in Hid' as ->.
  exists a0, existing, err0, w1, w2, (remote st4), resp, err, w5.
  do 3 (split; [done|]).
  split; [|done].
  destruct (Get_bool (data st) "activated").
  - destruct Ha3 as (future & w3 & w4 & Hstart & Hwait & ->).
    exists future, w3. cbn [calls remote] in *.
    rewrite Hcalls, <- !app_assoc. done.
  - subst st4. cbn [calls remote] in *.
    rewrite Hcalls, <- !app_assoc. done.
Qed.

End create_cycle.

(** ** The schedule codec: encode, decode, and one pass after another *)

(** C2, counterexample: a block none of whose five attributes is populated is
    not encoded as nothing but as a schedule with every field nil, and a week
    outside the [int32] range is not copied as it is. *)
Lemma expand_empty_block_is_not_nothing :
  (∀ key, populated [empty_block] key = false)
  ∧ expandDataFactorySchedule [empty_block] = Done (Some no_schedule_fields)
  ∧ expandDataFactorySchedule [wide_week_block]
    = Done (Some {| Minutes := None; Hours := None; WeekDays := None; MonthDays := None;
                    MonthlyOccurrences :=
                      Some [{| Day := "Monday"; Occurrence := Some 1 |}] |}).
Proof.
  split; [|split; vm_compute; reflexivity].
  intros key. unfold populated, block_field, empty_block, schedule_block, schedule_block_map.
  change (VInt <$> []) with (@nil any). change (VString <$> []) with (@nil any).
  change (monthly_block <$> []) with (@nil any).
  repeat (rewrite lookup_insert; case_decide; [done|]).
  by rewrite lookup_empty.
Qed.

(** C2 (amended): [expandDataFactorySchedule] returns nil exactly when its
    input is empty or its first element is nil. On a block of the schema's
    shape it returns a schedule in which each of the five fields is present
    exactly when the corresponding sequence of the block is not empty, elements
    in the order of the block, names as they are, integers converted to
    [int32], which leaves every integer of the [int32] range as it is. *)
Theorem expand_presence_and_values
    (x : list any) (m : gmap string any) (rest : list any)
    (dom : list Z) (dow : list string) (hrs mins : list Z) (mon : list (string * Z)) :
  (expandDataFactorySchedule x = Done None ↔ x = [] ∨ ∃ rest', x = VNil :: rest')
  ∧ (block_shape m dom dow hrs mins mon →
     ∃ s, expandDataFactorySchedule (VMap m :: rest) = Done (Some s)
       ∧ MonthDays s = nonempty_ptr (int32 <$> dom)
       ∧ WeekDays s = nonempty_ptr dow
       ∧ Hours s = nonempty_ptr (int32 <$> hrs)
       ∧ Minutes s = nonempty_ptr (int32 <$> mins)
       ∧ MonthlyOccurrences s = nonempty_ptr (occurrence_of <$> mon)
       ∧ (Forall in_int32 dom → MonthDays s = nonempty_ptr dom)
       ∧ (Forall in_int32 hrs → Hours s = nonempty_ptr hrs)
       ∧ (Forall in_int32 mins → Minutes s = nonempty_ptr mins)
       ∧ (Forall (fun occ => in_int32 occ.2) mon →
          MonthlyOccurrences s = nonempty_ptr (occurrence_verbatim <$> mon))).
Proof.
  split; [apply expand_nothing_iff|].
  intros Hshape. eexists. split; [by apply expand_block|]. cbn.
  repeat split; try (intros Hl; by rewrite map_int32_id).
  intros Hl. f_equal. apply list_fmap_ext. intros i [day week] Hi.
  rewrite Forall_lookup in Hl. specialize (Hl _ _ Hi).
  unfold occurrence_of, occurrence_verbatim. cbn in *. by rewrite int32_id.
Qed.

(** The block with every attribute populated has the schema's shape, and its
    days of the month are encoded as they are. *)
Lemma expand_presence_and_values_witness :
  block_shape
    (schedule_block_map [1; -1] ["Monday"; "Wednesday"] [0; 24] [30] [("Friday", 2)])
    [1; -1] ["Monday"; "Wednesday"] [0; 24] [30] [("Friday", 2)]
  ∧ ∃ s, expandDataFactorySchedule [full_block] = Done (Some s)
       ∧ MonthDays s = Some [1; -1].
Proof.
  assert (Hshape : block_shape
    (schedule_block_map [1; -1] ["Monday"; "Wednesday"] [0; 24] [30] [("Friday", 2)])
    [1; -1] ["Monday"; "Wednesday"] [0; 24] [30] [("Friday", 2)]).
  { split; vm_compute; reflexivity. }
  split; [exact Hshape|].
  destruct (expand_presence_and_values []
    (schedule_block_map [1; -1] ["Monday"; "Wednesday"] [0; 24] [30] [("Friday", 2)])
    [] [1; -1] ["Monday"; "Wednesday"] [0; 24] [30] [("Friday", 2)]) as [_ H].
  destruct (H Hshape) as (s & Hs & Hdom & _).
  exists s. split; [exact Hs|exact Hdom].
Defined.

(** C3, counterexample: for a nil remote schedule
    [flattenDataFactorySchedule] returns the empty sequence, no block at all,
    not a block with every attribute empty. *)
Lemma flatten_nothing_is_no_block :
  flattenDataFactorySchedule None = []
  ∧ length (flattenDataFactorySchedule None) ≠ 1%nat
  ∧ flattenDataFactorySchedule None ≠ [VMap ∅].
Proof. repeat split; cbn; [lia|discriminate]. Qed.

(** C3 (amended): for a nil remote schedule [flattenDataFactorySchedule]
    returns the empty sequence (never nil, and no block); for every non-nil
    remote schedule it returns exactly one block, in which each populated
    remote field is copied under its key, in order, and a nil field, like every
    other key, is left out. *)
Theorem flatten_copies_populated_fields (s : RecurrenceSchedule) :
  flattenDataFactorySchedule None = []
  ∧ ∃ m, flattenDataFactorySchedule (Some s) = [VMap m]
    ∧ m !! "minutes" = flat_ints (Minutes s)
    ∧ m !! "hours" = flat_ints (Hours s)
    ∧ m !! "days_of_week" = flat_strings (WeekDays s)
    ∧ m !! "days_of_month" = flat_ints (MonthDays s)
    ∧ m !! "monthly" = flat_monthly (MonthlyOccurrences s)
    ∧ ∀ k, k ∉ schedule_keys → m !! k = None.
Proof. split; [done|apply flatten_block]. Qed.

(** C1, counterexample: what [flattenDataFactorySchedule] returns cannot be
    given to [expandDataFactorySchedule] as it is. The decoded block leaves
    out the keys of the nil fields, and the type assertion on a key that is
    not there panics, so the second pass has no result. *)
Lemma codec_second_pass_panics :
  populated [monday_block] "days_of_week" = true
  ∧ codec_pass [monday_block] = Done (flattenDataFactorySchedule (Some monday_schedule))
  ∧ (y ← codec_pass [monday_block]; codec_pass y) = Panic
  ∧ (y ← codec_pass [full_block]; codec_pass y) = Panic.
Proof. repeat split; vm_compute; reflexivity. Qed.

(** C1 (amended): for every declarative schedule whose first block has the
    types [expandDataFactorySchedule] asserts and at least one populated
    attribute, one encode/decode pass has a result [y]; once [y] is read back
    through the schema of the resource, a second pass gives [y] again; and
    every attribute that is not populated in the block is left out of [y]. *)
Theorem codec_idempotent_through_schema (m : gmap string any) (rest : list any)
    (populated_key : string) :
  block_ok m = true →
  populated_key ∈ schedule_keys →
  populated (VMap m :: rest) populated_key = true →
  ∃ y, codec_pass (VMap m :: rest) = Done y
    ∧ codec_pass (schema_read_schedule y) = Done y
    ∧ ∀ key, populated (VMap m :: rest) key = false → block_field y key = None.
Proof.
  intros Hok Hin Hpopulated. rewrite <- (expand_defined m rest) in Hok.
  unfold codec_pass at 1.
  destruct (expandDataFactorySchedule (VMap m :: rest)) as [r|] eqn:Hexpand;
    [|discriminate].
  eexists. split; [reflexivity|]. split.
  - unfold codec_pass.
    by rewrite (expand_pass_fixed _ _ Hexpand
                  (expand_populated_field _ _ _ Hexpand Hin Hpopulated)).
  - intros key Hkey.
    destruct r as [s|]; [|done].
    destruct (block_field (flattenDataFactorySchedule (Some s)) key) eqn:Hfield; [|done].
    rewrite (expand_present_populated _ s key) in Hkey; [discriminate|done|].
    rewrite Hfield. eauto.
Qed.

(** One pass on the block with every attribute populated, and a second pass
    after the schema has read the result back. *)
Lemma codec_idempotent_through_schema_witness :
  block_ok (schedule_block_map [1; -1] ["Monday"; "Wednesday"] [0; 24] [30] [("Friday", 2)])
    = true
  ∧ "hours" ∈ schedule_keys
  ∧ populated [full_block] "hours" = true
  ∧ codec_pass [full_block] = Done (flattenDataFactorySchedule (Some full_schedule))
  ∧ codec_pass (schema_read_schedule (flattenDataFactorySchedule (Some full_schedule)))
    = Done (flattenDataFactorySchedule (Some full_schedule))
  ∧ ∀ key, populated [full_block] key = false →
      block_field (flattenDataFactorySchedule (Some full_schedule)) key = None.
Proof.
  assert (Hok : block_ok (schedule_block_map [1; -1] ["Monday"; "Wednesday"] [0; 24] [30]
                            [("Friday", 2)]) = true) by (vm_compute; reflexivity).
  assert (Hin : "hours" ∈ schedule_keys) by (unfold schedule_keys; set_solver).
  assert (Hpopulated : populated [full_block] "hours" = true) by (vm_compute; reflexivity).
  assert (Hpass : codec_pass [full_block]
                  = Done (flattenDataFactorySchedule (Some full_schedule)))
    by (vm_compute; reflexivity).
  split; [exact Hok|]. split; [exact Hin|]. split; [exact Hpopulated|].
  split; [exact Hpass|].
  destruct (codec_idempotent_through_schema _ [] "hours" Hok Hin Hpopulated)
    as (y & Hy & Hagain & Habsent).
  unfold full_block, schedule_block in Hpass. rewrite Hpass in Hy. injection Hy as <-.
  split; [exact Hagain|exact Habsent].
Defined.

(** ** Deletion stops the trigger first *)

Section deletion_claims.
Context {World : Type} {client : TriggersClient World}.
Context {parse : Parse} {clock : Clock} {meta : Meta}.

(** C4: in every run of the delete function a delete call is preceded by
    the stop call and by the wait for it, both without error, and nothing
    else is called. Whenever the identifier parses, stop is the first call,
    whatever the state of the remote object, which is never looked at. When
    the stop call or the wait for it returns an error (the deadline of the
    context included), the function returns that error and no delete call
    is issued. When both return no error the delete call is issued, as the
    third and last call, on the remote system as the wait left it, and the
    function returns what that call returns. *)
Theorem delete_stops_first (st : state World) (r : result unit) (st' : state World) :
  resourceDataFactoryTriggerScheduleDelete st = (r, st') →
  ∃ new, calls st' = calls st ++ new
    ∧ (∀ pre c post, new = pre ++ c :: post → is_delete c = true →
         ∃ id future w1 w2,
           TriggerID (Id (data st)) = Parsed id
           ∧ pre = [CallStop (TriggerId.ResourceGroup id) (TriggerId.FactoryName id)
                      (TriggerId.Name id); CallWait future]
           ∧ c = CallDelete (TriggerId.ResourceGroup id) (TriggerId.FactoryName id)
                   (TriggerId.Name id)
           ∧ post = []
           ∧ Stop (TriggerId.ResourceGroup id) (TriggerId.FactoryName id)
               (TriggerId.Name id) (remote st) = ((future, None), w1)
           ∧ WaitForCompletionRef future w1 = (None, w2))
    ∧ (∀ id, TriggerID (Id (data st)) = Parsed id →
         head new = Some (CallStop (TriggerId.ResourceGroup id) (TriggerId.FactoryName id)
                            (TriggerId.Name id)))
    ∧ (∀ id future cause w1,
         TriggerID (Id (data st)) = Parsed id →
         Stop (TriggerId.ResourceGroup id) (TriggerId.FactoryName id) (TriggerId.Name id)
           (remote st) = ((future, Some cause), w1) →
         r = Fail (Stopping id cause)
         ∧ new = [CallStop (TriggerId.ResourceGroup id) (TriggerId.FactoryName id)
                    (TriggerId.Name id)]
         ∧ remote st' = w1)
    ∧ (∀ id future w1 cause w2,
         TriggerID (Id (data st)) = Parsed id →
         Stop (TriggerId.ResourceGroup id) (TriggerId.FactoryName id) (TriggerId.Name id)
           (remote st) = ((future, None), w1) →
         WaitForCompletionRef future w1 = (Some cause, w2) →
         r = Fail (WaitingToStop id cause)
         ∧ new = [CallStop (TriggerId.ResourceGroup id) (TriggerId.FactoryName id)
                    (TriggerId.Name id); CallWait future]
         ∧ remote st' = w2)
    ∧ (∀ id future w1 w2 err w3,
         TriggerID (Id (data st)) = Parsed id →
         Stop (TriggerId.ResourceGroup id) (TriggerId.FactoryName id) (TriggerId.Name id)
           (remote st) = ((future, None), w1) →
         WaitForCompletionRef future w1 = (None, w2) →
         Delete (TriggerId.ResourceGroup id) (TriggerId.FactoryName id) (TriggerId.Name id)
           w2 = (err, w3) →
         r = match err with
             | Some cause => Fail (Deleting id cause)
             | None => Return tt
             end
         ∧ new = [CallStop (TriggerId.ResourceGroup id) (TriggerId.FactoryName id)
                    (TriggerId.Name id);
                  CallWait future;
                  CallDelete (TriggerId.ResourceGroup id) (TriggerId.FactoryName id)
                    (TriggerId.Name id)]
         ∧ remote st' = w3).
Proof.
  intros Hrun. destruct (delete_cases st) as [new Hcase].
  rewrite Hrun in Hcase. cbn [fst snd] in Hcase.
  exists new. split; [by eapply delete_outcome_calls|].
  destruct Hcase as [msg Hid|id future cause w1 Hid Hstop
                    |id future w1 cause w2 Hid Hstop Hwait
                    |id future w1 w2 err w3 Hid Hstop Hwait Hdelete];
    (split; [|split; [|split; [|split]]]).
  - intros pre c post Hnew. by destruct pre.
  - intros id' Hid'. congruence.
  - intros id' future cause w1 Hid'. congruence.
  - intros id' future w1 cause w2 Hid'. congruence.
  - intros id' future w1 w2 err w3 Hid'. congruence.
  - intros pre c post Hnew Hc.
    destruct pre as [|? [|? [|? [|? pre]]]]; simplify_eq/=; by destruct pre.
  - intros id' Hid'. same_run. done.
  - intros id' future' cause' w1' Hid' Hstop'. by same_run.
  - intros id' future' w1' cause' w2' Hid' Hstop'. same_run.
  - intros id' future' w1' w2' err' w3' Hid' Hstop'. same_run.
  - intros pre c post Hnew Hc.
    destruct pre as [|? [|? [|? [|? pre]]]]; simplify_eq/=; by destruct pre.
  - intros id' Hid'. same_run. done.
  - intros id' future' cause' w1' Hid' Hstop'. same_run.
  - intros id' future' w1' cause' w2' Hid' Hstop' Hwait'. by same_run.
  - intros id' future' w1' w2' err' w3' Hid' Hstop' Hwait'. same_run.
  - intros pre c post Hnew Hc.
    destruct pre as [|? [|? [|? [|? pre]]]]; simplify_eq/=; try by destruct pre.
    exists id, future, w1, w2. done.
  - intros id' Hid'. same_run. done.
  - intros id' future' cause' w1' Hid' Hstop'. same_run.
  - intros id' future' w1' cause' w2' Hid' Hstop' Hwait'. same_run.
  - intros id' future' w1' w2' err' w3' Hid' Hstop' Hwait' Hdelete'. by same_run.
Qed.

End deletion_claims.

(** ** Identity resolution and the existence check of a creation *)

Section creation_claims.
Context {World : Type} {client : TriggersClient World}.
Context {parse : Parse} {clock : Clock} {meta : Meta}.

(** C5: when the resource is new, the identifier resolves and [Get] answers
    for it without error with an object that has a non-empty id, the
    create-or-update function returns the import-as-exists error for that
    id; the existence check is the only call it has issued, so there is no
    create-or-update call. *)
Theorem create_of_existing_is_refused (st : state World) (factory : DataFactoryId.t)
    (existing : TriggerResource) (w1 : World) (existingId : string) :
  IsNewResource (data st) = true →
  select_data_factory_id (data st) = Parsed (Some factory) →
  Get (DataFactoryId.ResourceGroup factory) (DataFactoryId.FactoryName factory)
    (Get_string (data st) "name") (remote st) = ((existing, None), w1) →
  ID existing = Some existingId →
  existingId ≠ "" →
  ∃ st',
    resourceDataFactoryTriggerScheduleCreateUpdate st =
      (Fail (ImportAsExistsError "azurerm_data_factory_trigger_schedule" existingId), st')
    ∧ calls st' = calls st ++ [CallGet (DataFactoryId.ResourceGroup factory)
                                 (DataFactoryId.FactoryName factory)
                                 (Get_string (data st) "name")]
    ∧ data st' = data st
    ∧ remote st' = w1.
Proof.
  intros Hnew Hsel Hget Hid Hne.
  rewrite create_update_run, Hsel.
  unfold create_or_update_trigger. rewrite Hnew, bind_run.
  erewrite check_not_existing_found by eauto.
  eexists. split; [reflexivity|]. done.
Qed.

(** C8: the factory identifier is taken from whichever of
    [data_factory_name] and [data_factory_id] is not empty: from the name
    (with the subscription of the account and the resource group) when only
    the name is given, from the parsed [data_factory_id] whenever that
    attribute is not empty, whether or not the name is given as well. The
    identifier so selected is the one the cycle works with. *)
Theorem factory_identifier_selection (st : state World) :
  (Get_string (data st) "data_factory_id" = "" →
   Get_string (data st) "data_factory_name" ≠ "" →
   select_data_factory_id (data st) =
     Parsed (Some (NewDataFactoryID subscriptionId
                     (Get_string (data st) "resource_group_name")
                     (Get_string (data st) "data_factory_name"))))
  ∧ (Get_string (data st) "data_factory_id" ≠ "" →
     select_data_factory_id (data st) =
       match DataFactoryID (Get_string (data st) "data_factory_id") with
       | Parsed id => Parsed (Some id)
       | ParseError msg => ParseError msg
       end)
  ∧ (∀ factory, select_data_factory_id (data st) = Parsed (Some factory) →
       resourceDataFactoryTriggerScheduleCreateUpdate st =
         create_or_update_trigger (data st)
           (NewTriggerID subscriptionId (DataFactoryId.ResourceGroup factory)
              (DataFactoryId.FactoryName factory) (Get_string (data st) "name")) st).
Proof.
  split; [|split].
  - intros Hid Hname. unfold select_data_factory_id.
    rewrite (bool_decide_eq_true_2 _ Hname), Hid. done.
  - intros Hid. unfold select_data_factory_id.
    by rewrite (bool_decide_eq_true_2 _ Hid).
  - intros factory Hsel. by rewrite create_update_run, Hsel.
Qed.

(** C9: when [data_factory_name] and [data_factory_id] are both empty the
    create-or-update function panics on the nil factory identifier before
    any call and without touching the resource data; when one of them is
    not empty the factory identifier is not nil. *)
Theorem create_update_needs_a_factory_selector (st : state World) :
  (Get_string (data st) "data_factory_name" = "" →
   Get_string (data st) "data_factory_id" = "" →
   select_data_factory_id (data st) = Parsed None
   ∧ resourceDataFactoryTriggerScheduleCreateUpdate st = (Crash, st))
  ∧ (Get_string (data st) "data_factory_name" ≠ ""
     ∨ Get_string (data st) "data_factory_id" ≠ "" →
     select_data_factory_id (data st) ≠ Parsed None).
Proof.
  split.
  - intros Hname Hid.
    assert (Hsel : select_data_factory_id (data st) = Parsed None).
    { unfold select_data_factory_id. by rewrite Hname, Hid. }
    split; [done|]. by rewrite create_update_run, Hsel.
  - intros Hsome. unfold select_data_factory_id.
    destruct (bool_decide (Get_string (data st) "data_factory_id" ≠ "")) eqn:Hid.
    + by destruct (DataFactoryID _).
    + apply bool_decide_eq_false in Hid.
      destruct Hsome as [Hname|Hid']; [|done].
      by rewrite (bool_decide_eq_true_2 _ Hname).
Qed.

End creation_claims.

(** ** The read *)

Section read_claims.
Context {World : Type} {client : TriggersClient World}.
Context {parse : Parse} {clock : Clock} {meta : Meta}.

(** C7 (amended): on a read that finds the remote object, a trigger of
    another kind (with its type string in the response) ends the read with
    the classification error, and nothing of the trigger is projected: only
    the four attributes written before the kind is looked at (name,
    resource group name, data factory name, data factory id) have been set,
    every other attribute and the identifier are as before. A schedule
    trigger is never answered with a classification error. *)
Theorem read_classifies_before_projecting (st : state World) (id : TriggerId.t)
    (resp : TriggerResource) (w1 : World) :
  TriggerID (Id (data st)) = Parsed id →
  Get (TriggerId.ResourceGroup id) (TriggerId.FactoryName id) (TriggerId.Name id)
    (remote st) = ((resp, None), w1) →
  (∀ kind received,
     Properties resp = Some (IsOtherTrigger kind) →
     Type_ resp = Some received →
     ∃ st',
       resourceDataFactoryTriggerScheduleRead st =
         (Fail (Classifying id TypeBasicTriggerTypeScheduleTrigger received), st')
       ∧ attributes (data st') !! "name" = VString <$> Name resp
       ∧ attributes (data st') !! "resource_group_name"
         = Some (VString (TriggerId.ResourceGroup id))
       ∧ attributes (data st') !! "data_factory_name"
         = Some (VString (TriggerId.FactoryName id))
       ∧ attributes (data st') !! "data_factory_id"
         = Some (VString (DataFactoryId_ID
                   (NewDataFactoryID (TriggerId.SubscriptionId id)
                      (TriggerId.ResourceGroup id) (TriggerId.FactoryName id))))
       ∧ Id (data st') = Id (data st)
       ∧ ∀ k, k ∉ identity_keys →
           attributes (data st') !! k = attributes (data st) !! k)
  ∧ (∀ t, Properties resp = Some (IsScheduleTrigger t) →
       ∀ id' expected received,
         (resourceDataFactoryTriggerScheduleRead st).1
           ≠ Fail (Classifying id' expected received)).
Proof.
  intros Hid Hget. split.
  - intros kind received Hprops Htype.
    rewrite (read_run st _ _ _ _ Hid Hget).
    erewrite read_response_other_kind by eauto.
    eexists. split; [reflexivity|]. cbn [data].
    apply set_identity_lookup.
  - intros t Hprops id' expected received.
    rewrite (read_run st _ _ _ _ Hid Hget).
    by eapply read_response_schedule_classified.
Qed.


End read_claims.

(** ** Activation on creation *)

Section activation_claims.
Context {World : Type} {client : TriggersClient World}.
Context {parse : Parse} {clock : Clock} {meta : Meta}.

(** C6: for a new resource whose cycle succeeds, with an identifier that is
    parsed back from its own path. When [activated] is false the calls of
    the cycle are the existence check, the create-or-update and the get of
    the read, no start among them. When [activated] is true the start
    follows the create-or-update, its wait follows the start, both without
    error, then comes the get of the read. In both cases the read sets
    [activated] from what its get answers, on the remote system as the
    calls before it left it: to whether the runtime state of the trigger
    found is Started. Against a remote system that keeps to what the spec
    says of it (a created object is found and is not started, an object
    whose start has completed is found started) that get finds the trigger,
    and the read sets [activated] to false in the first case and to true in
    the second. *)
Theorem activation_after_create (st st' : state World) (factory : DataFactoryId.t)
    (id : TriggerId.t) :
  IsNewResource (data st) = true →
  select_data_factory_id (data st) = Parsed (Some factory) →
  id = NewTriggerID subscriptionId (DataFactoryId.ResourceGroup factory)
         (DataFactoryId.FactoryName factory) (Get_string (data st) "name") →
  (∀ id', TriggerID (TriggerId_ID id) = Parsed id' → id' = id) →
  resourceDataFactoryTriggerScheduleCreateUpdate st = (Return tt, st') →
  ∃ schedule existing err0 w1 w2 w resp err new,
    calls st' = calls st ++ new
    ∧ Get (TriggerId.ResourceGroup id) (TriggerId.FactoryName id) (TriggerId.Name id)
        (remote st) = ((existing, err0), w1)
    ∧ CreateOrUpdate (TriggerId.ResourceGroup id) (TriggerId.FactoryName id)
        (TriggerId.Name id) (trigger_of (data st) schedule) w1 = (None, w2)
    ∧ (if Get_bool (data st) "activated"
       then ∃ future w3,
         new = [CallGet (TriggerId.ResourceGroup id) (TriggerId.FactoryName id)
                  (TriggerId.Name id);
                CallCreateOrUpdate (TriggerId.ResourceGroup id)
                  (TriggerId.FactoryName id) (TriggerId.Name id)
                  (trigger_of (data st) schedule);
                CallStart (TriggerId.ResourceGroup id) (TriggerId.FactoryName id)
                  (TriggerId.Name id);
                CallWait future;
                CallGet (TriggerId.ResourceGroup id) (TriggerId.FactoryName id)
                  (TriggerId.Name id)]
         ∧ Start (TriggerId.ResourceGroup id) (TriggerId.FactoryName id)
             (TriggerId.Name id) w2 = ((future, None), w3)
         ∧ WaitForCompletionRef future w3 = (None, w)
       else
         new = [CallGet (TriggerId.ResourceGroup id) (TriggerId.FactoryName id)
                  (TriggerId.Name id);
                CallCreateOrUpdate (TriggerId.ResourceGroup id)
                  (TriggerId.FactoryName id) (TriggerId.Name id)
                  (trigger_of (data st) schedule);
                CallGet (TriggerId.ResourceGroup id) (TriggerId.FactoryName id)
                  (TriggerId.Name id)]
         ∧ (∀ c, c ∈ new → is_start c = false)
         ∧ w = w2)
    ∧ Get (TriggerId.ResourceGroup id) (TriggerId.FactoryName id) (TriggerId.Name id) w
      = ((resp, err), remote st')
    ∧ (err = None →
       ∃ t, Properties resp = Some (IsScheduleTrigger t)
         ∧ attributes (data st') !! "activated"
           = Some (VBool (bool_decide (RuntimeState t = TriggerRuntimeStateStarted))))
    ∧ (RemoteLaws client →
       err = None
       ∧ Get_bool (data st') "activated" = Get_bool (data st) "activated").
Proof.
  intros Hnew Hsel -> Hround Hrun.
  rewrite create_update_run, Hsel in Hrun.
  apply create_cycle_return in Hrun
    as (schedule & existing & err0 & w1 & w2 & w & resp & err & w5
        & Hget & Hnone & Hcreate & Hstart & Hread & <- & Hact); [|done..].
  exists schedule, existing, err0, w1, w2, w, resp, err.
  destruct (Get_bool (data st) "activated") eqn:Hactivated.
  - destruct Hstart as (future & w3 & Hstart & Hwait & Hcalls).
    eexists. split; [exact Hcalls|]. do 2 (split; [done|]).
    split; [by exists future, w3|]. do 2 (split; [done|]).
    intros Hlaws.
    destruct (started_after_start _ _ _ _ _ _ _ _ _ _ Hstart Hwait Hread)
      as [-> Hstarted].
    split; [done|].
    destruct (Hact eq_refl) as (t & Hprops & Hattr).
    unfold Get_bool. rewrite Hattr.
    by rewrite (bool_decide_eq_true_2 _ (Hstarted _ Hprops)).
  - destruct Hstart as [-> Hcalls].
    eexists. split; [exact Hcalls|]. do 2 (split; [done|]).
    split.
    { split; [done|]. split; [|done].
      intros c Hc. rewrite !elem_of_cons in Hc.
      destruct Hc as [->|[->|[->|Hc]]]; [done..|by apply elem_of_nil in Hc]. }
    do 2 (split; [done|]).
    intros Hlaws.
    destruct (created_is_not_started _ _ _ _ _ _ _ _ _ _ _ _ Hget Hnone Hcreate Hread)
      as [-> Hstopped].
    split; [done|].
    destruct (Hact eq_refl) as (t & Hprops & Hattr).
    unfold Get_bool. rewrite Hattr.
    by rewrite (bool_decide_eq_false_2 _ (Hstopped _ Hprops)).
Qed.

End activation_claims.

(** ** The sample remote system keeps to the laws *)

Lemma sample_trigger_path_nonempty id : Sample.trigger_path id ≠ "".
Proof. unfold Sample.trigger_path. cbn. discriminate. Qed.

Lemma sample_remote_laws : RemoteLaws Sample.client.
Proof.
  split.
  - intros rg fn n w existing err0 w1 trigger w2 resp err w3 Hget Hnone Hcreate Hread.
    cbn in Hget, Hcreate, Hread. unfold Sample.get in Hget.
    destruct (Sample.triggers w !! (rg, fn, n)) as [t0|] eqn:Hw.
    { injection Hget as <- <- <-. cbn in Hnone.
      destruct Hnone as [|Hempty]; [discriminate|].
      injection Hempty as Hempty. by apply sample_trigger_path_nonempty in Hempty. }
    injection Hget as <- <- <-.
    unfold Sample.create_or_update in Hcreate. rewrite Hw in Hcreate.
    unfold Sample.get in Hread.
    destruct (Properties trigger) as [[t|kind]|]; [| |discriminate];
      injection Hcreate as <-; cbn in Hread; rewrite lookup_insert_eq in Hread;
      injection Hread as <- <- <-; (split; [done|]); intros t' Ht'; cbn in Ht'.
    + injection Ht' as <-. cbn. discriminate.
    + discriminate.
  - intros rg fn n w future w1 w2 resp err w3 Hstart Hwait Hread.
    cbn in Hstart, Hwait, Hread. unfold Sample.set_runtime_state in Hstart.
    unfold Sample.wait in Hwait. unfold Sample.get in Hread.
    destruct (Sample.triggers w !! (rg, fn, n)) as [[t0|kind]|] eqn:Hw;
      [| |discriminate]; injection Hstart as <- <-;
      (destruct (Sample.waits_left _); [discriminate|]); injection Hwait as <-;
      cbn in Hread.
    + rewrite lookup_insert_eq in Hread. injection Hread as <- <- <-.
      split; [done|]. intros t' Ht'. cbn in Ht'. by injection Ht' as <-.
    + rewrite Hw in Hread. injection Hread as <- <- <-.
      split; [done|]. intros t' Ht'. discriminate.
Qed.

(** ** The resource functions on the sample *)

Import Sample.

(** A stopped trigger. With no wait left before the deadline the stop is
    issued, its wait fails, no delete follows and the trigger is still there;
    with a wait left the delete follows the stop and its wait, and the
    trigger is gone. *)
Lemma delete_stops_first_witness :
  (∃ st',
     resourceDataFactoryTriggerScheduleDelete
       (start_state known (one_trigger (IsScheduleTrigger plain_trigger) 0))
     = (Fail (WaitingToStop (NewTriggerID "sub" "rg" "df" "t1") "context deadline exceeded"),
        st')
     ∧ calls st' = [CallStop "rg" "df" "t1"; CallWait "t1/Stopped"]
     ∧ is_Some (triggers (remote st') !! ("rg", "df", "t1")))
  ∧ (∃ st',
     resourceDataFactoryTriggerScheduleDelete
       (start_state known (one_trigger (IsScheduleTrigger plain_trigger) 1))
     = (Return tt, st')
     ∧ calls st' = [CallStop "rg" "df" "t1"; CallWait "t1/Stopped"; CallDelete "rg" "df" "t1"]
     ∧ triggers (remote st') !! ("rg", "df", "t1") = None).
Proof.
  split.
  - destruct (resourceDataFactoryTriggerScheduleDelete
                (start_state known (one_trigger (IsScheduleTrigger plain_trigger) 0)))
      as [r st'] eqn:Hrun.
    destruct (delete_stops_first _ _ _ Hrun) as (new & Hcalls & _ & _ & _ & Hwait & _).
    assert (Hstop : ∃ w1, Stop "rg" "df" "t1" (one_trigger (IsScheduleTrigger plain_trigger) 0)
                          = (("t1/Stopped", None), w1)
                          ∧ WaitForCompletionRef "t1/Stopped" w1
                            = (Some "context deadline exceeded", w1)
                          ∧ is_Some (triggers w1 !! ("rg", "df", "t1"))).
    { eexists. split; [vm_compute; reflexivity|]. split; [vm_compute; reflexivity|].
      vm_compute. eauto. }
    destruct Hstop as (w1 & Hstop & Hdeadline & Hthere).
    destruct (Hwait (NewTriggerID "sub" "rg" "df" "t1") _ _ _ _ eq_refl Hstop Hdeadline)
      as (Hr & Hnew & Hremote).
    exists st'. rewrite Hr, Hremote, Hcalls, Hnew. done.
  - destruct (resourceDataFactoryTriggerScheduleDelete
                (start_state known (one_trigger (IsScheduleTrigger plain_trigger) 1)))
      as [r st'] eqn:Hrun.
    destruct (delete_stops_first _ _ _ Hrun) as (new & Hcalls & _ & _ & _ & _ & Hdelete).
    assert (Hstop : ∃ w1 w2 w3,
              Stop "rg" "df" "t1" (one_trigger (IsScheduleTrigger plain_trigger) 1)
              = (("t1/Stopped", None), w1)
              ∧ WaitForCompletionRef "t1/Stopped" w1 = (None, w2)
              ∧ Delete "rg" "df" "t1" w2 = (None, w3)
              ∧ triggers w3 !! ("rg", "df", "t1") = None).
    { eexists _, _, _. split; [vm_compute; reflexivity|]. split; [vm_compute; reflexivity|].
      split; vm_compute; reflexivity. }
    destruct Hstop as (w1 & w2 & w3 & Hstop & Hwait & Hremove & Hgone).
    destruct (Hdelete (NewTriggerID "sub" "rg" "df" "t1") _ _ _ _ _ eq_refl Hstop Hwait Hremove)
      as (Hr & Hnew & Hremote).
    exists st'. rewrite Hr, Hremote, Hcalls, Hnew. done.
Defined.

(** A creation under the name of a trigger that is there already. *)
Lemma create_of_existing_is_refused_witness :
  ∃ st',
    resourceDataFactoryTriggerScheduleCreateUpdate
      (start_state (desired true) (one_trigger (IsScheduleTrigger plain_trigger) 3))
    = (Fail (ImportAsExistsError "azurerm_data_factory_trigger_schedule" trigger_id), st')
    ∧ calls st' = [CallGet "rg" "df" "t1"].
Proof.
  destruct (create_of_existing_is_refused
              (start_state (desired true) (one_trigger (IsScheduleTrigger plain_trigger) 3))
              (NewDataFactoryID "sub" "rg" "df")
              (found "rg" "df" "t1" (IsScheduleTrigger plain_trigger))
              (one_trigger (IsScheduleTrigger plain_trigger) 3)
              trigger_id)
    as (st' & Hrun & Hcalls & _); [vm_compute; reflexivity..|discriminate|].
  exists st'. split; [exact Hrun|exact Hcalls].
Defined.

(** The sample identifier is parsed back from its path. *)
Lemma sample_round_trip (id : TriggerId.t) :
  TriggerID (TriggerId_ID (NewTriggerID "sub" "rg" "df" "t1")) = Parsed id →
  id = NewTriggerID "sub" "rg" "df" "t1".
Proof. vm_compute. by intros [= <-]. Qed.

(** A creation with and without activation on an empty remote system: the
    calls, and what the read sets. *)
Lemma activation_after_create_witness :
  (∃ st' trigger,
     resourceDataFactoryTriggerScheduleCreateUpdate
       (start_state (desired true) (no_triggers 3)) = (Return tt, st')
     ∧ calls st' = [CallGet "rg" "df" "t1"; CallCreateOrUpdate "rg" "df" "t1" trigger;
                    CallStart "rg" "df" "t1"; CallWait "t1/Started";
                    CallGet "rg" "df" "t1"]
     ∧ Get_bool (data st') "activated" = true)
  ∧ (∃ st' trigger,
     resourceDataFactoryTriggerScheduleCreateUpdate
       (start_state (desired false) (no_triggers 3)) = (Return tt, st')
     ∧ calls st' = [CallGet "rg" "df" "t1"; CallCreateOrUpdate "rg" "df" "t1" trigger;
                    CallGet "rg" "df" "t1"]
     ∧ Get_bool (data st') "activated" = false).
Proof.
  assert (Hcycle : ∀ activated,
            ∃ st' trigger,
              resourceDataFactoryTriggerScheduleCreateUpdate
                (start_state (desired activated) (no_triggers 3)) = (Return tt, st')
              ∧ calls st' =
                  (if activated
                   then [CallGet "rg" "df" "t1"; CallCreateOrUpdate "rg" "df" "t1" trigger;
                         CallStart "rg" "df" "t1"; CallWait "t1/Started";
                         CallGet "rg" "df" "t1"]
                   else [CallGet "rg" "df" "t1"; CallCreateOrUpdate "rg" "df" "t1" trigger;
                         CallGet "rg" "df" "t1"])
              ∧ Get_bool (data st') "activated" = activated).
  { intros activated.
    assert (Hrun : ∃ st', resourceDataFactoryTriggerScheduleCreateUpdate
                            (start_state (desired activated) (no_triggers 3))
                          = (Return tt, st')).
    { destruct activated; eexists; vm_compute; reflexivity. }
    destruct Hrun as [st' Hrun].
    assert (Hsel : select_data_factory_id
                     (data (start_state (desired activated) (no_triggers 3)))
                   = Parsed (Some (NewDataFactoryID "sub" "rg" "df")))
      by (destruct activated; vm_compute; reflexivity).
    assert (Hid : NewTriggerID "sub" "rg" "df" "t1"
                  = NewTriggerID subscriptionId "rg" "df"
                      (Get_string (data (start_state (desired activated) (no_triggers 3)))
                         "name"))
      by (destruct activated; vm_compute; reflexivity).
    assert (Hflag : Get_bool (data (start_state (desired activated) (no_triggers 3)))
                      "activated" = activated)
      by (destruct activated; vm_compute; reflexivity).
    destruct (activation_after_create
                (start_state (desired activated) (no_triggers 3)) st'
                (NewDataFactoryID "sub" "rg" "df") (NewTriggerID "sub" "rg" "df" "t1")
                eq_refl Hsel Hid sample_round_trip Hrun)
      as (schedule & existing & err0 & w1 & w2 & w & resp & err & new
          & Hcalls & Hget & Hcreate & Hnew & Hread & Hact & Hlaws).
    destruct (Hlaws sample_remote_laws) as [_ Hactivated].
    exists st', (trigger_of (desired activated) schedule).
    split; [exact Hrun|]. split; [|by rewrite Hactivated, Hflag].
    rewrite Hcalls. rewrite Hflag in Hnew. cbn [start_state calls app].
    destruct activated.
    - destruct Hnew as (future & w3 & -> & Hstart & Hwait).
      assert (Hfuture : future = "t1/Started").
      { vm_compute in Hget. injection Hget as _ _ <-.
        vm_compute in Hcreate. injection Hcreate as <-.
        vm_compute in Hstart. by injection Hstart as <- _. }
      by rewrite Hfuture.
    - by destruct Hnew as (-> & _ & _). }
  split; apply Hcycle.
Defined.

(** C7, counterexample: the read of a trigger of another kind ends with the
    classification error, but the resource data are not what they were: the
    name (like the other three attributes of the identity) has been set. *)
Lemma read_of_other_kind_sets_identity :
  ∃ st',
    resourceDataFactoryTriggerScheduleRead
      (start_state known (one_trigger (IsOtherTrigger "BlobEventsTrigger") 0))
    = (Fail (Classifying (NewTriggerID "sub" "rg" "df" "t1")
               TypeBasicTriggerTypeScheduleTrigger resource_type), st')
    ∧ attributes known !! "name" = None
    ∧ attributes (data st') !! "name" = Some (VString "t1")
    ∧ data st' ≠ known.
Proof.
  eexists. split; [vm_compute; reflexivity|].
  split; [vm_compute; reflexivity|].
  split; [vm_compute; reflexivity|].
  intros H. apply (f_equal (fun d => attributes d !! "name")) in H.
  vm_compute in H. discriminate.
Qed.

(** The read of a blob events trigger leaves the stored schedule alone and
    sets no activation. *)
Lemma read_classifies_before_projecting_witness :
  ∃ st',
    resourceDataFactoryTriggerScheduleRead
      (start_state known (one_trigger (IsOtherTrigger "BlobEventsTrigger") 0))
    = (Fail (Classifying (NewTriggerID "sub" "rg" "df" "t1")
               TypeBasicTriggerTypeScheduleTrigger resource_type), st')
    ∧ attributes (data st') !! "schedule" = Some (VList [monday_block])
    ∧ attributes (data st') !! "activated" = None.
Proof.
  destruct (read_classifies_before_projecting
              (start_state known (one_trigger (IsOtherTrigger "BlobEventsTrigger") 0))
              (NewTriggerID "sub" "rg" "df" "t1")
              (found "rg" "df" "t1" (IsOtherTrigger "BlobEventsTrigger"))
              (one_trigger (IsOtherTrigger "BlobEventsTrigger") 0))
    as [Hother _]; [vm_compute; reflexivity..|].
  destruct (Hother "BlobEventsTrigger" resource_type eq_refl eq_refl)
    as (st' & Hrun & _ & _ & _ & _ & _ & Hframe).
  exists st'. split; [exact Hrun|].
  rewrite !Hframe by (eapply bool_decide_eq_false; vm_compute; reflexivity).
  split; vm_compute; reflexivity.
Defined.

(** With both attributes given the identifier comes from [data_factory_id];
    with the name alone, from the name. *)
Lemma factory_identifier_selection_witness :
  Get_string both_selectors "data_factory_name" = "df"
  ∧ Get_string both_selectors "data_factory_id" = other_factory
  ∧ select_data_factory_id both_selectors = Parsed (Some (NewDataFactoryID "sub2" "rg2" "df2"))
  ∧ select_data_factory_id (desired true) = Parsed (Some (NewDataFactoryID "sub" "rg" "df")).
Proof.
  split; [vm_compute; reflexivity|]. split; [vm_compute; reflexivity|].
  destruct (factory_identifier_selection (start_state both_selectors (no_triggers 0)))
    as (_ & Hid & _).
  destruct (factory_identifier_selection (start_state (desired true) (no_triggers 0)))
    as (Hname & _ & _).
  split.
  - cbn [data start_state] in Hid. rewrite Hid; [vm_compute; reflexivity|].
    vm_compute. discriminate.
  - cbn [data start_state] in Hname. rewrite Hname; [vm_compute; reflexivity|..].
    + vm_compute. reflexivity.
    + vm_compute. discriminate.
Defined.

(** Resource data without any of the two attributes. *)
Lemma create_update_needs_a_factory_selector_witness :
  Get_string known "data_factory_name" = ""
  ∧ Get_string known "data_factory_id" = ""
  ∧ resourceDataFactoryTriggerScheduleCreateUpdate (start_state known (no_triggers 0))
    = (Crash, start_state known (no_triggers 0))
  ∧ select_data_factory_id (desired true) ≠ Parsed None.
Proof.
  split; [vm_compute; reflexivity|]. split; [vm_compute; reflexivity|].
  destruct (create_update_needs_a_factory_selector (start_state known (no_triggers 0)))
    as [Hnone _].
  destruct (create_update_needs_a_factory_selector (start_state (desired true) (no_triggers 0)))
    as [_ Hsome].
  split.
  - apply Hnone; vm_compute; reflexivity.
  - apply Hsome. left. vm_compute. discriminate.
Defined.



(** * Further properties of the codec *)

(** X1: on a block that is not nil, [expandDataFactorySchedule] panics
    exactly when one of its type assertions fails: when one of the five keys
    is missing or is not a list, when a weekday is not a string, a monthly
    occurrence is not a map with a string weekday and an int week, or an
    element of the three integer lists is not an int. What follows the first
    element plays no part. *)
Theorem expand_panics_iff (m : gmap string any) (rest : list any) :
  expandDataFactorySchedule (VMap m :: rest) = Panic ↔ block_ok m = false.
Proof.
  rewrite <- (expand_defined m rest).
  by destruct (expandDataFactorySchedule (VMap m :: rest)).
Qed.

Lemma expand_panics_iff_witness :
  block_ok (<["hours" := VList [VInt32 7]]> (schedule_block_map [] [] [] [] [])) = false
  ∧ expandDataFactorySchedule
      [VMap (<["hours" := VList [VInt32 7]]> (schedule_block_map [] [] [] [] []))] = Panic
  ∧ expandDataFactorySchedule [VMap (delete "minutes" (schedule_block_map [] [] [] [] []))]
    = Panic.
Proof.
  split; [vm_compute; reflexivity|]. split.
  - apply (expand_panics_iff _ []). vm_compute; reflexivity.
  - apply (expand_panics_iff _ []). vm_compute; reflexivity.
Defined.

(** X2: whatever [expandDataFactorySchedule] returns, when it is not nil, is
    in one form: no field points to an empty slice, every integer is in the
    [int32] range, and every monthly occurrence has its week. *)
Theorem expand_result_is_normal (x : list any) (s : RecurrenceSchedule) :
  expandDataFactorySchedule x = Done (Some s) →
  (∀ l, Minutes s = Some l → l ≠ [] ∧ Forall in_int32 l)
  ∧ (∀ l, Hours s = Some l → l ≠ [] ∧ Forall in_int32 l)
  ∧ (∀ l, MonthDays s = Some l → l ≠ [] ∧ Forall in_int32 l)
  ∧ (∀ l, WeekDays s = Some l → l ≠ [])
  ∧ (∀ l, MonthlyOccurrences s = Some l →
       l ≠ [] ∧ Forall (fun o => ∃ n, Occurrence o = Some n ∧ in_int32 n) l).
Proof.
  intros H. destruct (expand_normal x s H) as [Hmins Hhrs Hdow Hdom Hmon Hocc].
  split; [|split; [|split; [|split]]].
  - intros l Hl. by rewrite Hl in Hmins.
  - intros l Hl. by rewrite Hl in Hhrs.
  - intros l Hl. by rewrite Hl in Hdom.
  - intros l Hl. by rewrite Hl in Hdow.
  - intros l Hl. split; [by rewrite Hl in Hmon|by apply Hocc].
Qed.

Lemma expand_result_is_normal_witness :
  expandDataFactorySchedule [full_block] = Done (Some full_schedule)
  ∧ ∀ l, WeekDays full_schedule = Some l → l ≠ [].
Proof.
  assert (H : expandDataFactorySchedule [full_block] = Done (Some full_schedule))
    by (vm_compute; reflexivity).
  split; [exact H|].
  destruct (expand_result_is_normal _ _ H) as (_ & _ & _ & Hdow & _). exact Hdow.
Defined.

Lemma flatten_monthly_not_ok (s : RecurrenceSchedule) m :
  schedule_normal s →
  flattenDataFactorySchedule (Some s) = [VMap m] →
  all_of occurrence_ok (index m "monthly") = false.
Proof.
  intros Hnormal Hm.
  destruct (flatten_block s) as (m' & Hm' & _ & _ & _ & _ & Hmon & _).
  rewrite Hm' in Hm. injection Hm as ->.
  unfold index. rewrite Hmon.
  destruct (MonthlyOccurrences s) as [l|] eqn:Hl; [|done]. cbn.
  pose proof (normal_MonthlyOccurrences s Hnormal) as Hne. rewrite Hl in Hne.
  pose proof (normal_occurrences s Hnormal l Hl) as Hocc.
  destruct l as [|o l]; [done|]. cbn.
  apply Forall_cons in Hocc as [(n & Hn & _) _].
  unfold flatten_occurrence, occurrence_ok, index. rewrite Hn. cbn.
  rewrite lookup_insert_ne, lookup_insert_eq by done. cbn.
  by rewrite lookup_insert_eq.
Qed.

(** X3: no schedule that [expandDataFactorySchedule] has encoded can be given
    back to it as [flattenDataFactorySchedule] decodes it: on the decoded
    block of any of its non-nil results the encoder panics. *)
Theorem expand_of_raw_decode_panics (x : list any) (s : RecurrenceSchedule) :
  expandDataFactorySchedule x = Done (Some s) →
  expandDataFactorySchedule (flattenDataFactorySchedule (Some s)) = Panic.
Proof.
  intros H. apply expand_normal in H.
  destruct (flatten_block s) as (m & Hm & _).
  rewrite Hm. apply expand_panics_iff. unfold block_ok.
  rewrite (flatten_monthly_not_ok s m H Hm).
  by rewrite andb_false_r.
Qed.

Lemma expand_of_raw_decode_panics_witness :
  expandDataFactorySchedule [full_block] = Done (Some full_schedule)
  ∧ expandDataFactorySchedule (flattenDataFactorySchedule (Some full_schedule)) = Panic.
Proof.
  assert (H : expandDataFactorySchedule [full_block] = Done (Some full_schedule))
    by (vm_compute; reflexivity).
  split; [exact H|]. exact (expand_of_raw_decode_panics _ _ H).
Defined.

Lemma flatten_occurrence_inj o1 o2 :
  flatten_occurrence o1 = flatten_occurrence o2 → o1 = o2.
Proof.
  destruct o1 as [day1 occ1], o2 as [day2 occ2].
  unfold flatten_occurrence. cbn. intros [= Hmap].
  pose proof (f_equal (fun m : gmap string any => m !! "weekday") Hmap) as Hday.
  pose proof (f_equal (fun m : gmap string any => m !! "week") Hmap) as Hweek.
  cbn in Hday, Hweek.
  rewrite !lookup_set_if_present_ne, !lookup_insert_eq in Hday by done.
  rewrite !lookup_set_if_present_eq, !lookup_insert_ne, !lookup_empty in Hweek by done.
  injection Hday as ->.
  destruct occ1, occ2; simplify_eq; done.
Qed.

Lemma flat_ints_inj p1 p2 : flat_ints p1 = flat_ints p2 → p1 = p2.
Proof.
  destruct p1 as [l1|], p2 as [l2|]; cbn; intros H; simplify_eq; [|done].
  f_equal. revert l2 H. induction l1 as [|n l1 IH]; intros [|n2 l2] H; simplify_eq/=; [done|].
  f_equal. by apply IH.
Qed.

Lemma flat_strings_inj p1 p2 : flat_strings p1 = flat_strings p2 → p1 = p2.
Proof.
  destruct p1 as [l1|], p2 as [l2|]; cbn; intros H; simplify_eq; [|done].
  f_equal. revert l2 H. induction l1 as [|n l1 IH]; intros [|n2 l2] H; simplify_eq/=; [done|].
  f_equal. by apply IH.
Qed.

Lemma flat_monthly_inj p1 p2 : flat_monthly p1 = flat_monthly p2 → p1 = p2.
Proof.
  destruct p1 as [l1|], p2 as [l2|]; cbn; intros H; simplify_eq; [|done].
  f_equal. revert l2 H. induction l1 as [|o l1 IH]; intros [|o2 l2] H; [done|done|done|].
  cbn in H. injection H as Ho Hl.
  assert (o = o2) as -> by (apply flatten_occurrence_inj; unfold flatten_occurrence; by f_equal).
  f_equal. by apply IH.
Qed.

(** X4: [flattenDataFactorySchedule] loses nothing: two remote schedules
    (nil or not, whatever their fields) that decode to the same declarative
    value are the same schedule. *)
Theorem flatten_injective (r1 r2 : option RecurrenceSchedule) :
  flattenDataFactorySchedule r1 = flattenDataFactorySchedule r2 → r1 = r2.
Proof.
  destruct r1 as [s1|], r2 as [s2|]; [|discriminate..|done].
  destruct (flatten_block s1) as (m1 & Hm1 & Hmins1 & Hhrs1 & Hdow1 & Hdom1 & Hmon1 & _).
  destruct (flatten_block s2) as (m2 & Hm2 & Hmins2 & Hhrs2 & Hdow2 & Hdom2 & Hmon2 & _).
  rewrite Hm1, Hm2. intros [= <-].
  rewrite Hmins1 in Hmins2. rewrite Hhrs1 in Hhrs2. rewrite Hdow1 in Hdow2.
  rewrite Hdom1 in Hdom2. rewrite Hmon1 in Hmon2.
  apply flat_ints_inj in Hmins2, Hhrs2, Hdom2.
  apply flat_strings_inj in Hdow2. apply flat_monthly_inj in Hmon2.
  destruct s1, s2. cbn in *. by subst.
Qed.

Lemma flatten_injective_witness :
  flattenDataFactorySchedule (Some monday_schedule)
    = flattenDataFactorySchedule (Some monday_schedule)
  ∧ Some monday_schedule = Some monday_schedule
  ∧ flattenDataFactorySchedule (Some monday_schedule)
    ≠ flattenDataFactorySchedule (Some no_schedule_fields).
Proof.
  split; [reflexivity|]. split; [by apply flatten_injective|].
  intros H. apply flatten_injective in H. discriminate.
Defined.

(** X5: [expandDataFactorySchedule] reads the first element of its input and
    there the five keys of the schema only: two inputs whose first blocks
    agree on these keys are encoded alike (or panic alike), whatever else
    the blocks hold and whatever follows them. *)
Theorem expand_reads_five_keys (m m' : gmap string any) (rest rest' : list any) :
  (∀ key, key ∈ schedule_keys → m !! key = m' !! key) →
  expandDataFactorySchedule (VMap m :: rest) = expandDataFactorySchedule (VMap m' :: rest').
Proof.
  intros Hkeys.
  assert (Hindex : ∀ key, key ∈ schedule_keys → index m key = index m' key).
  { intros key Hkey. unfold index. by rewrite Hkeys. }
  unfold expandDataFactorySchedule.
  change (as_map (VMap ?m) ≫= ?f) with (f m). cbv beta.
  rewrite !Hindex by (unfold schedule_keys; set_solver). done.
Qed.

Lemma expand_reads_five_keys_witness :
  expandDataFactorySchedule
    [VMap (<["note" := VString "kept"]> (schedule_block_map [] ["Monday"] [] [] []));
     VString "more"]
  = Done (Some monday_schedule).
Proof.
  rewrite (expand_reads_five_keys _ (schedule_block_map [] ["Monday"] [] [] []) _ []).
  - vm_compute. reflexivity.
  - intros key Hkey. apply lookup_insert_ne. intros <-.
    unfold schedule_keys in Hkey. rewrite !elem_of_cons, elem_of_nil in Hkey.
    by destruct Hkey as [?|[?|[?|[?|[?|?]]]]].
Defined.

(** X6: a remote schedule goes through decoding, the schema and encoding
    unchanged exactly when it is in the form the encoder produces and has at
    least one field. A field that points to an empty slice comes back nil,
    an integer outside the [int32] range cannot occur, an occurrence without
    week comes back with week 0; and the schedule without any field is
    decoded to a block that the schema reads as the nil element, which is
    encoded as no schedule at all. *)
Theorem remote_round_trip_iff_normal (s : RecurrenceSchedule) :
  (expandDataFactorySchedule (schema_read_schedule (flattenDataFactorySchedule (Some s)))
     = Done (Some s)
   ↔ schedule_normal s ∧ s ≠ no_schedule_fields)
  ∧ schema_read_schedule (flattenDataFactorySchedule (Some no_schedule_fields)) = [VNil]
  ∧ expandDataFactorySchedule
      (schema_read_schedule (flattenDataFactorySchedule (Some no_schedule_fields)))
    = Done None.
Proof.
  split; [|by rewrite read_flatten_nothing].
  split.
  - intros H. split; [by eapply expand_normal|].
    intros ->. by rewrite read_flatten_nothing in H.
  - intros [Hnormal Hs]. by apply expand_read_flatten.
Qed.

Lemma remote_round_trip_iff_normal_witness :
  schedule_normal full_schedule
  ∧ expandDataFactorySchedule
      (schema_read_schedule (flattenDataFactorySchedule (Some full_schedule)))
    = Done (Some full_schedule)
  ∧ ¬ schedule_normal loose_schedule
  ∧ expandDataFactorySchedule
      (schema_read_schedule (flattenDataFactorySchedule (Some loose_schedule)))
    = Done (Some {| Minutes := None; Hours := None; WeekDays := Some ["Monday"];
                    MonthDays := None;
                    MonthlyOccurrences :=
                      Some [{| Day := "Friday"; Occurrence := Some 0 |}] |}).
Proof.
  assert (Hfull : expandDataFactorySchedule
                    (schema_read_schedule (flattenDataFactorySchedule (Some full_schedule)))
                  = Done (Some full_schedule)) by (vm_compute; reflexivity).
  split; [|split; [exact Hfull|split]].
  - by apply (remote_round_trip_iff_normal full_schedule) in Hfull as [Hnormal _].
  - intros H.
    assert (Hloose : loose_schedule ≠ no_schedule_fields) by discriminate.
    pose proof (proj2 (proj1 (remote_round_trip_iff_normal loose_schedule))
                  (conj H Hloose)) as Hround.
    vm_compute in Hround. discriminate.
  - vm_compute. reflexivity.
Defined.

(** * Further properties of the resource functions *)

Section frame_rules.
Context {World : Type} {client : TriggersClient World}.
Context {parse : Parse} {clock : Clock} {meta : Meta}.

#[export] Instance quiet_preorder : PreOrder (@quiet World).
Proof.
  split; [by split|].
  intros st1 st2 st3 [H1 H2] [H3 H4]. split; congruence.
Qed.

#[export] Instance same_data_preorder : PreOrder (@same_data World).
Proof. split; [done|]. unfold same_data. intros st1 st2 st3. congruence. Qed.

#[export] Instance emitting_preorder (P : call → Prop) : PreOrder (@emitting World P).
Proof.
  split.
  - intros st. exists []. by rewrite app_nil_r.
  - intros st1 st2 st3 (new1 & H1 & HP1) (new2 & H2 & HP2).
    exists (new1 ++ new2). rewrite H2, H1, app_assoc. split; [done|].
    by apply Forall_app.
Qed.

#[export] Instance same_or_no_id_preorder : PreOrder (@same_or_no_id World).
Proof.
  split; [by left|].
  unfold same_or_no_id. intros st1 st2 st3 [H1|H1] [H2|H2]; rewrite ?H2, ?H1; auto.
Qed.

Lemma keeps_bind {A B : Type} (R : state World → state World → Prop) `{!PreOrder R}
    (c : M World A) (f : A → M World B) :
  keeps R c → (∀ a, keeps R (f a)) → keeps R (c ≫= f).
Proof.
  intros Hc Hf st r st'. rewrite bind_run.
  destruct (c st) as [[a|e|] st1] eqn:Hrun.
  - intros H. transitivity st1; [by eapply Hc|by eapply Hf].
  - intros [= <- <-]. by eapply Hc.
  - intros [= <- <-]. by eapply Hc.
Qed.

Lemma keeps_still {A : Type} (R : state World → state World → Prop) `{!Reflexive R}
    (c : M World A) :
  (∀ st, (c st).2 = st) → keeps R c.
Proof. intros Hc st r st' Hrun. specialize (Hc st). rewrite Hrun in Hc. by subst. Qed.

Lemma keeps_ret {A : Type} R `{!Reflexive R} (a : A) : keeps R (ret (World:=World) a).
Proof. by apply keeps_still. Qed.
Lemma keeps_fail {A : Type} R `{!Reflexive R} e : keeps R (fail (World:=World) (A:=A) e).
Proof. by apply keeps_still. Qed.
Lemma keeps_panic {A : Type} R `{!Reflexive R} : keeps R (panic (World:=World) (A:=A)).
Proof. by apply keeps_still. Qed.
Lemma keeps_get_data R `{!Reflexive R} : keeps R (get_data (World:=World)).
Proof. by apply keeps_still. Qed.
Lemma keeps_lift_go {A : Type} R `{!Reflexive R} (c : go A) :
  keeps R (lift_go (World:=World) c).
Proof. apply keeps_still; [done|]. by destruct c. Qed.
Lemma keeps_deref {A : Type} R `{!Reflexive R} (p : option A) :
  keeps R (deref (World:=World) p).
Proof. apply keeps_still; [done|]. by destruct p. Qed.
Lemma keeps_check R `{!Reflexive R} err wrap : keeps R (check (World:=World) err wrap).
Proof. apply keeps_still; [done|]. by destruct err. Qed.
Lemma keeps_from_parser {A : Type} R `{!Reflexive R} (p : parsed A) :
  keeps R (from_parser (World:=World) p).
Proof. apply keeps_still; [done|]. by destruct p. Qed.

Lemma quiet_set_data f : keeps quiet (set_data (World:=World) f).
Proof. by intros st r st' [= <- <-]. Qed.

Lemma emitting_set_data P f : keeps (emitting P) (set_data (World:=World) f).
Proof. intros st r st' [= <- <-]. exists []. by rewrite app_nil_r. Qed.

Lemma same_or_no_id_set_data f :
  (∀ d, Id (f d) = Id d ∨ Id (f d) = "") → keeps same_or_no_id (set_data (World:=World) f).
Proof. intros Hf st r st' [= <- <-]. apply Hf. Qed.

Lemma emitting_invoke {A : Type} (P : call → Prop) c (op : World → A * World) :
  P c → keeps (emitting P) (invoke c op).
Proof.
  intros Hc st r st'. rewrite invoke_run. intros [= <- <-].
  exists [c]. split; [done|]. by constructor.
Qed.

Lemma same_data_invoke {A : Type} c (op : World → A * World) :
  keeps same_data (invoke c op).
Proof. intros st r st'. rewrite invoke_run. by intros [= <- <-]. Qed.

Lemma same_or_no_id_invoke {A : Type} c (op : World → A * World) :
  keeps same_or_no_id (invoke c op).
Proof. intros st r st'. rewrite invoke_run. intros [= <- <-]. by left. Qed.

Lemma fails_with_bind {A B : Type} (P : error → Prop) (c : M World A) (f : A → M World B) :
  fails_with P c → (∀ a, fails_with P (f a)) → fails_with P (c ≫= f).
Proof.
  intros Hc Hf st e st'. rewrite bind_run.
  destruct (c st) as [[a|e'|] st1] eqn:Hrun.
  - by eapply Hf.
  - intros [= <- <-]. by eapply Hc.
  - discriminate.
Qed.

Lemma fails_with_never {A : Type} (P : error → Prop) (c : M World A) :
  (∀ st e, (c st).1 ≠ Fail e) → fails_with P c.
Proof. intros Hc st e st' Hrun. specialize (Hc st e). by rewrite Hrun in Hc. Qed.

Lemma fails_with_ret {A : Type} P (a : A) : fails_with P (ret (World:=World) a).
Proof. by apply fails_with_never. Qed.
Lemma fails_with_panic {A : Type} P : fails_with P (panic (World:=World) (A:=A)).
Proof. by apply fails_with_never. Qed.
Lemma fails_with_get_data P : fails_with P (get_data (World:=World)).
Proof. by apply fails_with_never. Qed.
Lemma fails_with_set_data P f : fails_with P (set_data (World:=World) f).
Proof. by apply fails_with_never. Qed.
Lemma fails_with_lift_go {A : Type} P (c : go A) : fails_with P (lift_go (World:=World) c).
Proof. apply fails_with_never. by destruct c. Qed.
Lemma fails_with_deref {A : Type} P (p : option A) : fails_with P (deref (World:=World) p).
Proof. apply fails_with_never. by destruct p. Qed.
Lemma fails_with_invoke {A : Type} P c (op : World → A * World) :
  fails_with P (invoke c op).
Proof. apply fails_with_never. intros st e. by rewrite invoke_run. Qed.
Lemma fails_with_fail {A : Type} (P : error → Prop) e :
  P e → fails_with P (fail (World:=World) (A:=A) e).
Proof. by intros He st e' st' [= <- <-]. Qed.
Lemma fails_with_check (P : error → Prop) err wrap :
  (∀ cause, P (wrap cause)) → fails_with P (check (World:=World) err wrap).
Proof. intros Hwrap. destruct err; [by apply fails_with_fail|by apply fails_with_ret]. Qed.
Lemma fails_with_from_parser {A : Type} (P : error → Prop) (p : parsed A) :
  (∀ msg, P (IdentifierError msg)) → fails_with P (from_parser (World:=World) p).
Proof. intros Hp. destruct p; [by apply fails_with_ret|by apply fails_with_fail]. Qed.

End frame_rules.

Ltac frame_step :=
  first
    [ apply keeps_ret; apply _
    | apply keeps_fail; apply _
    | apply keeps_panic; apply _
    | apply keeps_get_data; apply _
    | apply keeps_lift_go; apply _
    | apply keeps_deref; apply _
    | apply keeps_check; apply _
    | apply keeps_from_parser; apply _
    | apply quiet_set_data
    | apply emitting_set_data
    | apply same_data_invoke
    | apply same_or_no_id_invoke
    | apply keeps_bind; [apply _| |intros ?]
    | match goal with
      | |- keeps _ (match ?x with _ => _ end) => destruct x
      end ].

Ltac frame := repeat frame_step.

Section read_frames.
Context {World : Type} {client : TriggersClient World}.
Context {parse : Parse} {clock : Clock} {meta : Meta}.

Lemma read_response_quiet id resp err :
  keeps (World:=World) quiet (read_response id resp err).
Proof. unfold read_response, read_schedule_trigger. frame. Qed.

(** X7: a read issues at most one call. When the identifier does not parse
    it returns the error of the parser, issues no call and changes nothing;
    otherwise its one call is the get of the parsed identifier, and the
    remote system is left as that get left it. *)
Theorem read_issues_one_get (st : state World) (r : result unit) (st' : state World) :
  resourceDataFactoryTriggerScheduleRead st = (r, st') →
  (∃ msg, TriggerID (Id (data st)) = ParseError msg
          ∧ r = Fail (IdentifierError msg) ∧ st' = st)
  ∨ (∃ id, TriggerID (Id (data st)) = Parsed id
           ∧ calls st' = calls st ++ [CallGet (TriggerId.ResourceGroup id)
                                        (TriggerId.FactoryName id) (TriggerId.Name id)]
           ∧ remote st' = (Get (TriggerId.ResourceGroup id) (TriggerId.FactoryName id)
                             (TriggerId.Name id) (remote st)).2).
Proof.
  intros Hrun.
  destruct (TriggerID (Id (data st))) as [id|msg] eqn:Hid.
  - right. exists id. split; [done|].
    destruct (Get (TriggerId.ResourceGroup id) (TriggerId.FactoryName id)
                (TriggerId.Name id) (remote st)) as [[resp err] w1] eqn:Hget.
    rewrite (read_run st _ _ _ _ Hid Hget) in Hrun.
    by apply read_response_quiet in Hrun as [-> ->].
  - left. exists msg. split; [done|].
    unfold resourceDataFactoryTriggerScheduleRead in Hrun.
    rewrite bind_run in Hrun. cbn [get_data] in Hrun. rewrite bind_run, Hid in Hrun.
    by injection Hrun as <- <-.
Qed.

End read_frames.

Section read_edges.
Context {World : Type} {client : TriggersClient World}.
Context {parse : Parse} {clock : Clock} {meta : Meta}.

(** X8: when the get of a read returns an error, the attributes are left as
    they were. With the status 404 the read returns no error and clears the
    identifier; with any other answer it returns the retrieving error and
    the identifier stays. *)
Theorem read_of_get_error (st : state World) (id : TriggerId.t) (resp : TriggerResource)
    (cause : string) (w1 : World) :
  TriggerID (Id (data st)) = Parsed id →
  Get (TriggerId.ResourceGroup id) (TriggerId.FactoryName id) (TriggerId.Name id)
    (remote st) = ((resp, Some cause), w1) →
  ∃ r st',
    resourceDataFactoryTriggerScheduleRead st = (r, st')
    ∧ attributes (data st') = attributes (data st)
    ∧ remote st' = w1
    ∧ (ResponseWasNotFound (Response resp) = true → r = Return tt ∧ Id (data st') = "")
    ∧ (ResponseWasNotFound (Response resp) = false →
       r = Fail (Retrieving id cause) ∧ Id (data st') = Id (data st)).
Proof.
  intros Hid Hget. rewrite (read_run st _ _ _ _ Hid Hget). unfold read_response.
  destruct (ResponseWasNotFound (Response resp)); eexists _, _; (split; [reflexivity|]);
    cbn; done.
Qed.

Lemma read_response_panics id resp (st : state World) :
  (read_response id resp None st).1 = Crash ↔ read_panics_on resp = true.
Proof.
  unfold read_panics_on.
  destruct (Properties resp) as [[t|kind]|] eqn:Hprops.
  - destruct (TypeProperties t) as [tp|] eqn:Htp.
    + erewrite read_response_schedule by eauto. done.
    + unfold read_response.
      rewrite bind_run. cbn [set_data]. rewrite bind_run, Hprops. cbn [deref ret].
      cbn [AsScheduleTrigger negb]. unfold read_schedule_trigger.
      rewrite bind_run. cbn [set_data]. rewrite bind_run, Htp. done.
  - destruct (Type_ resp) as [received|] eqn:Htype.
    + erewrite read_response_other_kind by eauto. done.
    + unfold read_response.
      rewrite bind_run. cbn [set_data]. rewrite bind_run, Hprops. cbn [deref ret].
      cbn [AsScheduleTrigger negb]. rewrite bind_run, Htype. done.
  - unfold read_response.
    rewrite bind_run. cbn [set_data]. rewrite bind_run, Hprops. done.
Qed.

(** X9: a read panics exactly when its identifier parses, the get returns no
    error and the answer has no properties, or is a trigger of another kind
    without type string (the classification error cannot be built), or is a
    schedule trigger without type properties. *)
Theorem read_panics_iff (st : state World) :
  (resourceDataFactoryTriggerScheduleRead st).1 = Crash
  ↔ ∃ id resp w1,
      TriggerID (Id (data st)) = Parsed id
      ∧ Get (TriggerId.ResourceGroup id) (TriggerId.FactoryName id) (TriggerId.Name id)
          (remote st) = ((resp, None), w1)
      ∧ read_panics_on resp = true.
Proof.
  split.
  - intros Hcrash.
    destruct (TriggerID (Id (data st))) as [id|msg] eqn:Hid.
    2:{ unfold resourceDataFactoryTriggerScheduleRead in Hcrash.
        rewrite bind_run in Hcrash. cbn [get_data] in Hcrash.
        rewrite bind_run, Hid in Hcrash. discriminate. }
    destruct (Get (TriggerId.ResourceGroup id) (TriggerId.FactoryName id)
                (TriggerId.Name id) (remote st)) as [[resp err] w1] eqn:Hget.
    rewrite (read_run st _ _ _ _ Hid Hget) in Hcrash.
    destruct err as [cause|].
    { unfold read_response in Hcrash.
      destruct (ResponseWasNotFound (Response resp)); discriminate. }
    exists id, resp, w1. split; [done|]. split; [done|].
    by eapply read_response_panics.
  - intros (id & resp & w1 & Hid & Hget & Hpanics).
    rewrite (read_run st _ _ _ _ Hid Hget). by apply read_response_panics.
Qed.

End read_edges.

Ltac emit_step :=
  first [ frame_step | apply emitting_invoke; done ].

Ltac fails_step :=
  first
    [ apply fails_with_ret
    | apply fails_with_panic
    | apply fails_with_get_data
    | apply fails_with_set_data
    | apply fails_with_lift_go
    | apply fails_with_deref
    | apply fails_with_invoke
    | apply fails_with_fail; done
    | apply fails_with_check; done
    | apply fails_with_from_parser; done
    | apply fails_with_bind; [|intros ?]
    | match goal with
      | |- fails_with _ (match ?x with _ => _ end) => destruct x
      end ].

Section cycle_frames.
Context {World : Type} {client : TriggersClient World}.
Context {parse : Parse} {clock : Clock} {meta : Meta}.

Lemma bind_cases {A B : Type} (c : M World A) (f : A → M World B) st r st' :
  (c ≫= f) st = (r, st') →
  (∃ a st1, c st = (Return a, st1) ∧ f a st1 = (r, st'))
  ∨ (∃ e, r = Fail e ∧ c st = (Fail e, st'))
  ∨ (r = Crash ∧ c st = (Crash, st')).
Proof.
  rewrite bind_run. destruct (c st) as [[a|e|] st1].
  - intros H. left. eauto.
  - intros [= <- <-]. right. left. eauto.
  - intros [= <- <-]. right. right. eauto.
Qed.

(** X10: a create-or-update cycle never issues a stop or a delete, however
    it ends; in particular an update that sets [activated] to false does not
    stop a trigger that is running. *)
Theorem create_update_never_stops (st : state World) (r : result unit) (st' : state World) :
  resourceDataFactoryTriggerScheduleCreateUpdate st = (r, st') →
  ∃ new, calls st' = calls st ++ new
         ∧ Forall (fun c => is_stop c = false ∧ is_delete c = false) new.
Proof.
  revert st r st'.
  change (keeps (emitting (fun c => is_stop c = false ∧ is_delete c = false))
            (resourceDataFactoryTriggerScheduleCreateUpdate (World:=World))).
  unfold resourceDataFactoryTriggerScheduleCreateUpdate, create_or_update_trigger,
    check_not_existing, start_if_activated, resourceDataFactoryTriggerScheduleRead,
    read_response, read_schedule_trigger.
  repeat emit_step.
Qed.

Lemma read_fails_with_its_errors :
  fails_with (World:=World) (fun e => of_read e = true)
    resourceDataFactoryTriggerScheduleRead.
Proof.
  unfold resourceDataFactoryTriggerScheduleRead, read_response, read_schedule_trigger.
  repeat fails_step.
Qed.

Lemma check_not_existing_same_data id :
  keeps (World:=World) same_data (check_not_existing id).
Proof. unfold check_not_existing. frame. Qed.

Lemma start_if_activated_same_data d id :
  keeps (World:=World) same_data (start_if_activated d id).
Proof. unfold start_if_activated. frame. Qed.

Lemma check_not_existing_errors id :
  fails_with (World:=World) (fun e => of_read e = false) (check_not_existing id).
Proof. unfold check_not_existing. repeat fails_step. Qed.

Lemma start_if_activated_errors d id :
  fails_with (World:=World) (fun e => of_read e = false) (start_if_activated d id).
Proof. unfold start_if_activated. repeat fails_step. Qed.

(** The cycle up to its read: lines 248-319. *)
Lemma cycle_prefix_same_data d id :
  keeps (World:=World) same_data
    ((if IsNewResource d then check_not_existing id else ret tt) ;;
     schedule ← lift_go (expandDataFactorySchedule (Get_list d "schedule"));
     err ← invoke
         (CallCreateOrUpdate (TriggerId.ResourceGroup id) (TriggerId.FactoryName id)
            (TriggerId.Name id) (trigger_of d schedule))
         (CreateOrUpdate (TriggerId.ResourceGroup id) (TriggerId.FactoryName id)
            (TriggerId.Name id) (trigger_of d schedule));
     check err (Creating id) ;;
     start_if_activated d id).
Proof. unfold check_not_existing, start_if_activated. frame. Qed.

Lemma cycle_prefix_errors d id :
  fails_with (World:=World) (fun e => of_read e = false)
    ((if IsNewResource d then check_not_existing id else ret tt) ;;
     schedule ← lift_go (expandDataFactorySchedule (Get_list d "schedule"));
     err ← invoke
         (CallCreateOrUpdate (TriggerId.ResourceGroup id) (TriggerId.FactoryName id)
            (TriggerId.Name id) (trigger_of d schedule))
         (CreateOrUpdate (TriggerId.ResourceGroup id) (TriggerId.FactoryName id)
            (TriggerId.Name id) (trigger_of d schedule));
     check err (Creating id) ;;
     start_if_activated d id).
Proof. unfold check_not_existing, start_if_activated. repeat fails_step. Qed.

Lemma bind_assoc_run {A B C : Type} (c : M World A) (f : A → M World B)
    (g : B → M World C) st :
  ((c ≫= f) ≫= g) st = (c ≫= (fun a => f a ≫= g)) st.
Proof. rewrite !bind_run. destruct (c st) as [[a|e|] st1]; by rewrite ?bind_run. Qed.

Lemma cycle_split d id (st : state World) :
  create_or_update_trigger d id st =
    (((if IsNewResource d then check_not_existing id else ret tt) ;;
      schedule ← lift_go (expandDataFactorySchedule (Get_list d "schedule"));
      err ← invoke
          (CallCreateOrUpdate (TriggerId.ResourceGroup id) (TriggerId.FactoryName id)
             (TriggerId.Name id) (trigger_of d schedule))
          (CreateOrUpdate (TriggerId.ResourceGroup id) (TriggerId.FactoryName id)
             (TriggerId.Name id) (trigger_of d schedule));
      check err (Creating id) ;;
      start_if_activated d id) ;;
     set_data (SetId (TriggerId_ID id)) ;;
     resourceDataFactoryTriggerScheduleRead) st.
Proof.
  unfold create_or_update_trigger.
  rewrite bind_assoc_run, !bind_run.
  destruct ((if IsNewResource d then check_not_existing id else ret tt) st)
    as [[[]|e|] st1]; [|done..].
  rewrite bind_assoc_run, !bind_run.
  destruct (lift_go _ st1) as [[schedule|e|] st2]; [|done..].
  rewrite bind_assoc_run, !bind_run.
  destruct (invoke _ _ st2) as [[err|e|] st3]; [|done..].
  rewrite bind_assoc_run, !bind_run.
  by destruct (check err (Creating id) st3) as [[[]|e|] st4].
Qed.

(** A cycle ends before its read with the resource data as they were, or
    reaches the read with nothing but the identifier set. *)
Lemma cycle_reaches_read d id (st : state World) r st' :
  create_or_update_trigger d id st = (r, st') →
  (data st' = data st ∧ r ≠ Return tt ∧ ∀ e, r = Fail e → of_read e = false)
  ∨ (∃ st5, data st5 = SetId (TriggerId_ID id) (data st)
            ∧ resourceDataFactoryTriggerScheduleRead st5 = (r, st')).
Proof.
  rewrite cycle_split. intros Hrun.
  apply bind_cases in Hrun as [([] & st4 & Hprefix & Hrun)|[(e & -> & Hprefix)|[-> Hprefix]]].
  - right. apply cycle_prefix_same_data in Hprefix. unfold same_data in Hprefix.
    rewrite bind_run in Hrun. cbn [set_data] in Hrun.
    eexists. split; [|exact Hrun]. cbn. by rewrite Hprefix.
  - left. split; [by apply cycle_prefix_same_data in Hprefix|]. split; [done|].
    intros e' [= <-]. by apply cycle_prefix_errors in Hprefix.
  - left. split; [by apply cycle_prefix_same_data in Hprefix|done].
Qed.

(** X11: when a cycle returns the error of its existence check, of the
    create-or-update call, of the start call or of the wait for the start,
    the resource data are as they were before the cycle: no identifier has
    been recorded, also when the remote object has been created already. *)
Theorem cycle_failure_keeps_data (st : state World) (e : error) (st' : state World) :
  resourceDataFactoryTriggerScheduleCreateUpdate st = (Fail e, st') →
  before_read e = true →
  data st' = data st.
Proof.
  rewrite create_update_run. intros Hrun He.
  destruct (select_data_factory_id (data st)) as [[factory|]|msg].
  - apply cycle_reaches_read in Hrun as [[Hdata _]|(st5 & _ & Hread)]; [done|].
    apply read_fails_with_its_errors in Hread. by destruct e.
  - discriminate.
  - injection Hrun as <- <-. done.
Qed.

End cycle_frames.

Section cycle_edges.
Context {World : Type} {client : TriggersClient World}.
Context {parse : Parse} {clock : Clock} {meta : Meta}.

Lemma cycle_tail_emits d id err :
  keeps (World:=World) (emitting (fun c => is_create_or_update c = false))
    (check err (Creating id) ;;
     start_if_activated d id ;;
     set_data (SetId (TriggerId_ID id)) ;;
     resourceDataFactoryTriggerScheduleRead).
Proof.
  unfold start_if_activated, resourceDataFactoryTriggerScheduleRead, read_response,
    read_schedule_trigger.
  repeat emit_step.
Qed.

(** X12: the cycle of a resource that is not new makes no existence check.
    When the schedule is encoded without panic its first call is the
    create-or-update with the trigger built from the resource data, and no
    other create-or-update follows; when the encoder panics nothing has been
    called. *)
Theorem update_skips_existence_check (st : state World) (factory : DataFactoryId.t)
    (r : result unit) (st' : state World) :
  IsNewResource (data st) = false →
  select_data_factory_id (data st) = Parsed (Some factory) →
  resourceDataFactoryTriggerScheduleCreateUpdate st = (r, st') →
  match expandDataFactorySchedule (Get_list (data st) "schedule") with
  | Panic => r = Crash ∧ st' = st
  | Done schedule =>
    ∃ rest,
      calls st' = calls st ++
        CallCreateOrUpdate (DataFactoryId.ResourceGroup factory)
          (DataFactoryId.FactoryName factory) (Get_string (data st) "name")
          (trigger_of (data st) schedule) :: rest
      ∧ Forall (fun c => is_create_or_update c = false) rest
  end.
Proof.
  intros Hnew Hsel. rewrite create_update_run, Hsel.
  unfold create_or_update_trigger. rewrite Hnew, bind_run. cbn [ret]. rewrite bind_run.
  destruct (expandDataFactorySchedule (Get_list (data st) "schedule")) as [schedule|];
    cbn [lift_go ret panic]; [|by intros [= <- <-]].
  rewrite bind_run, invoke_run. intros Hrun.
  apply cycle_tail_emits in Hrun as (rest & Hcalls & Hrest).
  exists rest. cbn in Hcalls. by rewrite Hcalls, <- app_assoc.
Qed.

(** X13: the existence check of a creation issues the one get and leaves the
    resource data alone. It lets the creation go on exactly when the get
    returned no error or the status 404, and the answer carries no id or an
    empty one. An error with another status gives the checking error; an id
    that is not empty gives the import-as-exists error, also when it comes
    with a 404. *)
Theorem existence_check_outcome (st : state World) (id : TriggerId.t)
    (existing : TriggerResource) (err : option string) (w1 : World) :
  Get (TriggerId.ResourceGroup id) (TriggerId.FactoryName id) (TriggerId.Name id)
    (remote st) = ((existing, err), w1) →
  ∃ r,
    check_not_existing id st =
      (r, {| data := data st; remote := w1;
             calls := calls st ++ [CallGet (TriggerId.ResourceGroup id)
                                     (TriggerId.FactoryName id) (TriggerId.Name id)] |})
    ∧ (r = Return tt ↔
       (err = None ∨ ResponseWasNotFound (Response existing) = true)
       ∧ (ID existing = None ∨ ID existing = Some ""))
    ∧ (∀ cause, err = Some cause → ResponseWasNotFound (Response existing) = false →
         r = Fail (CheckingPresence id cause))
    ∧ (∀ existingId,
         err = None ∨ ResponseWasNotFound (Response existing) = true →
         ID existing = Some existingId → existingId ≠ "" →
         r = Fail (ImportAsExistsError "azurerm_data_factory_trigger_schedule" existingId)).
Proof.
  intros Hget. unfold check_not_existing.
  rewrite bind_run, invoke_run, Hget. cbn [fst snd]. rewrite bind_run.
  destruct err as [cause|];
    [destruct (ResponseWasNotFound (Response existing)) eqn:Hnf|]; cbn [negb fail ret].
  - destruct (ID existing) as [existingId|] eqn:Hid;
      [destruct (bool_decide (existingId ≠ "")) eqn:Hne|].
    + apply bool_decide_eq_true in Hne. eexists. split; [reflexivity|].
      split; [|split].
      * split; [done|]. intros [_ [?|?]]; simplify_eq.
      * intros ? ? ?. done.
      * intros ? _ [= <-] _. done.
    + apply bool_decide_eq_false in Hne. apply dec_stable in Hne. subst.
      eexists. split; [reflexivity|]. split; [|split].
      * split; [auto|done].
      * intros ? ? ?. done.
      * intros ? _ [= <-] ?. done.
    + eexists. split; [reflexivity|]. split; [|split].
      * split; [auto|done].
      * intros ? ? ?. done.
      * intros ? _ ?. done.
  - eexists. split; [reflexivity|]. split; [|split].
    + split; [done|]. intros [[?|?] _]; done.
    + intros ? [= <-] _. done.
    + intros ? [?|?] ? ?; done.
  - destruct (ID existing) as [existingId|] eqn:Hid;
      [destruct (bool_decide (existingId ≠ "")) eqn:Hne|].
    + apply bool_decide_eq_true in Hne. eexists. split; [reflexivity|].
      split; [|split].
      * split; [done|]. intros [_ [?|?]]; simplify_eq.
      * intros ? ? ?. done.
      * intros ? _ [= <-] _. done.
    + apply bool_decide_eq_false in Hne. apply dec_stable in Hne. subst.
      eexists. split; [reflexivity|]. split; [|split].
      * split; [auto|done].
      * intros ? ? ?. done.
      * intros ? _ [= <-] ?. done.
    + eexists. split; [reflexivity|]. split; [|split].
      * split; [auto|done].
      * intros ? ? ?. done.
      * intros ? _ ?. done.
Qed.

(** X14: a delete never changes the resource data: whatever the calls
    return, the identifier and the attributes are as they were. It returns
    no error only after the stop, its wait and the delete have all returned
    none, and the remote system is then as the delete call left it. *)
Theorem delete_keeps_data (st : state World) (r : result unit) (st' : state World) :
  resourceDataFactoryTriggerScheduleDelete st = (r, st') →
  data st' = data st
  ∧ (r = Return tt →
     ∃ id future w1 w2,
       TriggerID (Id (data st)) = Parsed id
       ∧ Stop (TriggerId.ResourceGroup id) (TriggerId.FactoryName id) (TriggerId.Name id)
           (remote st) = ((future, None), w1)
       ∧ WaitForCompletionRef future w1 = (None, w2)
       ∧ Delete (TriggerId.ResourceGroup id) (TriggerId.FactoryName id) (TriggerId.Name id)
           w2 = (None, remote st')).
Proof.
  intros Hrun. destruct (delete_cases st) as [new Hcase].
  rewrite Hrun in Hcase. cbn [fst snd] in Hcase.
  destruct Hcase as [msg Hid|id future cause w1 Hid Hstop
                    |id future w1 cause w2 Hid Hstop Hwait
                    |id future w1 w2 err w3 Hid Hstop Hwait Hdelete];
    (split; [done|]); try discriminate.
  intros Hr. destruct err; [discriminate|].
  exists id, future, w1, w2. done.
Qed.

End cycle_edges.

(** ** The read sets attributes and nothing else *)

Lemma resource_data_eq (d1 d2 : ResourceData) :
  Id d1 = Id d2 → IsNewResource d1 = IsNewResource d2 → attributes d1 = attributes d2 →
  d1 = d2.
Proof. destruct d1, d2. cbn. by intros -> -> ->. Qed.

Lemma overwrites_nothing : overwrites (fun d => d).
Proof. exists (fun _ => None). done. Qed.

Lemma overwrites_set k v : overwrites (Set_attribute k v).
Proof.
  exists (fun k' => if decide (k = k') then Some v else None).
  intros d. split; [done|]. split; [done|]. intros k'.
  rewrite set_attribute_lookup. by case_decide.
Qed.

Lemma overwrites_compose f h :
  overwrites f → overwrites h → overwrites (fun d => h (f d)).
Proof.
  intros [gf Hf] [gh Hh].
  exists (fun k => match gh k with Some v => Some v | None => gf k end).
  intros d. destruct (Hf d) as (Hid & Hnew & Hattr).
  destruct (Hh (f d)) as (Hid' & Hnew' & Hattr').
  split; [congruence|]. split; [congruence|].
  intros k. rewrite Hattr'. destruct (gh k); [done|]. apply Hattr.
Qed.

Lemma overwrites_idempotent f d : overwrites f → f (f d) = f d.
Proof.
  intros [g Hf]. destruct (Hf d) as (Hid & Hnew & Hattr).
  destruct (Hf (f d)) as (Hid' & Hnew' & Hattr').
  apply resource_data_eq; [done..|].
  apply map_eq. intros k. rewrite Hattr'. destruct (g k) eqn:Hk; [|done].
  by rewrite Hattr, Hk.
Qed.

Section read_overwrites.
Context {World : Type} {client : TriggersClient World}.
Context {parse : Parse} {clock : Clock} {meta : Meta}.

Lemma overwrites_set_identity id resp : overwrites (set_identity id resp).
Proof.
  unfold set_identity.
  do 3 (apply (overwrites_compose _ (Set_attribute _ _)); [|apply overwrites_set]).
  apply overwrites_set.
Qed.

Lemma overwrites_set_recurrence recurrence : overwrites (set_recurrence recurrence).
Proof.
  destruct recurrence as [recurrence|]; [|apply overwrites_nothing].
  unfold set_recurrence.
  apply (overwrites_compose _ (fun d => match Schedule recurrence with
                                        | Some schedule => Set_attribute "schedule" _ d
                                        | None => d
                                        end)).
  2:{ destruct (Schedule recurrence); [apply overwrites_set|apply overwrites_nothing]. }
  apply (overwrites_compose _ (Set_attribute _ _)); [|apply overwrites_set].
  apply (overwrites_compose _ (Set_attribute _ _)); [|apply overwrites_set].
  apply (overwrites_compose
           (fun d => match StartTime recurrence with
                     | Some v => Set_attribute "start_time" _ d
                     | None => d
                     end)
           (fun d => match EndTime recurrence with
                     | Some v => Set_attribute "end_time" _ d
                     | None => d
                     end)).
  - destruct (StartTime recurrence); [apply overwrites_set|apply overwrites_nothing].
  - destruct (EndTime recurrence); [apply overwrites_set|apply overwrites_nothing].
Qed.

Lemma overwrites_set_pipelines pipelines : overwrites (set_pipelines pipelines).
Proof.
  destruct pipelines as [[|first rest]|]; try apply overwrites_nothing.
  unfold set_pipelines.
  apply (overwrites_compose _ (Set_attribute _ _)); [|apply overwrites_set].
  destruct (PipelineReference_ first); [apply overwrites_set|apply overwrites_nothing].
Qed.

(** Without error from the get, how the read ends and what it sets depend
    on the answer only. *)
Lemma read_response_overwrites id resp :
  ∃ F r, overwrites F
    ∧ ∀ st : state World,
        read_response id resp None st =
          (r, {| data := F (data st); remote := remote st; calls := calls st |}).
Proof.
  destruct (Properties resp) as [[t|kind]|] eqn:Hprops.
  - destruct (TypeProperties t) as [tp|] eqn:Htp.
    + exists (fun d =>
                Set_attribute "description" (VString <$> Description t)
                  (Set_attribute "annotations"
                     (Some (VList (VString <$> flattenDataFactoryAnnotations (Annotations t))))
                     (set_pipelines (Pipelines t)
                        (set_recurrence (Recurrence tp)
                           (Set_attribute "activated"
                              (Some (VBool (bool_decide
                                              (RuntimeState t = TriggerRuntimeStateStarted))))
                              (set_identity id resp d)))))), (Return tt).
      split; [|intros st; by erewrite read_response_schedule].
      apply (overwrites_compose _ (Set_attribute _ _)); [|apply overwrites_set].
      apply (overwrites_compose _ (Set_attribute _ _)); [|apply overwrites_set].
      apply (overwrites_compose _ (set_pipelines _)); [|apply overwrites_set_pipelines].
      apply (overwrites_compose _ (set_recurrence _)); [|apply overwrites_set_recurrence].
      apply (overwrites_compose _ (Set_attribute _ _)); [|apply overwrites_set].
      apply overwrites_set_identity.
    + exists (fun d => Set_attribute "activated"
                (Some (VBool (bool_decide (RuntimeState t = TriggerRuntimeStateStarted))))
                (set_identity id resp d)), Crash.
      split.
      * apply (overwrites_compose _ (Set_attribute _ _)); [|apply overwrites_set].
        apply overwrites_set_identity.
      * intros st. unfold read_response.
        rewrite bind_run. cbn [set_data]. rewrite bind_run, Hprops. cbn [deref ret].
        cbn [AsScheduleTrigger negb]. unfold read_schedule_trigger.
        rewrite bind_run. cbn [set_data]. rewrite bind_run, Htp. done.
  - destruct (Type_ resp) as [received|] eqn:Htype.
    + exists (set_identity id resp),
        (Fail (Classifying id TypeBasicTriggerTypeScheduleTrigger received)).
      split; [|intros st; by erewrite read_response_other_kind].
      apply overwrites_set_identity.
    + exists (set_identity id resp), Crash. split; [apply overwrites_set_identity|].
      intros st. unfold read_response.
      rewrite bind_run. cbn [set_data]. rewrite bind_run, Hprops. cbn [deref ret].
      cbn [AsScheduleTrigger negb]. rewrite bind_run, Htype. done.
  - exists (set_identity id resp), Crash. split; [apply overwrites_set_identity|].
    intros st. unfold read_response.
    rewrite bind_run. cbn [set_data]. rewrite bind_run, Hprops. done.
Qed.

(** X15: a read is stable. When the get answers a second read as it
    answered the first, without error, the second read ends as the first
    did and leaves the resource data exactly as the first left them. *)
Theorem read_twice (st : state World) (id : TriggerId.t) (resp : TriggerResource)
    (w1 w2 : World) (r : result unit) (st1 : state World) :
  TriggerID (Id (data st)) = Parsed id →
  Get (TriggerId.ResourceGroup id) (TriggerId.FactoryName id) (TriggerId.Name id)
    (remote st) = ((resp, None), w1) →
  Get (TriggerId.ResourceGroup id) (TriggerId.FactoryName id) (TriggerId.Name id) w1
    = ((resp, None), w2) →
  resourceDataFactoryTriggerScheduleRead st = (r, st1) →
  ∃ st2,
    resourceDataFactoryTriggerScheduleRead st1 = (r, st2)
    ∧ data st2 = data st1.
Proof.
  intros Hid Hget Hget' Hrun.
  destruct (read_response_overwrites id resp) as (F & r' & HF & Hresponse).
  rewrite (read_run st _ _ _ _ Hid Hget), Hresponse in Hrun.
  injection Hrun as <- <-.
  destruct HF as [g Hg]. destruct (Hg (data st)) as (HFid & _ & _).
  erewrite read_run; [|cbn; by rewrite HFid|cbn; exact Hget'].
  rewrite Hresponse. eexists. split; [reflexivity|]. cbn.
  apply overwrites_idempotent. by exists g.
Qed.

(** X16: a cycle that returns no error has gone through its calls up to the
    read without error and has recorded the path of the trigger identifier;
    its last call is the get of the read, for the identifier parsed from that
    path. When that get answered without error the path is the id of the
    resource; the one other answer a cycle without error can have had is an
    error with the status 404, and then the id has been cleared and the
    attributes are as they were before the cycle. Conversely a cycle whose
    calls up to the read went through and whose get of the read answers
    with an error of the status 404 returns no error, with the id cleared. *)
Theorem cycle_records_id (st : state World) (factory : DataFactoryId.t)
    (tid : TriggerId.t) (r : result unit) (st' : state World) :
  select_data_factory_id (data st) = Parsed (Some factory) →
  tid = NewTriggerID subscriptionId (DataFactoryId.ResourceGroup factory)
          (DataFactoryId.FactoryName factory) (Get_string (data st) "name") →
  resourceDataFactoryTriggerScheduleCreateUpdate st = (r, st') →
  (r = Return tt →
   ∃ st4 id resp err,
     cycle_before_read (data st) tid st = (Return tt, st4)
     ∧ data st4 = data st
     ∧ TriggerID (TriggerId_ID tid) = Parsed id
     ∧ Get (TriggerId.ResourceGroup id) (TriggerId.FactoryName id) (TriggerId.Name id)
         (remote st4) = ((resp, err), remote st')
     ∧ calls st' = calls st4 ++ [CallGet (TriggerId.ResourceGroup id)
                                   (TriggerId.FactoryName id) (TriggerId.Name id)]
     ∧ match err with
       | None => Id (data st') = TriggerId_ID tid
       | Some _ =>
         ResponseWasNotFound (Response resp) = true
         ∧ Id (data st') = ""
         ∧ attributes (data st') = attributes (data st)
       end)
  ∧ (∀ st4 id resp cause w,
       cycle_before_read (data st) tid st = (Return tt, st4) →
       TriggerID (TriggerId_ID tid) = Parsed id →
       Get (TriggerId.ResourceGroup id) (TriggerId.FactoryName id) (TriggerId.Name id)
         (remote st4) = ((resp, Some cause), w) →
       ResponseWasNotFound (Response resp) = true →
       r = Return tt
       ∧ Id (data st') = ""
       ∧ attributes (data st') = attributes (data st)
       ∧ remote st' = w).
Proof.
  intros Hsel -> Hrun. rewrite create_update_run, Hsel, cycle_split in Hrun.
  set (tid := NewTriggerID _ _ _ _) in *.
  split.
  - intros ->.
    apply bind_cases in Hrun as [([] & st4 & Hprefix & Hrun)|[(e & ? & _)|[? _]]];
      [|discriminate..].
    pose proof (cycle_prefix_same_data _ _ _ _ _ Hprefix) as Hdata.
    unfold same_data in Hdata.
    rewrite bind_run in Hrun. cbn [set_data] in Hrun.
    set (st5 := {| data := SetId (TriggerId_ID tid) (data st4); remote := remote st4;
                   calls := calls st4 |}) in Hrun.
    destruct (TriggerID (Id (data st5))) as [id|msg] eqn:Hid.
    2:{ unfold resourceDataFactoryTriggerScheduleRead in Hrun.
        rewrite bind_run in Hrun. cbn [get_data] in Hrun.
        rewrite bind_run, Hid in Hrun. discriminate. }
    destruct (Get (TriggerId.ResourceGroup id) (TriggerId.FactoryName id)
                (TriggerId.Name id) (remote st5)) as [[resp err] w1] eqn:Hget.
    rewrite (read_run st5 _ _ _ _ Hid Hget) in Hrun.
    exists st4, id, resp, err. split; [exact Hprefix|]. split; [exact Hdata|].
    split; [exact Hid|].
    destruct err as [cause|].
    + unfold read_response in Hrun.
      destruct (ResponseWasNotFound (Response resp)); [|discriminate].
      injection Hrun as <-. cbn. by rewrite Hdata.
    + destruct (read_response_overwrites id resp) as (F & r' & [g Hg] & Hresponse).
      rewrite Hresponse in Hrun. injection Hrun as _ <-. cbn.
      destruct (Hg (SetId (TriggerId_ID tid) (data st4))) as (-> & _ & _). done.
  - intros st4 id resp cause w Hprefix Hid Hget Hgone.
    pose proof (cycle_prefix_same_data _ _ _ _ _ Hprefix) as Hdata.
    unfold same_data in Hdata. unfold cycle_before_read in Hprefix.
    rewrite bind_run, Hprefix, bind_run in Hrun. cbn [set_data] in Hrun.
    erewrite read_run in Hrun; [|exact Hid|exact Hget].
    unfold read_response in Hrun. rewrite Hgone in Hrun.
    injection Hrun as <- <-. cbn. by rewrite Hdata.
Qed.

End read_overwrites.

(** ** The further properties on the sample *)

(** The read of a trigger that is there: one get. *)
Lemma read_issues_one_get_witness :
  ∃ st',
    resourceDataFactoryTriggerScheduleRead
      (start_state known (one_trigger (IsScheduleTrigger plain_trigger) 0))
    = (Return tt, st')
    ∧ calls st' = [CallGet "rg" "df" "t1"].
Proof.
  destruct (resourceDataFactoryTriggerScheduleRead
              (start_state known (one_trigger (IsScheduleTrigger plain_trigger) 0)))
    as [r st'] eqn:Hrun.
  destruct (read_issues_one_get _ _ _ Hrun) as [(msg & Hid & _)|(id & Hid & Hcalls & _)].
  - vm_compute in Hid. discriminate.
  - vm_compute in Hid. injection Hid as <-.
    exists st'. split; [|exact Hcalls].
    vm_compute in Hrun. injection Hrun as <- _. reflexivity.
Defined.

(** The read of a trigger that is gone: no error, no identifier. *)
Lemma read_of_get_error_witness :
  ∃ st',
    resourceDataFactoryTriggerScheduleRead (start_state known (no_triggers 0))
    = (Return tt, st')
    ∧ Id (data st') = ""
    ∧ attributes (data st') = attributes known.
Proof.
  destruct (read_of_get_error (start_state known (no_triggers 0))
              (NewTriggerID "sub" "rg" "df" "t1") not_found "trigger not found"
              (no_triggers 0))
    as (r & st' & Hrun & Hattrs & _ & Hgone & _); [vm_compute; reflexivity..|].
  destruct (Hgone eq_refl) as [-> Hid].
  exists st'. split; [exact Hrun|]. split; [exact Hid|exact Hattrs].
Defined.

(** The read of a schedule trigger without type properties panics. *)
Lemma read_panics_iff_witness :
  read_panics_on (found "rg" "df" "t1" (IsScheduleTrigger bare_trigger)) = true
  ∧ (resourceDataFactoryTriggerScheduleRead
       (start_state known (one_trigger (IsScheduleTrigger bare_trigger) 0))).1 = Crash.
Proof.
  split; [vm_compute; reflexivity|].
  apply read_panics_iff.
  exists (NewTriggerID "sub" "rg" "df" "t1"),
    (found "rg" "df" "t1" (IsScheduleTrigger bare_trigger)),
    (one_trigger (IsScheduleTrigger bare_trigger) 0).
  repeat split; vm_compute; reflexivity.
Defined.

(** A creation with activation: neither stop nor delete among its calls. *)
Lemma create_update_never_stops_witness :
  ∃ r st' new,
    resourceDataFactoryTriggerScheduleCreateUpdate
      (start_state (desired true) (no_triggers 3)) = (r, st')
    ∧ calls st' = new
    ∧ Forall (fun c => is_stop c = false ∧ is_delete c = false) new.
Proof.
  destruct (resourceDataFactoryTriggerScheduleCreateUpdate
              (start_state (desired true) (no_triggers 3))) as [r st'] eqn:Hrun.
  destruct (create_update_never_stops _ _ _ Hrun) as (new & Hcalls & Hnew).
  exists r, st', new. split; [reflexivity|]. split; [exact Hcalls|exact Hnew].
Defined.

(** A creation whose wait for the start runs into the deadline: the trigger
    has been created, the resource data have no identifier. *)
Lemma cycle_failure_keeps_data_witness :
  ∃ st',
    resourceDataFactoryTriggerScheduleCreateUpdate
      (start_state (desired true) (no_triggers 0))
    = (Fail (WaitingOnStart (NewTriggerID "sub" "rg" "df" "t1")
               "context deadline exceeded"), st')
    ∧ data st' = desired true
    ∧ is_Some (triggers (remote st') !! ("rg", "df", "t1")).
Proof.
  assert (Hrun : ∃ st',
            resourceDataFactoryTriggerScheduleCreateUpdate
              (start_state (desired true) (no_triggers 0))
            = (Fail (WaitingOnStart (NewTriggerID "sub" "rg" "df" "t1")
                       "context deadline exceeded"), st')
            ∧ is_Some (triggers (remote st') !! ("rg", "df", "t1"))).
  { eexists. split; [vm_compute; reflexivity|]. vm_compute. eauto. }
  destruct Hrun as (st' & Hrun & Hthere).
  exists st'. split; [exact Hrun|]. split; [|exact Hthere].
  exact (cycle_failure_keeps_data _ _ _ Hrun eq_refl).
Defined.

(** An update: the create-or-update is the first call. *)
Lemma update_skips_existence_check_witness :
  ∃ r st' trigger rest,
    resourceDataFactoryTriggerScheduleCreateUpdate
      (start_state desired_update (one_trigger (IsScheduleTrigger plain_trigger) 3))
    = (r, st')
    ∧ calls st' = CallCreateOrUpdate "rg" "df" "t1" trigger :: rest
    ∧ Forall (fun c => is_create_or_update c = false) rest.
Proof.
  destruct (resourceDataFactoryTriggerScheduleCreateUpdate
              (start_state desired_update (one_trigger (IsScheduleTrigger plain_trigger) 3)))
    as [r st'] eqn:Hrun.
  assert (Hsel : select_data_factory_id
                   (data (start_state desired_update
                            (one_trigger (IsScheduleTrigger plain_trigger) 3)))
                 = Parsed (Some (NewDataFactoryID "sub" "rg" "df")))
    by (vm_compute; reflexivity).
  pose proof (update_skips_existence_check
                (start_state desired_update (one_trigger (IsScheduleTrigger plain_trigger) 3))
                (NewDataFactoryID "sub" "rg" "df") r st' eq_refl Hsel Hrun) as Hupdate.
  destruct (expandDataFactorySchedule _) as [schedule|] eqn:Hexpand;
    [|vm_compute in Hexpand; discriminate].
  destruct Hupdate as (rest & Hcalls & Hrest).
  exists r, st', (trigger_of desired_update schedule), rest.
  split; [reflexivity|]. split; [exact Hcalls|exact Hrest].
Defined.

(** The existence check on an empty remote system lets the creation go on. *)
Lemma existence_check_outcome_witness :
  ∃ st1,
    check_not_existing (NewTriggerID "sub" "rg" "df" "t1")
      (start_state (desired true) (no_triggers 3)) = (Return tt, st1)
    ∧ calls st1 = [CallGet "rg" "df" "t1"].
Proof.
  assert (Hget : Get "rg" "df" "t1" (no_triggers 3)
                 = ((not_found, Some "trigger not found"), no_triggers 3))
    by (vm_compute; reflexivity).
  destruct (existence_check_outcome (start_state (desired true) (no_triggers 3))
              (NewTriggerID "sub" "rg" "df" "t1") not_found (Some "trigger not found")
              (no_triggers 3) Hget)
    as (r & Hrun & Hreturn & _).
  assert (r = Return tt) as -> by (apply Hreturn; split; [by right|by left]).
  eexists. split; [exact Hrun|reflexivity].
Defined.

(** A delete that goes through: the trigger is gone, the resource data are
    as they were. *)
Lemma delete_keeps_data_witness :
  ∃ st',
    resourceDataFactoryTriggerScheduleDelete
      (start_state known (one_trigger (IsScheduleTrigger plain_trigger) 1))
    = (Return tt, st')
    ∧ data st' = known
    ∧ triggers (remote st') !! ("rg", "df", "t1") = None.
Proof.
  assert (Hrun : ∃ st',
            resourceDataFactoryTriggerScheduleDelete
              (start_state known (one_trigger (IsScheduleTrigger plain_trigger) 1))
            = (Return tt, st')
            ∧ triggers (remote st') !! ("rg", "df", "t1") = None).
  { eexists. split; vm_compute; reflexivity. }
  destruct Hrun as (st' & Hrun & Hgone).
  exists st'. split; [exact Hrun|]. split; [|exact Hgone].
  by destruct (delete_keeps_data _ _ _ Hrun) as [Hdata _].
Defined.

(** Two reads of the same trigger, one after the other. *)
Lemma read_twice_witness :
  ∃ st1 st2,
    resourceDataFactoryTriggerScheduleRead
      (start_state known (one_trigger (IsScheduleTrigger plain_trigger) 0))
    = (Return tt, st1)
    ∧ resourceDataFactoryTriggerScheduleRead st1 = (Return tt, st2)
    ∧ data st2 = data st1.
Proof.
  assert (Hrun : ∃ st1,
            resourceDataFactoryTriggerScheduleRead
              (start_state known (one_trigger (IsScheduleTrigger plain_trigger) 0))
            = (Return tt, st1)) by (eexists; vm_compute; reflexivity).
  destruct Hrun as [st1 Hrun].
  assert (Hid : TriggerID trigger_id = Parsed (NewTriggerID "sub" "rg" "df" "t1"))
    by (vm_compute; reflexivity).
  assert (Hget : Get "rg" "df" "t1" (one_trigger (IsScheduleTrigger plain_trigger) 0)
                 = ((found "rg" "df" "t1" (IsScheduleTrigger plain_trigger), None),
                    one_trigger (IsScheduleTrigger plain_trigger) 0))
    by (vm_compute; reflexivity).
  destruct (read_twice
              (start_state known (one_trigger (IsScheduleTrigger plain_trigger) 0))
              (NewTriggerID "sub" "rg" "df" "t1")
              (found "rg" "df" "t1" (IsScheduleTrigger plain_trigger))
              (one_trigger (IsScheduleTrigger plain_trigger) 0)
              (one_trigger (IsScheduleTrigger plain_trigger) 0) _ _
              Hid Hget Hget Hrun) as (st2 & Hagain & Hsame).
  exists st1, st2. done.
Defined.

(** A creation that goes through records the path of the trigger. *)
Lemma cycle_records_id_witness :
  ∃ st',
    resourceDataFactoryTriggerScheduleCreateUpdate
      (start_state (desired true) (no_triggers 3)) = (Return tt, st')
    ∧ Id (data st') = trigger_id.
Proof.
  assert (Hrun : ∃ st',
            resourceDataFactoryTriggerScheduleCreateUpdate
              (start_state (desired true) (no_triggers 3)) = (Return tt, st')
            ∧ Id (data st') ≠ "").
  { eexists. split; [vm_compute; reflexivity|]. vm_compute. discriminate. }
  destruct Hrun as (st' & Hrun & Hid).
  exists st'. split; [exact Hrun|].
  assert (Hsel : select_data_factory_id
                   (data (start_state (desired true) (no_triggers 3)))
                 = Parsed (Some (NewDataFactoryID "sub" "rg" "df")))
    by (vm_compute; reflexivity).
  assert (Htid : NewTriggerID "sub" "rg" "df" "t1"
                 = NewTriggerID subscriptionId "rg" "df"
                     (Get_string (data (start_state (desired true) (no_triggers 3))) "name"))
    by (vm_compute; reflexivity).
  destruct (cycle_records_id (start_state (desired true) (no_triggers 3))
              (NewDataFactoryID "sub" "rg" "df") (NewTriggerID "sub" "rg" "df" "t1")
              (Return tt) st' Hsel Htid Hrun) as [Hreturned _].
  destruct (Hreturned eq_refl)
    as (st4 & id & resp & [cause|] & _ & _ & _ & _ & _ & Hrecorded).
  - by destruct Hrecorded as (_ & Hnone & _).
  - rewrite Hrecorded. vm_compute. reflexivity.
Defined.

(** ** Validated blocks *)

Lemma IntBetween_int32 min max v :
  - 2 ^ 31 ≤ min → max < 2 ^ 31 →
  IntBetween min max v = true → ∃ n, v = VInt n ∧ in_int32 n.
Proof.
  intros Hmin Hmax. destruct v as [| |n| | | |]; try discriminate. cbn.
  intros H%bool_decide_eq_true. exists n. split; [done|]. unfold in_int32. lia.
Qed.

Lemma days_of_month_valid_int32 v :
  days_of_month_valid v = true → ∃ n, v = VInt n ∧ in_int32 n.
Proof.
  unfold days_of_month_valid, Any. cbn. rewrite orb_false_r.
  intros [H|H]%orb_true_iff; eapply IntBetween_int32 in H; try done; lia.
Qed.

Lemma week_valid_int32 v :
  week_valid v || IntBetween 0 0 v = true → ∃ n, v = VInt n ∧ in_int32 n.
Proof.
  unfold week_valid, Any. cbn. rewrite orb_false_r.
  intros [[H|H]%orb_true_iff|H]%orb_true_iff; eapply IntBetween_int32 in H; try done; lia.
Qed.

Lemma all_of_ints (p : any → bool) v :
  (∀ x, p x = true → ∃ n, x = VInt n ∧ in_int32 n) →
  all_of p v = true →
  ∃ l, v = VList (VInt <$> l) ∧ Forall in_int32 l.
Proof.
  intros Hp. destruct v as [| | | | |l|]; try discriminate. cbn.
  induction l as [|x l IH]; cbn.
  - intros _. by exists [].
  - intros [Hx Hl]%andb_true_iff.
    destruct (Hp x Hx) as (n & -> & Hn).
    destruct (IH Hl) as (ns & [= Hns] & Hall).
    exists (n :: ns). cbn. rewrite Hns. split; [done|]. by constructor.
Qed.

Lemma all_of_days v :
  all_of IsDayOfTheWeek v = true → ∃ l, v = VList (VString <$> l).
Proof.
  destruct v as [| | | | |l|]; try discriminate. cbn.
  induction l as [|x l IH]; cbn.
  - intros _. by exists [].
  - intros [Hx Hl]%andb_true_iff.
    destruct x as [| | | |s| |]; try discriminate.
    destruct (IH Hl) as (ss & [= Hss]).
    exists (s :: ss). cbn. by rewrite Hss.
Qed.

Lemma monthly_valid_expand v :
  monthly_valid v = true →
  ∃ o, expand_occurrence v = Done o ∧ occurrence_copied v o.
Proof.
  destruct v as [| | | | | |value]; try discriminate. cbn.
  intros [Hday Hweek]%andb_true_iff.
  destruct (index value "weekday") as [| | | |day| |] eqn:Hd; try discriminate.
  destruct (week_valid_int32 _ Hweek) as (n & Hn & Hrange).
  exists {| Day := day; Occurrence := Some n |}.
  unfold expand_occurrence.
  change (as_map (VMap value) ≫= ?f) with (f value). cbv beta.
  rewrite ?Hd, Hn. cbn. rewrite (int32_id n Hrange). split; [done|].
  exists value, n. done.
Qed.

Lemma all_of_monthly v :
  all_of monthly_valid v = true →
  ∃ l occs, v = VList l
    ∧ range_append expand_occurrence l = Done occs
    ∧ Forall2 occurrence_copied l occs.
Proof.
  destruct v as [| | | | |l|]; try discriminate. cbn.
  induction l as [|x l IH]; cbn.
  - intros _. exists [], []. done.
  - intros [Hx Hl]%andb_true_iff.
    destruct (monthly_valid_expand x Hx) as (o & Ho & Hcopied).
    destruct (IH Hl) as (l' & occs & [= <-] & Hocc & Hall).
    exists (x :: l), (o :: occs). split; [done|].
    cbn [range_append]. rewrite Ho. cbn. rewrite Hocc. cbn.
    split; [done|]. by constructor.
Qed.

Lemma default_nonempty_ptr {A : Type} (l : list A) : default [] (nonempty_ptr l) = l.
Proof. by destruct l. Qed.

(** X17: a block that passes the validation of the schema is encoded
    without panic and without change: the integers and the weekdays of the
    encoded schedule are those of the block, in order, and each monthly
    occurrence has the weekday and the week of its block. *)
Theorem validated_block_is_encoded_as_it_is (m : gmap string any) (rest : list any) :
  schedule_block_valid m = true →
  ∃ s,
    expandDataFactorySchedule (VMap m :: rest) = Done (Some s)
    ∧ index m "days_of_month" = VList (VInt <$> default [] (MonthDays s))
    ∧ index m "days_of_week" = VList (VString <$> default [] (WeekDays s))
    ∧ index m "hours" = VList (VInt <$> default [] (Hours s))
    ∧ index m "minutes" = VList (VInt <$> default [] (Minutes s))
    ∧ ∃ monthly,
        index m "monthly" = VList monthly
        ∧ Forall2 occurrence_copied monthly (default [] (MonthlyOccurrences s)).
Proof.
  unfold schedule_block_valid. rewrite !andb_true_iff.
  intros [[[[[Hdom Hdow] _] Hhrs] Hmins] Hmon].
  apply all_of_ints in Hdom as (dom & Hdom & Hdom32); [|apply days_of_month_valid_int32].
  apply all_of_days in Hdow as (dow & Hdow).
  apply all_of_ints in Hhrs as (hrs & Hhrs & Hhrs32);
    [|intros x Hx; eapply IntBetween_int32 in Hx; [done|lia..]].
  apply all_of_ints in Hmins as (mins & Hmins & Hmins32);
    [|intros x Hx; eapply IntBetween_int32 in Hx; [done|lia..]].
  apply all_of_monthly in Hmon as (mon & occs & Hmon & Hoccs & Hcopied).
  exists {| Minutes := nonempty_ptr mins; Hours := nonempty_ptr hrs;
            WeekDays := nonempty_ptr dow; MonthDays := nonempty_ptr dom;
            MonthlyOccurrences := nonempty_ptr occs |}.
  cbn [Minutes Hours WeekDays MonthDays MonthlyOccurrences].
  rewrite !default_nonempty_ptr. split; [|eauto 10].
  unfold expandDataFactorySchedule.
  change (as_map (VMap m) ≫= ?f) with (f m). cbv beta.
  rewrite Hdom, Hdow, Hhrs, Hmins, Hmon.
  change (as_list (VList ?l) ≫= ?f) with (f l). cbv beta.
  rewrite (range_append_fmap as_string VString) by done.
  change (Done ?a ≫= ?f) with (f a). cbv beta.
  change (as_list (VList ?l) ≫= ?f) with (f l). cbv beta.
  rewrite Hoccs.
  change (Done ?a ≫= ?f) with (f a). cbv beta.
  rewrite !expand_ints_shape, !map_int32_id by done. done.
Qed.

Lemma validated_block_is_encoded_as_it_is_witness :
  schedule_block_valid
    (schedule_block_map [1; -1] ["Monday"; "Wednesday"] [0; 24] [30] [("Friday", 2)]) = true
  ∧ ∃ s, expandDataFactorySchedule [full_block] = Done (Some s)
       ∧ VInt <$> default [] (Hours s) = [VInt 0; VInt 24].
Proof.
  assert (Hvalid : schedule_block_valid
            (schedule_block_map [1; -1] ["Monday"; "Wednesday"] [0; 24] [30]
               [("Friday", 2)]) = true) by (vm_compute; reflexivity).
  split; [exact Hvalid|].
  destruct (validated_block_is_encoded_as_it_is _ [] Hvalid)
    as (s & Hs & _ & _ & Hhours & _).
  exists s. split; [exact Hs|].
  assert (Hinput : index (schedule_block_map [1; -1] ["Monday"; "Wednesday"] [0; 24] [30]
                            [("Friday", 2)]) "hours" = VList [VInt 0; VInt 24])
    by (vm_compute; reflexivity).
  rewrite Hinput in Hhours. by injection Hhours as <-.
Defined.

(** ** What is sent and what is read back *)

Section echo.
Context {World : Type} {client : TriggersClient World}.
Context {parse : Parse} {clock : Clock} {meta : Meta}.

Lemma check_not_existing_emits id :
  keeps (World:=World) (emitting (fun c => is_create_or_update c = false))
    (check_not_existing id).
Proof. unfold check_not_existing. repeat emit_step. Qed.

(** X18: a cycle issues at most one create-or-update call. When it issues
    one, the factory identifier was selected and the schedule was encoded,
    and the call goes to the trigger of that factory under the name of the
    resource data, with the trigger built from those data. *)
Theorem cycle_sends_one_trigger (st : state World) (r : result unit) (st' : state World) :
  resourceDataFactoryTriggerScheduleCreateUpdate st = (r, st') →
  ∃ new,
    calls st' = calls st ++ new
    ∧ (Forall (fun c => is_create_or_update c = false) new
       ∨ ∃ factory schedule pre post,
           select_data_factory_id (data st) = Parsed (Some factory)
           ∧ expandDataFactorySchedule (Get_list (data st) "schedule") = Done schedule
           ∧ new = pre ++
               CallCreateOrUpdate (DataFactoryId.ResourceGroup factory)
                 (DataFactoryId.FactoryName factory) (Get_string (data st) "name")
                 (trigger_of (data st) schedule) :: post
           ∧ Forall (fun c => is_create_or_update c = false) pre
           ∧ Forall (fun c => is_create_or_update c = false) post).
Proof.
  rewrite create_update_run.
  destruct (select_data_factory_id (data st)) as [[factory|]|msg] eqn:Hsel.
  2,3: intros [= <- <-]; exists []; rewrite app_nil_r; by split; [|left].
  unfold create_or_update_trigger. intros Hrun.
  apply bind_cases in Hrun as [([] & st1 & Hcheck & Hrun)|[(e & -> & Hcheck)|[-> Hcheck]]].
  2,3: (assert (emitting (fun c => is_create_or_update c = false) st st')
          as (new & Hcalls & Hnew)
          by (destruct (IsNewResource (data st));
              [by eapply check_not_existing_emits|discriminate]);
        exists new; split; [done|by left]).
  assert (emitting (fun c => is_create_or_update c = false) st st1)
    as (pre & Hpre & Hprecalls).
  { destruct (IsNewResource (data st)); [by eapply check_not_existing_emits|].
    injection Hcheck as <-. reflexivity. }
  apply bind_cases in Hrun
    as [(schedule & st2 & Hexpand & Hrun)|[(e & -> & Hexpand)|[-> Hexpand]]].
  2:{ destruct (expandDataFactorySchedule _); discriminate. }
  2:{ destruct (expandDataFactorySchedule _); [discriminate|].
      injection Hexpand as <-. exists pre. split; [done|by left]. }
  apply lift_go_return in Hexpand as [Hexpand ->].
  rewrite bind_run, invoke_run in Hrun.
  apply cycle_tail_emits in Hrun as (post & Hpost & Hpostcalls).
  cbn in Hpost. eexists. split; [|right; exists factory, schedule, pre, post; done].
  by rewrite Hpost, Hpre, <- !app_assoc.
Qed.

(** X19: what a cycle sends is what a read brings back. When the get of a
    read answers with a schedule trigger that has the pipelines, the type
    properties and the description of the trigger built from the resource
    data and their encoded schedule, as the cycle builds it, the read
    succeeds and leaves frequency, pipeline name, pipeline
    parameters and description as the resource data had them; the interval
    comes back as its [int32]; [activated] is whether the runtime state is
    Started; the schedule is the encoded one, decoded and read through the
    schema, or is left alone when none was encoded. Encoding the schedule
    the read has stored gives the schedule that was sent again, with one
    exception: a sent schedule without any field is stored as the nil
    element, and that is encoded as no schedule. *)
Theorem read_of_sent_trigger (st : state World) (id : TriggerId.t)
    (resp : TriggerResource) (w1 : World) (schedule : option RecurrenceSchedule)
    (sent answered : ScheduleTrigger) :
  TriggerID (Id (data st)) = Parsed id →
  Get (TriggerId.ResourceGroup id) (TriggerId.FactoryName id) (TriggerId.Name id)
    (remote st) = ((resp, None), w1) →
  expandDataFactorySchedule (Get_list (data st) "schedule") = Done schedule →
  Properties (trigger_of (data st) schedule) = Some (IsScheduleTrigger sent) →
  Properties resp = Some (IsScheduleTrigger answered) →
  Pipelines answered = Pipelines sent →
  TypeProperties answered = TypeProperties sent →
  Description answered = Description sent →
  ∃ st',
    resourceDataFactoryTriggerScheduleRead st = (Return tt, st')
    ∧ Get_string (data st') "frequency" = Get_string (data st) "frequency"
    ∧ Get_int (data st') "interval" = int32 (Get_int (data st) "interval")
    ∧ Get_string (data st') "pipeline_name" = Get_string (data st) "pipeline_name"
    ∧ Get_map (data st') "pipeline_parameters" = Get_map (data st) "pipeline_parameters"
    ∧ Get_string (data st') "description" = Get_string (data st) "description"
    ∧ Get_bool (data st') "activated"
      = bool_decide (RuntimeState answered = TriggerRuntimeStateStarted)
    ∧ Get_list (data st') "schedule"
      = match schedule with
        | Some s => schema_read_schedule (flattenDataFactorySchedule (Some s))
        | None => Get_list (data st) "schedule"
        end
    ∧ (schedule ≠ Some no_schedule_fields →
       expandDataFactorySchedule (Get_list (data st') "schedule") = Done schedule)
    ∧ (schedule = Some no_schedule_fields →
       Get_list (data st') "schedule" = [VNil]
       ∧ expandDataFactorySchedule (Get_list (data st') "schedule") = Done None).
Proof.
  intros Hid Hget Hexpand Hsent Hprops Hpipelines Htp Hdescription.
  injection Hsent as <-. cbn in Hpipelines, Htp, Hdescription.
  rewrite (read_run st _ _ _ _ Hid Hget).
  erewrite read_response_schedule by eauto.
  eexists. split; [reflexivity|]. cbn [data]. rewrite Hpipelines, Hdescription.
  cbn [Recurrence].
  set (recurrence := {| Frequency := _; Interval := _; StartTime := _; EndTime := _;
                        Schedule := schedule |}).
  set (d0 := data st).
  set (d1 := set_identity id resp d0).
  set (d2 := Set_attribute "activated" _ d1).
  set (d3 := set_recurrence (Some recurrence) d2).
  set (d4 := set_pipelines _ d3).
  destruct (set_identity_lookup id resp d0) as (_ & _ & _ & _ & _ & Hother).
  destruct (set_recurrence_lookup recurrence d2) as (_ & _ & Hfreq & Hint & Hschedule).
  destruct (set_pipelines_lookup
              (Some [ {| PipelineReference_ :=
                           Some {| ReferenceName := Some (Get_string d0 "pipeline_name");
                                   ReferenceType := Some "PipelineReference" |};
                         Parameters := Get_map d0 "pipeline_parameters" |} ]) d3)
    as (Hpname & Hpparams).
  fold d1 in Hother. fold d3 in Hfreq, Hint, Hschedule. fold d4 in Hpname, Hpparams.
  assert (Hd2 : ∀ k, k ≠ "activated" → attributes d2 !! k = attributes d1 !! k).
  { intros k Hk. unfold d2. rewrite set_attribute_lookup.
    destruct (decide ("activated" = k)); [congruence|done]. }
  assert (Hd3 : ∀ k, k ∉ recurrence_keys → attributes d3 !! k = attributes d2 !! k).
  { intros k Hk. by apply set_recurrence_other. }
  assert (Hd4 : ∀ k, k ∉ pipeline_keys → attributes d4 !! k = attributes d3 !! k).
  { intros k Hk. by apply set_pipelines_other. }
  assert (Hkeys : ∀ (k : string) (l : list string), bool_decide (k ∈ l) = false → k ∉ l).
  { intros k l. apply bool_decide_eq_false. }
  assert (Hlast : ∀ v a k, k ≠ "description" → k ≠ "annotations" →
            attributes (Set_attribute "description" v
              (Set_attribute "annotations" a d4)) !! k = attributes d4 !! k).
  { intros v a k ? ?. rewrite !set_attribute_lookup.
    destruct (decide ("description" = k)); [congruence|].
    destruct (decide ("annotations" = k)); [congruence|done]. }
  match goal with
  | |- context [Get_list ?d "schedule" = _] =>
    assert (Hstored : Get_list d "schedule"
                      = match schedule with
                        | Some s => schema_read_schedule (flattenDataFactorySchedule (Some s))
                        | None => Get_list d0 "schedule"
                        end)
  end.
  { unfold Get_list.
    rewrite Hlast, Hd4, Hschedule by (done || by apply Hkeys). cbn [Schedule recurrence].
    destruct schedule; [done|].
    rewrite Hd2, Hother by (done || by apply Hkeys). done. }
  split; [|split; [|split; [|split; [|split; [|split; [|split; [|split]]]]]]].
  - unfold Get_string. rewrite Hlast, Hd4, Hfreq by (done || by apply Hkeys). done.
  - unfold Get_int. rewrite Hlast, Hd4, Hint by (done || by apply Hkeys). done.
  - unfold Get_string. rewrite Hlast, Hpname by done. done.
  - unfold Get_map. rewrite Hlast, Hpparams by done. done.
  - unfold Get_string. rewrite set_attribute_lookup. done.
  - unfold Get_bool. rewrite Hlast, Hd4, Hd3 by (done || by apply Hkeys).
    unfold d2. by rewrite set_attribute_lookup.
  - exact Hstored.
  - intros Hfield. rewrite Hstored.
    destruct schedule as [s|]; [by eapply expand_pass_fixed|exact Hexpand].
  - intros ->. rewrite Hstored, read_flatten_nothing. done.
Qed.

End echo.

(** A creation on the sample: one create-or-update, after the existence
    check. *)
Lemma cycle_sends_one_trigger_witness :
  ∃ r st' pre trigger post,
    resourceDataFactoryTriggerScheduleCreateUpdate
      (start_state (desired true) (no_triggers 3)) = (r, st')
    ∧ calls st' = pre ++ CallCreateOrUpdate "rg" "df" "t1" trigger :: post
    ∧ Forall (fun c => is_create_or_update c = false) pre
    ∧ Forall (fun c => is_create_or_update c = false) post.
Proof.
  destruct (resourceDataFactoryTriggerScheduleCreateUpdate
              (start_state (desired true) (no_triggers 3))) as [r st'] eqn:Hrun.
  destruct (cycle_sends_one_trigger _ _ _ Hrun)
    as (new & Hcalls & [Hnone|(factory & schedule & pre & post & Hsel & _ & -> & Hpre & Hpost)]).
  - exfalso. vm_compute in Hrun. injection Hrun as _ <-.
    cbn in Hcalls. subst new.
    apply Forall_cons in Hnone as [_ Hnone]. by apply Forall_cons in Hnone as [? _].
  - vm_compute in Hsel. injection Hsel as <-.
    exists r, st', pre, (trigger_of (desired true) schedule), post. done.
Defined.

(** The read of the trigger that was built from the resource data: the
    schedule it stores is encoded as the schedule that was sent. *)
Lemma read_of_sent_trigger_witness :
  ∃ st',
    resourceDataFactoryTriggerScheduleRead {| data := applied; remote := running; calls := [] |}
    = (Return tt, st')
    ∧ Get_string (data st') "frequency" = "Week"
    ∧ Get_int (data st') "interval" = 2
    ∧ Get_bool (data st') "activated" = true
    ∧ expandDataFactorySchedule (Get_list (data st') "schedule") = Done (Some monday_schedule).
Proof.
  assert (Hid : TriggerID trigger_id = Parsed (NewTriggerID "sub" "rg" "df" "t1"))
    by (vm_compute; reflexivity).
  assert (Hget : Get "rg" "df" "t1" running
                 = ((found "rg" "df" "t1"
                       (IsScheduleTrigger (with_state "Started" sent_trigger)), None),
                    running)) by (vm_compute; reflexivity).
  assert (Hsent : Properties (trigger_of applied (Some monday_schedule))
                  = Some (IsScheduleTrigger sent_trigger)) by (vm_compute; reflexivity).
  assert (Hexpand : expandDataFactorySchedule (Get_list applied "schedule")
                    = Done (Some monday_schedule)) by (vm_compute; reflexivity).
  assert (Hfield : Some monday_schedule ≠ Some no_schedule_fields) by discriminate.
  destruct (read_of_sent_trigger {| data := applied; remote := running; calls := [] |}
              (NewTriggerID "sub" "rg" "df" "t1") _ _ (Some monday_schedule)
              sent_trigger (with_state "Started" sent_trigger)
              Hid Hget Hexpand Hsent eq_refl eq_refl eq_refl eq_refl)
    as (st' & Hrun & Hfrequency & Hinterval & _ & _ & _ & Hactivated & _ & Hround & _).
  exists st'. split; [exact Hrun|].
  rewrite Hfrequency, Hinterval, Hactivated, (Hround Hfield).
  repeat split; vm_compute; reflexivity.
Defined.
